(** * my-create-node-server: the project generator of [index.js]

    The script asks a fixed list of questions, then creates a project
    directory, writes a handful of template files, shells out to [npm] and
    [git], and finally patches the [start] script into [package.json].

    The development embeds the script after the prompt: its input is the
    answer record, its effects are file-system calls, external commands and
    console lines.  JavaScript strings are sequences of UTF-16 code units,
    absolute paths are lists of segments (POSIX separators), the disk is a
    finite map from paths to nodes, and the script body runs in a state and
    exception monad that also records the sequence of performed effects. *)

From Stdlib Require Import ZArith NArith String Ascii DecimalString Lia.
From Stdlib Require Import Floats.SpecFloat.
From stdpp Require Import gmap list.

Set Warnings "-register-all".
Local Open Scope list_scope.

(** ** JavaScript strings *)

(** A string value is its sequence of UTF-16 code units. *)
Abbreviation jsstring := (list N).

(** A literal of the source (ASCII text) as a string value. *)
Definition js (s : string) : jsstring :=
  List.map N_of_ascii (list_ascii_of_string s).

Definition COMMA : N := 44.
Definition SLASH : N := 47.
Definition LF : N := 10.
Definition EQUALS : N := 61.

(** WhiteSpace and LineTerminator code points of ECMAScript, the characters
    [String.prototype.trim] strips. *)
Definition is_ws (c : N) : bool :=
  (N.leb 9 c && N.leb c 13) || N.eqb c 32 || N.eqb c 160 || N.eqb c 5760
  || (N.leb 8192 c && N.leb c 8202) || N.eqb c 8232 || N.eqb c 8233
  || N.eqb c 8239 || N.eqb c 8287 || N.eqb c 12288 || N.eqb c 65279.

Fixpoint trimStart (s : jsstring) : jsstring :=
  match s with
  | c :: s' => if is_ws c then trimStart s' else s
  | [] => []
  end.

Definition trimEnd (s : jsstring) : jsstring := rev (trimStart (rev s)).

(** [s.trim()] *)
Definition trim (s : jsstring) : jsstring := trimEnd (trimStart s).

(** [s.split(sep)] for a one-character separator: the pieces between the
    separators, empty pieces included; the empty string has one empty
    piece. *)
Fixpoint split (sep : N) (s : jsstring) : list jsstring :=
  match s with
  | [] => [[]]
  | c :: s' =>
      if N.eqb c sep then [] :: split sep s'
      else match split sep s' with
           | p :: ps => (c :: p) :: ps
           | [] => [[c]]
           end
  end.

(** [parts.join(sep)] *)
Fixpoint join (sep : jsstring) (parts : list jsstring) : jsstring :=
  match parts with
  | [] => []
  | [p] => p
  | p :: rest => p ++ sep ++ join sep rest
  end.

(** [Boolean(s)] on a string: only the empty string is falsy. *)
Definition Boolean (s : jsstring) : bool :=
  match s with [] => false | _ :: _ => true end.

(** [input.split(",").map(x => x.trim()).filter(Boolean)], the parse the
    script applies to both comma-separated answers. *)
Definition tokens (input : jsstring) : list jsstring :=
  List.filter Boolean (List.map trim (split COMMA input)).

(** A trimmed string neither starts nor ends with white space. *)
Definition trimmed (s : jsstring) : Prop :=
  (forall c rest, s = c :: rest -> is_ws c = false) /\
  (forall c front, s = front ++ [c] -> is_ws c = false).

(** ** The answers *)

Inductive Language := JavaScript | TypeScript.

(** The object returned by [inquirer.prompt].  [envVars] is only asked
    [when] [addEnv] was confirmed and is [undefined] otherwise. *)
Record answers := {
  projectName : jsstring;
  language : Language;
  useMongo : bool;
  useDocker : bool;
  dependencies : jsstring;
  addEnv : bool;
  envVars : option jsstring;
  useESLint : bool;
  initGit : bool
}.

(** [language === "TypeScript"] *)
Definition isTS (a : answers) : bool :=
  match language a with TypeScript => true | JavaScript => false end.

Definition folders : list jsstring :=
  [js "routes"; js "controllers"; js "models"; js "config"].

Definition deps (a : answers) : list jsstring :=
  [js "express"] ++ (if useMongo a then [js "mongoose"] else [])
  ++ tokens (dependencies a).

Definition devDeps (a : answers) : list jsstring :=
  if isTS a
  then [js "typescript"; js "@types/node"; js "@types/express"; js "ts-node-dev"]
  else [].

Definition serverPath (a : answers) : jsstring :=
  if isTS a then js "src/index.ts" else js "server.js".

Definition NL : jsstring := [LF].

Definition serverContent (a : answers) : jsstring :=
  if isTS a
  then js "import express from 'express';" ++ NL
       ++ js "const app = express();" ++ NL
       ++ js "app.listen(3000, () => console.log('Server running'));" ++ NL
  else js "const express = require('express');" ++ NL
       ++ js "const app = express();" ++ NL
       ++ js "app.listen(3000, () => console.log('Server running'));" ++ NL.


Definition DQUOTE : N := 34.

Definition dockerfile : jsstring :=
  trim (NL ++ js "FROM node:18" ++ NL
        ++ js "WORKDIR /app" ++ NL
        ++ js "COPY package*.json ./" ++ NL
        ++ js "RUN npm install" ++ NL
        ++ js "COPY . ." ++ NL
        ++ js "CMD [" ++ [DQUOTE] ++ js "npm" ++ [DQUOTE] ++ js ", "
        ++ [DQUOTE] ++ js "start" ++ [DQUOTE] ++ js "]" ++ NL
        ++ js "EXPOSE 3000" ++ NL
        ++ js "    ").

Definition gitignore : jsstring :=
  trim (NL ++ js "node_modules" ++ NL
        ++ js ".env" ++ NL
        ++ js "dist" ++ NL
        ++ js ".DS_Store" ++ NL
        ++ js "npm-debug.log" ++ NL
        ++ js "  ").

(** [vars] and [envContent] of the [addEnv] branch. *)
Definition vars (envVars : jsstring) : list jsstring := tokens envVars.

Definition envContent (envVars : jsstring) : jsstring :=
  join NL (List.map (fun v => v ++ js "=") (vars envVars)).

Definition lintDeps (a : answers) : list jsstring :=
  [js "eslint"; js "prettier"]
  ++ (if isTS a
      then [js "@typescript-eslint/parser"; js "@typescript-eslint/eslint-plugin"]
      else []).

Definition startScript (a : answers) : jsstring :=
  if isTS a then js "ts-node-dev src/index.ts" else js "node server.js".

(** ** JSON values *)

(** The values [JSON.parse] produces.  A number is an IEEE 754 binary64
    value; an object is the list of its own properties in property order
    (keys are unique in an object built by the parser). *)
Inductive json :=
| JNull
| JBool (b : bool)
| JNum (x : spec_float)
| JStr (s : jsstring)
| JArr (items : list json)
| JObj (props : list (jsstring * json)).

(** The binary64 value of an integer literal. *)
Definition num (z : Z) : spec_float := binary_normalize 53 1024 z 0 false.

(** [o[k]] on the own properties of an object. *)
Fixpoint get_prop (k : jsstring) (props : list (jsstring * json)) : option json :=
  match props with
  | [] => None
  | (k', v) :: rest => if bool_decide (k' = k) then Some v else get_prop k rest
  end.

(** [o[k] = v]: an existing key keeps its place, a new key goes last. *)
Fixpoint set_prop (k : jsstring) (v : json) (props : list (jsstring * json))
  : list (jsstring * json) :=
  match props with
  | [] => [(k, v)]
  | (k', v') :: rest =>
      if bool_decide (k' = k) then (k, v) :: rest
      else (k', v') :: set_prop k v rest
  end.

(** The decimal spelling of an array index. *)
Definition index_key (i : nat) : jsstring :=
  js (NilZero.string_of_uint (Nat.to_uint i)).

Fixpoint indexed {A} (f : A -> json) (i : nat) (l : list A)
  : list (jsstring * json) :=
  match l with
  | [] => []
  | x :: rest => (index_key i, f x) :: indexed f (S i) rest
  end.

(** The own enumerable properties an object spread [{...v}] copies:
    the properties of an object, the elements of an array, the code units
    of a string, nothing for [undefined], [null], booleans and numbers. *)
Definition own_props (v : option json) : list (jsstring * json) :=
  match v with
  | Some (JObj props) => props
  | Some (JArr items) => indexed (fun x => x) 0 items
  | Some (JStr s) => indexed (fun c => JStr [c]) 0 s
  | _ => []
  end.

Definition tsconfig : json :=
  JObj [(js "compilerOptions",
         JObj [(js "target", JStr (js "ES6"));
               (js "module", JStr (js "commonjs"));
               (js "outDir", JStr (js "./dist"));
               (js "rootDir", JStr (js "./src"));
               (js "strict", JBool true);
               (js "esModuleInterop", JBool true)])].

Definition eslintConfig (a : answers) : json :=
  if isTS a
  then JObj [(js "parser", JStr (js "@typescript-eslint/parser"));
             (js "extends", JArr [JStr (js "eslint:recommended");
                                  JStr (js "plugin:@typescript-eslint/recommended")]);
             (js "parserOptions", JObj [(js "ecmaVersion", JNum (num 2020));
                                        (js "sourceType", JStr (js "module"))]);
             (js "rules", JObj [])]
  else JObj [(js "env", JObj [(js "node", JBool true); (js "es2021", JBool true)]);
             (js "extends", JArr [JStr (js "eslint:recommended")]);
             (js "parserOptions", JObj [(js "ecmaVersion", JStr (js "latest"));
                                        (js "sourceType", JStr (js "module"))]);
             (js "rules", JObj [])].

(** ** Paths and the disk *)

(** An absolute path is the list of its segments below the root. *)
Abbreviation path := (list jsstring).

(** One segment of [path.normalize]: empty and [.] segments vanish, [..]
    drops the last segment (the root is its own parent). *)
Definition enter (dir : path) (seg : jsstring) : path :=
  if bool_decide (seg = []) || bool_decide (seg = js ".") then dir
  else if bool_decide (seg = js "..") then removelast dir
  else dir ++ [seg].

(** [path.join(base, rel)] for an absolute, normalized [base]: the place the
    joined path names. *)
Definition path_join (base : path) (rel : jsstring) : path :=
  fold_left enter (split SLASH rel) base.

(** The relative paths that are one plain name. *)
Definition simple_segment (seg : jsstring) : bool :=
  negb (bool_decide (SLASH ∈ seg)) && negb (bool_decide (seg = []))
  && negb (bool_decide (seg = js ".")) && negb (bool_decide (seg = js "..")).

Inductive node :=
| DirNode
| FileNode (content : jsstring).

#[global] Instance node_eq_dec : EqDecision node.
Proof. solve_decision. Defined.

Abbreviation disk := (gmap path node).

Inductive errno :=
| EEXIST | ENOENT | ENOTDIR | EISDIR
| ENAMETOOLONG | EACCES | ENOSPC | EROFS.

(** The calls of [fs] the script makes. *)
Inductive fs_call := Mkdir | WriteFile | ReadFile.

(** Path resolution up to the last segment: every proper prefix has to be
    a directory. *)
Fixpoint walk (d : disk) (pre : path) (rest : path) : option errno :=
  match rest with
  | [] => None
  | seg :: rest' =>
      match rest' with
      | [] => None
      | _ :: _ =>
          match d !! (pre ++ [seg]) with
          | Some DirNode => walk d (pre ++ [seg]) rest'
          | Some (FileNode _) => Some ENOTDIR
          | None => Some ENOENT
          end
      end
  end.


(** ** The effects of the script *)

(** What the script does to the outside, in the order it does it.  A
    command is recorded with the exit status it came back with. *)
Inductive event :=
| EMkdir (p : path)
| EWrite (p : path) (content : jsstring)
| ERead (p : path) (content : jsstring)
| EExec (command : jsstring) (cwd : path) (status : Z)
| ELog (line : jsstring).

#[global] Instance event_eq_dec : EqDecision event.
Proof. solve_decision. Defined.

Record world := World {
  files : disk;
  events : list event
}.

(** The exceptions that can leave the script. *)
Inductive error :=
| FsError (code : errno) (p : path)
| ExecError (command : jsstring) (status : Z)
| SyntaxError (text : jsstring)
| TypeError.

Inductive outcome (A : Type) :=
| Returned (x : A)
| Thrown (e : error).
Arguments Returned {A} x.
Arguments Thrown {A} e.

(** What the script takes from its host: the working directory of the
    process, the programs [execSync] starts (their effect on the disk and
    their exit status), the two [JSON] built-ins, and the file system's own
    reasons to refuse a call.  [JSON_stringify v] stands for
    [JSON.stringify(v, null, 2)].  [refuses] stands for the failures that
    depend on more than the tree of directories and files: a name the file
    system finds too long, a missing permission, a disk that is full or
    mounted read-only. *)
Record host := Host {
  cwd : path;
  spawn : jsstring -> path -> disk -> disk * Z;
  JSON_parse : jsstring -> option json;
  JSON_stringify : json -> jsstring;
  refuses : fs_call -> path -> disk -> option errno
}.

Definition M (A : Type) : Type := world -> outcome A * world.

(** A step without effects that returns or throws. *)
Definition try {A} (o : outcome A) : M A := fun w => (o, w).

Definition ret {A} (x : A) : M A := try (Returned x).

Definition throw {A} (e : error) : M A := try (Thrown e).

Definition bind {A B} (m : M A) (k : A -> M B) : M B :=
  fun w =>
    match m w with
    | (Returned x, w') => k x w'
    | (Thrown e, w') => (Thrown e, w')
    end.

Declare Scope script_scope.
Delimit Scope script_scope with script.
Notation "x <- m ;; k" := (bind m (fun x => k))
  (at level 100, m at next level, right associativity) : script_scope.
Notation "m ;; k" := (bind m (fun _ => k))
  (at level 100, right associativity) : script_scope.
Local Open Scope script_scope.

Definition emit (ev : event) : M unit :=
  fun w => (Returned tt, World (files w) (events w ++ [ev])).

(** [if (b) { m }] *)
Definition when (b : bool) (m : M unit) : M unit :=
  if b then m else ret tt.

(** [l.forEach(x => f x)] *)
Fixpoint forEach {A} (l : list A) (f : A -> M unit) : M unit :=
  match l with
  | [] => ret tt
  | x :: rest => f x ;; forEach rest f
  end.

(** [fs.mkdirSync(p)], not recursive.  Where the tree has no objection the
    file system of the host can still refuse the call. *)
Definition mkdirSync (h : host) (p : path) : M unit :=
  fun w =>
    match walk (files w) [] p with
    | Some code => (Thrown (FsError code p), w)
    | None =>
        match files w !! p with
        | Some _ => (Thrown (FsError EEXIST p), w)
        | None =>
            match refuses h Mkdir p (files w) with
            | Some code => (Thrown (FsError code p), w)
            | None =>
                (Returned tt,
                 World (<[p := DirNode]> (files w)) (events w ++ [EMkdir p]))
            end
        end
    end.

(** [fs.writeFileSync(p, content)]: creates or truncates the file. *)
Definition writeFileSync (h : host) (p : path) (content : jsstring) : M unit :=
  fun w =>
    match walk (files w) [] p with
    | Some code => (Thrown (FsError code p), w)
    | None =>
        match files w !! p with
        | Some DirNode => (Thrown (FsError EISDIR p), w)
        | _ =>
            match refuses h WriteFile p (files w) with
            | Some code => (Thrown (FsError code p), w)
            | None =>
                (Returned tt,
                 World (<[p := FileNode content]> (files w))
                       (events w ++ [EWrite p content]))
            end
        end
    end.

(** [fs.readFileSync(p, "utf-8")] *)
Definition readFileSync (h : host) (p : path) : M jsstring :=
  fun w =>
    match walk (files w) [] p with
    | Some code => (Thrown (FsError code p), w)
    | None =>
        match files w !! p with
        | Some (FileNode content) =>
            match refuses h ReadFile p (files w) with
            | Some code => (Thrown (FsError code p), w)
            | None =>
                (Returned content,
                 World (files w) (events w ++ [ERead p content]))
            end
        | Some DirNode => (Thrown (FsError EISDIR p), w)
        | None => (Thrown (FsError ENOENT p), w)
        end
    end.

(** [execSync(command, { cwd: dir })]: runs the command to its end and
    throws when it exits with a status other than 0. *)
Definition execSync (h : host) (command : jsstring) (dir : path) : M unit :=
  fun w =>
    let '(d, status) := spawn h command dir (files w) in
    let w' := World d (events w ++ [EExec command dir status]) in
    if Z.eqb status 0 then (Returned tt, w')
    else (Thrown (ExecError command status), w').

(** [console.log(line)] *)
Definition console_log (line : jsstring) : M unit := emit (ELog line).

(** [JSON.parse(text)] *)
Definition parse (h : host) (text : jsstring) : outcome json :=
  match JSON_parse h text with
  | Some v => Returned v
  | None => Thrown (SyntaxError text)
  end.

(** [packageJson.scripts = { ...packageJson.scripts, start: startScript }]
    and the value [JSON.stringify] then sees.  Reading a property of [null]
    throws; the assignment creates or replaces the property of an object,
    is silently dropped on a primitive (the script is not in strict mode),
    and on an array adds a property that is not an element. *)
Definition set_start_script (a : answers) (packageJson : json) : outcome json :=
  match packageJson with
  | JNull => Thrown TypeError
  | JObj props =>
      let scripts :=
        set_prop (js "start") (JStr (startScript a))
                 (own_props (get_prop (js "scripts") props)) in
      Returned (JObj (set_prop (js "scripts") (JObj scripts) props))
  | other => Returned other
  end.

Definition env_message (envVars : jsstring) : jsstring :=
  js ".env file created with: " ++ join (js ", ") (vars envVars).

Definition git_message : jsstring := js "Git repo initialized with first commit.".

Definition created_message (a : answers) : jsstring :=
  NL ++ js " Project " ++ [DQUOTE] ++ projectName a ++ [DQUOTE]
  ++ js " created successfully!".

Definition npm_start_message : jsstring :=
  [240; 376; 353; 8364]%N ++ js " To run the app:" ++ NL ++ js "   npm start".

Definition hints (a : answers) : list jsstring :=
  if isTS a
  then [NL ++ js " To compile the app:" ++ NL ++ js "   tsc";
        js " To run the app:" ++ NL ++ js "   node dist/index.js";
        js " Or use ts-node:" ++ NL ++ js "   npx ts-node src/index.ts"]
  else [js " To run the app:" ++ NL ++ js "   node server.js"].

Definition npm_init : jsstring := js "npm init -y".

Definition npm_install (packages : list jsstring) : jsstring :=
  js "npm install " ++ join (js " ") packages.

Definition npm_install_dev (packages : list jsstring) : jsstring :=
  js "npm install -D " ++ join (js " ") packages.

Definition git_init : jsstring := js "git init".

Definition git_add : jsstring := js "git add .".

Definition git_commit : jsstring :=
  js "git commit -m " ++ [DQUOTE] ++ js "Initial commit" ++ [DQUOTE].

(** The commands the script can start. *)
Definition commands (a : answers) : list jsstring :=
  [npm_init; npm_install (deps a); npm_install_dev (devDeps a);
   npm_install_dev (lintDeps a); git_init; git_add; git_commit].

Definition projectPath (h : host) (a : answers) : path :=
  path_join (cwd h) (projectName a).

(** [path.join(projectPath, rel)] *)
Definition inProject (h : host) (a : answers) (rel : string) : path :=
  path_join (projectPath h a) (js rel).

Definition packageJsonPath (h : host) (a : answers) : path :=
  inProject h a "package.json".

(** The script body, in the order of the source; each definition is one
    run of consecutive statements. *)

(** Lines 50-66: the directories and the entry point. *)
Definition scaffold (h : host) (a : answers) : M unit :=
  mkdirSync h (projectPath h a) ;;
  forEach folders (fun folder => mkdirSync h (path_join (projectPath h a) folder)) ;;
  when (isTS a) (mkdirSync h (inProject h a "src")) ;;
  writeFileSync h (path_join (projectPath h a) (serverPath a)) (serverContent a).

(** Lines 68-73. *)
Definition write_env (h : host) (a : answers) : M unit :=
  when (addEnv a)
    (envVars <- try match envVars a with
                    | Some s => Returned s
                    | None => Thrown TypeError
                    end ;;
     writeFileSync h (inProject h a ".env") (envContent envVars) ;;
     console_log (env_message envVars)).

(** Lines 75-96. *)
Definition write_templates (h : host) (a : answers) : M unit :=
  when (useDocker a) (writeFileSync h (inProject h a "Dockerfile") dockerfile) ;;
  writeFileSync h (inProject h a ".gitignore") gitignore.

(** Lines 99-101. *)
Definition install (h : host) (a : answers) : M unit :=
  execSync h npm_init (projectPath h a) ;;
  when (Nat.ltb 0 (length (deps a)))
    (execSync h (npm_install (deps a)) (projectPath h a)) ;;
  when (Nat.ltb 0 (length (devDeps a)))
    (execSync h (npm_install_dev (devDeps a)) (projectPath h a)).

(** Lines 104-116. *)
Definition write_tsconfig (h : host) (a : answers) : M unit :=
  when (isTS a)
    (writeFileSync h (inProject h a "tsconfig.json") (JSON_stringify h tsconfig)).

(** Lines 119-145. *)
Definition setup_lint (h : host) (a : answers) : M unit :=
  when (useESLint a)
    (execSync h (npm_install_dev (lintDeps a)) (projectPath h a) ;;
     writeFileSync h (inProject h a ".eslintrc.json")
                   (JSON_stringify h (eslintConfig a)) ;;
     writeFileSync h (inProject h a ".prettierrc") (js "{}")).

(** Lines 148-155. *)
Definition init_git (h : host) (a : answers) : M unit :=
  when (initGit a)
    (execSync h git_init (projectPath h a) ;;
     execSync h git_add (projectPath h a) ;;
     execSync h git_commit (projectPath h a) ;;
     console_log git_message) ;;
  console_log (created_message a).

(** Lines 158-170. *)
Definition add_start_script (h : host) (a : answers) : M unit :=
  text <- readFileSync h (packageJsonPath h a) ;;
  packageJson <- try (parse h text) ;;
  packageJson <- try (set_start_script a packageJson) ;;
  writeFileSync h (packageJsonPath h a) (JSON_stringify h packageJson).

(** Lines 172-180. *)
Definition print_hints (a : answers) : M unit :=
  console_log npm_start_message ;;
  forEach (hints a) console_log.

(** The body of the script, from the first [mkdirSync] to the last
    [console.log]. *)
Definition run (h : host) (a : answers) : M unit :=
  scaffold h a ;;
  write_env h a ;;
  write_templates h a ;;
  install h a ;;
  write_tsconfig h a ;;
  setup_lint h a ;;
  init_git h a ;;
  add_start_script h a ;;
  print_hints a.

(** The exit status of the process: the script body is an [async] function
    whose promise nobody handles, so an exception ends the process with
    status 1 (the default of Node.js 15 and later); otherwise the process
    ends with status 0 once the body returns. *)
Definition exit_status {A} (o : outcome A) : Z :=
  match o with
  | Returned _ => 0
  | Thrown _ => 1
  end.

(** The events a run adds to the record. *)
Definition performed (h : host) (a : answers) (w : world) : list event :=
  drop (length (events w)) (events (snd (run h a w))).

(** ** What a run is expected to do *)

(** The effects of each part of the script when nothing fails; commands
    appear with status 0. *)
Definition on (b : bool) (evs : list event) : list event :=
  if b then evs else [].

Definition scaffold_plan (h : host) (a : answers) : list event :=
  [EMkdir (projectPath h a)]
  ++ List.map (fun folder => EMkdir (path_join (projectPath h a) folder)) folders
  ++ on (isTS a) [EMkdir (inProject h a "src")]
  ++ [EWrite (path_join (projectPath h a) (serverPath a)) (serverContent a)].

Definition write_env_plan (h : host) (a : answers) : list event :=
  on (addEnv a)
     match envVars a with
     | Some s => [EWrite (inProject h a ".env") (envContent s); ELog (env_message s)]
     | None => []
     end.

Definition write_templates_plan (h : host) (a : answers) : list event :=
  on (useDocker a) [EWrite (inProject h a "Dockerfile") dockerfile]
  ++ [EWrite (inProject h a ".gitignore") gitignore].

Definition install_plan (h : host) (a : answers) : list event :=
  [EExec npm_init (projectPath h a) 0]
  ++ on (Nat.ltb 0 (length (deps a)))
        [EExec (npm_install (deps a)) (projectPath h a) 0]
  ++ on (Nat.ltb 0 (length (devDeps a)))
        [EExec (npm_install_dev (devDeps a)) (projectPath h a) 0].

Definition write_tsconfig_plan (h : host) (a : answers) : list event :=
  on (isTS a) [EWrite (inProject h a "tsconfig.json") (JSON_stringify h tsconfig)].

Definition setup_lint_plan (h : host) (a : answers) : list event :=
  on (useESLint a)
     [EExec (npm_install_dev (lintDeps a)) (projectPath h a) 0;
      EWrite (inProject h a ".eslintrc.json") (JSON_stringify h (eslintConfig a));
      EWrite (inProject h a ".prettierrc") (js "{}")].

Definition init_git_plan (h : host) (a : answers) : list event :=
  on (initGit a)
     [EExec git_init (projectPath h a) 0;
      EExec git_add (projectPath h a) 0;
      EExec git_commit (projectPath h a) 0;
      ELog git_message]
  ++ [ELog (created_message a)].

(** The patched manifest text for the text that was read, when it parses
    and the patch does not throw. *)
Definition patched (h : host) (a : answers) (text : jsstring) : option jsstring :=
  match parse h text with
  | Returned v =>
      match set_start_script a v with
      | Returned v' => Some (JSON_stringify h v')
      | Thrown _ => None
      end
  | Thrown _ => None
  end.

Definition add_start_script_plan (h : host) (a : answers) (text : jsstring)
  : list event :=
  [ERead (packageJsonPath h a) text]
  ++ match patched h a text with
     | Some text' => [EWrite (packageJsonPath h a) text']
     | None => []
     end.

Definition print_hints_plan (a : answers) : list event :=
  [ELog npm_start_message] ++ List.map ELog (hints a).

(** The events before the manifest is read. *)
Definition plan_before (h : host) (a : answers) : list event :=
  scaffold_plan h a ++ write_env_plan h a ++ write_templates_plan h a
  ++ install_plan h a ++ write_tsconfig_plan h a ++ setup_lint_plan h a
  ++ init_git_plan h a.

(** The whole run, for the manifest text the script reads back. *)
Definition plan (h : host) (a : answers) (text : jsstring) : list event :=
  plan_before h a ++ add_start_script_plan h a text ++ print_hints_plan a.

(** The disk after an event. *)
Definition apply_event (h : host) (d : disk) (ev : event) : disk :=
  match ev with
  | EMkdir p => <[p := DirNode]> d
  | EWrite p content => <[p := FileNode content]> d
  | EExec command dir _ => fst (spawn h command dir d)
  | ERead _ _ | ELog _ => d
  end.

Definition replay (h : host) (evs : list event) (d : disk) : disk :=
  fold_left (apply_event h) evs d.

(** How the events of a run relate to its plan: a run that returns did the
    whole plan; a run that a command ended did the plan up to that command,
    which came back with another status than the planned 0, and nothing
    after it; a run that ended otherwise did a prefix of the plan, which for
    a text that does not parse ends with the reading of that text. *)
Definition follows {A} (expected : list event) (o : outcome A) (new : list event)
  : Prop :=
  match o with
  | Returned _ => new = expected
  | Thrown (ExecError command status) =>
      status <> 0%Z /\
      exists pre dir post,
        expected = pre ++ EExec command dir 0 :: post /\
        new = pre ++ [EExec command dir status]
  | Thrown (SyntaxError text) =>
      exists pre p post,
        new = pre ++ [ERead p text] /\ expected = new ++ post
  | Thrown _ => exists post, expected = new ++ post
  end.

(** The exceptions that are neither a failed command nor a text that does
    not parse. *)
Definition plain (e : error) : Prop :=
  match e with FsError _ _ | TypeError => True | _ => False end.

(** Events by kind. *)
Definition quiet (ev : event) : Prop :=
  match ev with EExec _ _ status => status = 0%Z | _ => True end.

Definition is_write_to (p : path) (ev : event) : Prop :=
  match ev with EWrite q _ => q = p | _ => False end.

Definition is_read (ev : event) : Prop :=
  match ev with ERead _ _ => True | _ => False end.

Definition is_mkdir (ev : event) : Prop :=
  match ev with EMkdir _ => True | _ => False end.


Definition obeys (h : host) {A} (m : M A) (expected : list event) : Prop :=
  forall w, exists new,
    events (snd (m w)) = events w ++ new /\
    files (snd (m w)) = replay h new (files w) /\
    follows expected (fst (m w)) new.

(** The same for a part of the script whose plan depends on the text it
    reads from the disk; [ok] is what that text satisfies when the part
    returns. *)
Definition obeys_reading (h : host) {A} (m : M A)
  (expected : jsstring -> list event) (ok : jsstring -> Prop) : Prop :=
  forall w, exists text new,
    events (snd (m w)) = events w ++ new /\
    files (snd (m w)) = replay h new (files w) /\
    follows (expected text) (fst (m w)) new /\
    (forall x, fst (m w) = Returned x -> ok text).

(** The disks the theorems on file-system results are about: the root is a
    directory and every node lies in a directory. *)
Definition sound_disk (d : disk) : Prop :=
  d !! ([] : path) = Some DirNode /\
  map_Forall (fun (p : path) (_ : node) => d !! removelast p = Some DirNode) d.

#[global] Instance sound_disk_dec (d : disk) : Decision (sound_disk d).
Proof. unfold sound_disk. apply _. Defined.

(** Every proper prefix of [p] is a directory. *)
Definition reachable (d : disk) (p : path) : Prop :=
  forall q r : path, p = q ++ r -> q <> [] -> r <> [] -> d !! q = Some DirNode.

(** The places the script creates, writes or reads, relative to the project
    path. *)
Definition project_places : list path :=
  [[]; [js "routes"]; [js "controllers"]; [js "models"]; [js "config"];
   [js "src"]; [js "src"; js "index.ts"]; [js "server.js"]; [js ".env"];
   [js "Dockerfile"]; [js ".gitignore"]; [js "tsconfig.json"];
   [js ".eslintrc.json"]; [js ".prettierrc"]; [js "package.json"]].

(** The file system of the host refuses none of the calls of the script on
    the places of the project: the names are not too long for it, the
    process may write there and there is room. *)
Definition obliging (h : host) (a : answers) : Prop :=
  forall call r d,
    r ∈ project_places -> refuses h call (projectPath h a ++ r) d = None.

(** The subfolders the script creates. *)
Definition project_folders (a : answers) : list jsstring :=
  folders ++ (if isTS a then [js "src"] else []).

(** The commands of a host neither create nor remove a directory. *)
Definition spawn_keeps_directories (h : host) : Prop :=
  forall command dir d (q : path),
    fst (spawn h command dir d) !! q = Some DirNode <-> d !! q = Some DirNode.

(** The names of the directories directly below [dir]. *)
Definition is_subfolder (d : disk) (dir : path) (name : jsstring) : Prop :=
  d !! (dir ++ [name]) = Some DirNode.

Definition mkdirs (evs : list event) : list path :=
  omap (fun ev => match ev with EMkdir p => Some p | _ => None end) evs.

(** The variable names of a [.env] text: on every non-empty line, the text
    before the first [=]. *)
Fixpoint before (c : N) (s : jsstring) : jsstring :=
  match s with
  | [] => []
  | x :: s' => if N.eqb x c then [] else x :: before c s'
  end.

Definition env_names (text : jsstring) : list jsstring :=
  List.map (before EQUALS) (List.filter Boolean (split LF text)).

(** ** Further notions *)

(** Line 29: the names are asked for [when] [addEnv] was confirmed, and a
    question that is not asked leaves no answer. *)
Definition well_prompted (a : answers) : Prop :=
  is_Some (envVars a) <-> addEnv a = true.

(** The commands of a run in which nothing fails, in their order. *)
Definition command_list (a : answers) : list jsstring :=
  [npm_init; npm_install (deps a)]
  ++ (if isTS a then [npm_install_dev (devDeps a)] else [])
  ++ (if useESLint a then [npm_install_dev (lintDeps a)] else [])
  ++ (if initGit a then [git_init; git_add; git_commit] else []).

(** The console lines of a run in which nothing fails. *)
Definition console_lines (a : answers) : list jsstring :=
  (if addEnv a
   then match envVars a with Some s => [env_message s] | None => [] end
   else [])
  ++ (if initGit a then [git_message] else [])
  ++ [created_message a; npm_start_message] ++ hints a.

(** The commands among some events, and the console lines among them. *)
Definition execs (evs : list event) : list jsstring :=
  omap (fun ev => match ev with EExec command _ _ => Some command | _ => None end) evs.

Definition logs (evs : list event) : list jsstring :=
  omap (fun ev => match ev with ELog line => Some line | _ => None end) evs.

(** The place an event is about: the path created, written or read, and
    the directory a command runs in. *)
Definition place (ev : event) : option path :=
  match ev with
  | EMkdir p | EWrite p _ | ERead p _ => Some p
  | EExec _ dir _ => Some dir
  | ELog _ => None
  end.

(** The files the script writes directly in the project directory after
    the entry point. *)
Definition file_names : list jsstring :=
  [js ".env"; js "Dockerfile"; js ".gitignore"; js "tsconfig.json";
   js ".eslintrc.json"; js ".prettierrc"; js "package.json"].

(** A disk the script can go on writing its files to: the project
    directory and the directories above it are there, and none of the file
    names is taken by a directory. *)
Definition workable (h : host) (a : answers) (d : disk) : Prop :=
  (forall q : path,
     q `prefix_of` projectPath h a -> q <> [] -> d !! q = Some DirNode) /\
  (forall name, name ∈ file_names ->
     d !! (projectPath h a ++ [name]) <> Some DirNode).

(** The manifest is there and the start script can be put into it. *)
Definition manifest_ready (h : host) (a : answers) (d : disk) : Prop :=
  exists text,
    d !! packageJsonPath h a = Some (FileNode text) /\ is_Some (patched h a text).

(** The disk between two statements of the script after the scaffold;
    [ready] from [npm init -y] on. *)
Definition midway (h : host) (a : answers) (ready : bool) (d : disk) : Prop :=
  workable h a d /\ (ready = true -> manifest_ready h a d).

(** A host on which the run of [a] meets no failure: started in a workable
    project directory, the commands of the run exit with status 0 and leave
    the directory workable, [npm init -y] leaves a manifest the start script
    can be put into, and the later commands keep such a manifest. *)
Record cooperative (h : host) (a : answers) : Prop := {
  commands_succeed :
    forall command d,
      command ∈ command_list a -> workable h a d ->
      snd (spawn h command (projectPath h a) d) = 0%Z;
  project_stays :
    forall command d,
      command ∈ command_list a -> workable h a d ->
      workable h a (fst (spawn h command (projectPath h a) d));
  init_writes_manifest :
    forall d,
      workable h a d ->
      manifest_ready h a (fst (spawn h npm_init (projectPath h a) d));
  manifest_stays :
    forall command d,
      command ∈ command_list a -> workable h a d -> manifest_ready h a d ->
      manifest_ready h a (fst (spawn h command (projectPath h a) d))
}.

(** From every world whose disk satisfies [I], the part [m] of the script
    returns and leaves a disk that satisfies [Q]. *)
Definition succeeds {A : Type} (I : disk -> Prop) (m : M A) (Q : disk -> Prop)
  : Prop :=
  forall w, I (files w) -> exists x w', m w = (Returned x, w') /\ Q (files w').

(** An event that touches the disk in the project only: a directory or a
    file at or below the project path, or a command started in the project
    directory. *)
Definition inside (h : host) (a : answers) (ev : event) : Prop :=
  match ev with
  | EMkdir p | EWrite p _ => projectPath h a `prefix_of` p
  | EExec _ dir _ => dir = projectPath h a
  | ERead _ _ | ELog _ => True
  end.

(** The directories and files the script itself creates or writes, in the
    order it does. *)
Definition created (evs : list event) : list path :=
  omap (fun ev => match ev with
                  | EMkdir p | EWrite p _ => Some p
                  | _ => None
                  end) evs.

(** The event is a start of [command], whatever its status. *)
Definition starts (command : jsstring) (ev : event) : Prop :=
  match ev with EExec c _ _ => c = command | _ => False end.

Definition SPACE : N := 32.

(** ** A host for the examples *)

(** A printer and a parser for the JSON texts of the examples: two-space
    indentation as [JSON.stringify(v, null, 2)] prints it, strings with the
    escapes of the quote, the backslash and the line feed, numbers that are
    integers.  Other numbers and escapes are outside this fragment (the
    printer writes [null], the parser gives up). *)
Module Demo.

Definition BACKSLASH : N := 92.

Definition escape (c : N) : jsstring :=
  if N.eqb c DQUOTE then [BACKSLASH; DQUOTE]
  else if N.eqb c BACKSLASH then [BACKSLASH; BACKSLASH]
  else if N.eqb c LF then [BACKSLASH; 110%N]
  else [c].

Definition quote (s : jsstring) : jsstring :=
  [DQUOTE] ++ flat_map escape s ++ [DQUOTE].

Definition pad (n : nat) : jsstring := repeat 32%N n.

Definition decimal (z : Z) : jsstring :=
  js (NilZero.string_of_int (Z.to_int z)).

Definition show_number (x : spec_float) : jsstring :=
  match x with
  | S754_zero _ => js "0"
  | S754_finite s m e =>
      let z := if s then Z.neg m else Z.pos m in
      if Z.leb 0 e then decimal (z * 2 ^ e)
      else if Z.eqb (Z.pos m mod 2 ^ (- e)) 0 then decimal (z / 2 ^ (- e))
      else js "null"
  | _ => js "null"
  end.

Fixpoint show (depth : nat) (v : json) : jsstring :=
  match v with
  | JNull => js "null"
  | JBool true => js "true"
  | JBool false => js "false"
  | JNum x => show_number x
  | JStr s => quote s
  | JArr [] => js "[]"
  | JArr items =>
      js "[" ++ NL
      ++ join (js "," ++ NL)
              (List.map (fun x => pad (depth + 2) ++ show (depth + 2) x) items)
      ++ NL ++ pad depth ++ js "]"
  | JObj [] => js "{}"
  | JObj props =>
      js "{" ++ NL
      ++ join (js "," ++ NL)
              (List.map (fun kv => pad (depth + 2) ++ quote (fst kv) ++ js ": "
                                   ++ show (depth + 2) (snd kv)) props)
      ++ NL ++ pad depth ++ js "}"
  end.

Definition stringify (v : json) : jsstring := show 0 v.

Fixpoint skip_ws (s : jsstring) : jsstring :=
  match s with
  | c :: s' => if N.eqb c 32 || N.eqb c 10 || N.eqb c 13 || N.eqb c 9
               then skip_ws s' else s
  | [] => []
  end.

(** The characters of a string literal after its opening quote. *)
Fixpoint string_body (s : jsstring) : option (jsstring * jsstring) :=
  match s with
  | [] => None
  | c :: s' =>
      if N.eqb c DQUOTE then Some ([], s')
      else if N.eqb c BACKSLASH then
        match s' with
        | e :: s'' =>
            let unescaped :=
              if N.eqb e DQUOTE then Some DQUOTE
              else if N.eqb e BACKSLASH then Some BACKSLASH
              else if N.eqb e 110 then Some LF
              else None in
            match unescaped, string_body s'' with
            | Some x, Some (body, rest) => Some (x :: body, rest)
            | _, _ => None
            end
        | [] => None
        end
      else match string_body s' with
           | Some (body, rest) => Some (c :: body, rest)
           | None => None
           end
  end.

Fixpoint digits (acc : Z) (s : jsstring) : Z * jsstring :=
  match s with
  | c :: s' =>
      if N.leb 48 c && N.leb c 57
      then digits (10 * acc + Z.of_N (c - 48)) s'
      else (acc, s)
  | [] => (acc, [])
  end.

Definition after (word : string) (s : jsstring) : option jsstring :=
  if bool_decide (take (length (js word)) s = js word)
  then Some (drop (length (js word)) s) else None.

Fixpoint value (fuel : nat) (s : jsstring) : option (json * jsstring) :=
  match fuel with
  | O => None
  | S fuel' =>
      match skip_ws s with
      | [] => None
      | c :: s' =>
          if N.eqb c DQUOTE then
            match string_body s' with
            | Some (body, rest) => Some (JStr body, rest)
            | None => None
            end
          else if N.eqb c 91 then
            match skip_ws s' with
            | 93%N :: rest => Some (JArr [], rest)
            | _ => match elements fuel' s' with
                   | Some (items, rest) => Some (JArr items, rest)
                   | None => None
                   end
            end
          else if N.eqb c 123 then
            match skip_ws s' with
            | 125%N :: rest => Some (JObj [], rest)
            | _ => match members fuel' s' with
                   | Some (props, rest) => Some (JObj props, rest)
                   | None => None
                   end
            end
          else if N.leb 48 c && N.leb c 57 then
            let '(z, rest) := digits 0 (c :: s') in Some (JNum (num z), rest)
          else match after "true" (c :: s'), after "false" (c :: s'),
                     after "null" (c :: s') with
               | Some rest, _, _ => Some (JBool true, rest)
               | _, Some rest, _ => Some (JBool false, rest)
               | _, _, Some rest => Some (JNull, rest)
               | _, _, _ => None
               end
      end
  end
with elements (fuel : nat) (s : jsstring) : option (list json * jsstring) :=
  match fuel with
  | O => None
  | S fuel' =>
      match value fuel' s with
      | Some (v, rest) =>
          match skip_ws rest with
          | 93%N :: rest' => Some ([v], rest')
          | 44%N :: rest' =>
              match elements fuel' rest' with
              | Some (vs, rest'') => Some (v :: vs, rest'')
              | None => None
              end
          | _ => None
          end
      | None => None
      end
  end
with members (fuel : nat) (s : jsstring)
  : option (list (jsstring * json) * jsstring) :=
  match fuel with
  | O => None
  | S fuel' =>
      match skip_ws s with
      | 34%N :: s' =>
          match string_body s' with
          | Some (k, rest) =>
              match skip_ws rest with
              | 58%N :: rest' =>
                  match value fuel' rest' with
                  | Some (v, rest'') =>
                      match skip_ws rest'' with
                      | 125%N :: r => Some ([(k, v)], r)
                      | 44%N :: r =>
                          match members fuel' r with
                          | Some (kvs, r') => Some ((k, v) :: kvs, r')
                          | None => None
                          end
                      | _ => None
                      end
                  | None => None
                  end
              | _ => None
              end
          | None => None
          end
      | _ => None
      end
  end.

Definition parse_text (text : jsstring) : option json :=
  match value (S (length text)) text with
  | Some (v, rest) => match skip_ws rest with [] => Some v | _ => None end
  | None => None
  end.

(** The manifest [npm init -y] writes in a directory called [name]: when
    the directory holds a [server.js], that file is the [main] entry and
    the manifest comes with the start script [node server.js]. *)
Definition manifest (name : jsstring) (server : bool) : json :=
  JObj [(js "name", JStr name);
        (js "version", JStr (js "1.0.0"));
        (js "description", JStr []);
        (js "main", JStr (if server then js "server.js" else js "index.js"));
        (js "scripts",
         JObj ((js "test",
                JStr (js "echo " ++ [DQUOTE] ++ js "Error: no test specified"
                      ++ [DQUOTE] ++ js " && exit 1"))
               :: (if server
                   then [(js "start", JStr (js "node server.js"))]
                   else [])));
        (js "keywords", JArr []);
        (js "author", JStr []);
        (js "license", JStr (js "ISC"))].

Definition starts_with (pre s : jsstring) : bool :=
  bool_decide (take (length pre) s = pre).

Definition is_file (d : disk) (p : path) : bool :=
  match d !! p with Some (FileNode _) => true | _ => false end.

(** The programs of the examples, reduced to what they leave in the
    directory they run in: [npm init -y] writes the manifest, an
    [npm install] creates [node_modules] and the lock file, [git init]
    creates [.git]; [offline] makes every [npm install] fail with status 1
    before it writes anything. *)
Definition programs (offline : bool) (command : jsstring) (dir : path) (d : disk)
  : disk * Z :=
  if bool_decide (command = npm_init)
  then (<[dir ++ [js "package.json"] :=
            FileNode (stringify (manifest (List.last dir [])
                                          (is_file d (dir ++ [js "server.js"]))))]> d,
        0%Z)
  else if starts_with (js "npm install ") command
  then if offline then (d, 1%Z)
       else (<[dir ++ [js "package-lock.json"] := FileNode (js "{}")]>
               (<[dir ++ [js "node_modules"] := DirNode]> d), 0%Z)
  else if bool_decide (command = git_init)
  then (<[dir ++ [js ".git"] := DirNode]> d, 0%Z)
  else (d, 0%Z).

(** The length of a name in UTF-8, as the file system counts it: a
    surrogate pair takes four bytes, a lone surrogate the three of the
    replacement character. *)
Fixpoint utf8_length (s : jsstring) : N :=
  match s with
  | [] => 0
  | c :: rest =>
      if N.ltb c 128 then 1 + utf8_length rest
      else if N.ltb c 2048 then 2 + utf8_length rest
      else if N.leb 55296 c && N.ltb c 56320
      then match rest with
           | lo :: rest' =>
               if N.leb 56320 lo && N.ltb lo 57344
               then 4 + utf8_length rest'
               else 3 + utf8_length rest
           | [] => 3
           end
      else 3 + utf8_length rest
  end%N.

(** The file system of the examples: a name may have 255 bytes, and nothing
    else is refused. *)
Definition limits (call : fs_call) (p : path) (d : disk) : option errno :=
  if forallb (fun seg => N.leb (utf8_length seg) 255) p
  then None else Some ENAMETOOLONG.

Definition home : path := [js "home"; js "dev"].

Definition machine : host :=
  Host home (programs false) parse_text stringify limits.

Definition offline_machine : host :=
  Host home (programs true) parse_text stringify limits.

(** The [start] script in the manifest at [p], as the parser reads it. *)
Definition start_script_of (d : disk) (p : path) : option json :=
  match d !! p with
  | Some (FileNode text) =>
      match parse_text text with
      | Some (JObj props) =>
          match get_prop (js "scripts") props with
          | Some (JObj scripts) => get_prop (js "start") scripts
          | _ => None
          end
      | _ => None
      end
  | _ => None
  end.

(** A disk with the working directory and nothing in it. *)
Definition empty_home : disk :=
  <[home := DirNode]> (<[[js "home"] := DirNode]> (<[[] := DirNode]> ∅)).

Definition fresh : world := World empty_home [].

(** The same with a directory [demo] in the working directory. *)
Definition taken : world :=
  World (<[home ++ [js "demo"] := DirNode]> empty_home) [].

(** The first scenario of the specification. *)
Definition demo : answers :=
  {| projectName := js "demo"; language := JavaScript; useMongo := true;
     useDocker := false; dependencies := js "cors, dotenv"; addEnv := false;
     envVars := None; useESLint := false; initGit := false |}.

(** MongoDB declined, but listed by hand among the other dependencies. *)
Definition by_hand : answers :=
  {| projectName := js "demo"; language := JavaScript; useMongo := false;
     useDocker := false; dependencies := js "mongoose"; addEnv := false;
     envVars := None; useESLint := false; initGit := false |}.

(** A value typed after a variable name. *)
Definition with_value : answers :=
  {| projectName := js "demo"; language := JavaScript; useMongo := false;
     useDocker := false; dependencies := []; addEnv := true;
     envVars := Some (js "PORT=3000"); useESLint := false; initGit := false |}.

(** A [.env] file asked for, and no name given. *)
Definition blank_env : answers :=
  {| projectName := js "demo"; language := JavaScript; useMongo := false;
     useDocker := false; dependencies := []; addEnv := true;
     envVars := Some (js " , "); useESLint := false; initGit := false |}.

(** No project name given. *)
Definition nameless : answers :=
  {| projectName := []; language := JavaScript; useMongo := false;
     useDocker := false; dependencies := []; addEnv := false;
     envVars := None; useESLint := false; initGit := false |}.


(** A project name of 256 letters. *)
Definition long_named : answers :=
  {| projectName := repeat 97%N 256; language := JavaScript; useMongo := false;
     useDocker := false; dependencies := []; addEnv := false;
     envVars := None; useESLint := false; initGit := false |}.

(** JavaScript with a git repository. *)
Definition with_git : answers :=
  {| projectName := js "demo"; language := JavaScript; useMongo := false;
     useDocker := false; dependencies := []; addEnv := false;
     envVars := None; useESLint := false; initGit := true |}.

(** All options on, TypeScript. *)
Definition full : answers :=
  {| projectName := js "api"; language := TypeScript; useMongo := true;
     useDocker := true; dependencies := js " cors ,, dotenv,cors"; addEnv := true;
     envVars := Some (js "PORT, DB_URL"); useESLint := true; initGit := true |}.

End Demo.


(** * Properties *)

(** ** Strings: [split], [join], [trim] *)

Lemma split_nonempty sep s : split sep s <> [].
Proof.
  destruct s as [|c s]; simpl; [done|].
  destruct (N.eqb c sep); [done|]. by destruct (split sep s).
Qed.

Lemma join_cons sep p q rest :
  join sep (p :: q :: rest) = p ++ sep ++ join sep (q :: rest).
Proof. reflexivity. Qed.

(** Joining the pieces with the separator gives the string back. *)
Lemma join_split sep s : join [sep] (split sep s) = s.
Proof.
  induction s as [|c s IH]; simpl; [done|].
  destruct (N.eqb_spec c sep) as [->|Hne].
  - pose proof (split_nonempty sep s) as Hs.
    destruct (split sep s) as [|q rest] eqn:E; [done|].
    rewrite join_cons, IH. done.
  - pose proof (split_nonempty sep s) as Hs.
    destruct (split sep s) as [|q rest] eqn:E; [done|].
    destruct rest as [|q' rest]; [simpl in *; by rewrite IH|].
    rewrite join_cons, <- IH, join_cons. done.
Qed.

(** No piece contains the separator. *)
Lemma split_no_sep sep s : Forall (fun p => sep ∉ p) (split sep s).
Proof.
  induction s as [|c s IH]; simpl.
  - repeat constructor. apply not_elem_of_nil.
  - destruct (N.eqb_spec c sep) as [->|Hne].
    + constructor; [apply not_elem_of_nil | done].
    + destruct (split sep s) as [|q rest].
      * repeat constructor. apply not_elem_of_cons. split; [done | apply not_elem_of_nil].
      * inversion IH; subst. constructor; [|done].
        apply not_elem_of_cons. by split.
Qed.

Lemma split_piece sep p : sep ∉ p -> split sep p = [p].
Proof.
  induction p as [|c p IH]; intros Hp; simpl; [done|].
  apply not_elem_of_cons in Hp as [Hc Hp].
  destruct (N.eqb_spec c sep) as [->|Hne]; [done|].
  by rewrite IH.
Qed.

Lemma split_app sep p s :
  sep ∉ p -> split sep (p ++ sep :: s) = p :: split sep s.
Proof.
  induction p as [|c p IH]; intros Hp; simpl.
  - by rewrite N.eqb_refl.
  - apply not_elem_of_cons in Hp as [Hc Hp].
    destruct (N.eqb_spec c sep) as [->|Hne]; [done|].
    by rewrite IH.
Qed.

(** Splitting a joined list gives the list back when its pieces hold no
    separator (the empty list joins to the empty string, which splits into
    one empty piece). *)
Lemma split_join sep pieces :
  pieces <> [] -> Forall (fun p => sep ∉ p) pieces ->
  split sep (join [sep] pieces) = pieces.
Proof.
  induction pieces as [|p rest IH]; intros Hne Hall; [done|].
  inversion Hall as [|? ? Hp Hrest]; subst.
  destruct rest as [|q rest].
  - simpl. by apply split_piece.
  - rewrite join_cons. simpl. rewrite split_app by done.
    f_equal. by apply IH.
Qed.

Lemma trimStart_parts s :
  exists l, s = l ++ trimStart s /\ forallb is_ws l = true.
Proof.
  induction s as [|c s [l [Hl Hws]]]; simpl.
  - by exists [].
  - destruct (is_ws c) eqn:E.
    + exists (c :: l). simpl. rewrite E, Hws. split; [by f_equal | done].
    + by exists [].
Qed.

Lemma trimStart_head s c rest : trimStart s = c :: rest -> is_ws c = false.
Proof.
  induction s as [|x s IH]; simpl; [done|].
  destruct (is_ws x) eqn:E; [done|]. intros [= -> _]. done.
Qed.

Lemma forallb_rev {A} (f : A -> bool) l : forallb f (rev l) = forallb f l.
Proof.
  induction l as [|x l IH]; simpl; [done|].
  rewrite forallb_app, IH. simpl. rewrite andb_true_r. apply andb_comm.
Qed.

(** [trim] removes a run of white space at each end and nothing else. *)
Lemma trim_parts s :
  exists l r, s = l ++ trim s ++ r /\ forallb is_ws l = true /\ forallb is_ws r = true.
Proof.
  destruct (trimStart_parts s) as [l [Hl Hwl]].
  destruct (trimStart_parts (rev (trimStart s))) as [r [Hr Hwr]].
  exists l, (rev r). split; [|split; [done | by rewrite forallb_rev]].
  unfold trim, trimEnd. rewrite <- rev_app_distr, <- Hr, rev_involutive. done.
Qed.

Lemma trim_last s c front : trim s = front ++ [c] -> is_ws c = false.
Proof.
  unfold trim, trimEnd. intros H.
  apply (f_equal (@rev N)) in H. rewrite rev_involutive, rev_app_distr in H.
  simpl in H. by apply trimStart_head in H.
Qed.

Lemma trim_head s c rest : trim s = c :: rest -> is_ws c = false.
Proof.
  unfold trim, trimEnd. intros H.
  destruct (trimStart s) as [|x t] eqn:E; [done|].
  pose proof (trimStart_head _ _ _ E) as Hx.
  destruct (trimStart_parts (rev (x :: t))) as [l [Hl Hws]].
  rewrite <- (rev_involutive (trimStart (rev (x :: t)))) in Hl.
  rewrite H in Hl. apply (f_equal (@rev N)) in Hl.
  rewrite rev_involutive, rev_app_distr, rev_involutive in Hl.
  injection Hl as -> _. done.
Qed.

Lemma trim_trimmed s : trimmed (trim s).
Proof. split; intros c x H; [eapply trim_head | eapply trim_last]; eauto. Qed.

Lemma Boolean_true s : Boolean s = true <-> s <> [].
Proof. by destruct s. Qed.

Lemma tokens_spec input :
  Forall (fun t => t <> [] /\ trimmed t) (tokens input).
Proof.
  unfold tokens. apply List.Forall_forall. intros t Ht.
  apply List.filter_In in Ht as [Ht Hb].
  apply List.in_map_iff in Ht as [p [<- _]].
  split; [by apply Boolean_true | apply trim_trimmed].
Qed.

(** ** The script follows its plan *)

Section Plan.
Context (h : host).

Lemma replay_app evs1 evs2 d :
  replay h (evs1 ++ evs2) d = replay h evs2 (replay h evs1 d).
Proof. apply fold_left_app. Qed.

Lemma follows_app_r {A} (o : outcome A) p1 p2 new :
  follows p2 o new -> follows (p1 ++ p2) o (p1 ++ new).
Proof.
  destruct o as [x|e]; simpl.
  - by intros ->.
  - destruct e as [code q|command status|text|].
    + intros [post ->]. exists post. by rewrite app_assoc.
    + intros [Hs (pre & dir & post & -> & ->)]. split; [done|].
      exists (p1 ++ pre), dir, post. by rewrite !app_assoc.
    + intros (pre & q & post & -> & ->).
      exists (p1 ++ pre), q, post. by rewrite !app_assoc.
    + intros [post ->]. exists post. by rewrite app_assoc.
Qed.

Lemma follows_app_l {A B} (e : error) p1 p2 new :
  follows p1 (@Thrown A e) new -> follows (p1 ++ p2) (@Thrown B e) new.
Proof.
  destruct e as [code q|command status|text|]; simpl.
  - intros [post ->]. exists (post ++ p2). by rewrite app_assoc.
  - intros [Hs (pre & dir & post & -> & ->)]. split; [done|].
    exists pre, dir, (post ++ p2). by rewrite <- app_assoc.
  - intros (pre & q & post & -> & ->).
    exists pre, q, (post ++ p2). by rewrite <- !app_assoc.
  - intros [post ->]. exists (post ++ p2). by rewrite app_assoc.
Qed.

Lemma obeys_reading_ext {A} (m : M A) p q ok :
  (forall text, q text = p text) ->
  obeys_reading h m p ok -> obeys_reading h m q ok.
Proof.
  intros Hpq H w. destruct (H w) as (text & new & Hn).
  exists text, new. by rewrite Hpq.
Qed.

Lemma obeys_reading_bind_l {A B} (m : M A) (k : A -> M B) p1 p2 ok :
  obeys h m p1 -> (forall x, obeys_reading h (k x) p2 ok) ->
  obeys_reading h (bind m k) (fun text => p1 ++ p2 text) ok.
Proof.
  intros Hm Hk w. unfold bind.
  destruct (Hm w) as (new1 & He1 & Hf1 & Hfol1).
  destruct (m w) as [[x|e] w1]; simpl in *.
  - subst new1. destruct (Hk x w1) as (text & new2 & He2 & Hf2 & Hfol2 & Hok).
    exists text, (p1 ++ new2). rewrite He2, He1, Hf2, Hf1, replay_app, app_assoc.
    split; [done|]. split; [done|]. split; [by apply follows_app_r | done].
  - exists [], new1. split; [done|]. split; [done|].
    split; [by apply (follows_app_l (A:=A) (B:=B)) | done].
Qed.

Lemma obeys_reading_bind_r {A B} (m : M A) (k : A -> M B) p1 p2 ok :
  obeys_reading h m p1 ok -> (forall x, obeys h (k x) p2) ->
  obeys_reading h (bind m k) (fun text => p1 text ++ p2) ok.
Proof.
  intros Hm Hk w. unfold bind.
  destruct (Hm w) as (text & new1 & He1 & Hf1 & Hfol1 & Hok).
  destruct (m w) as [[x|e] w1]; simpl in *.
  - subst new1. destruct (Hk x w1) as (new2 & He2 & Hf2 & Hfol2).
    exists text, (p1 text ++ new2).
    rewrite He2, He1, Hf2, Hf1, replay_app, app_assoc.
    split; [done|]. split; [done|]. split; [by apply follows_app_r | by eauto].
  - exists text, new1. split; [done|]. split; [done|].
    split; [by apply (follows_app_l (A:=A) (B:=B)) | done].
Qed.

Lemma obeys_bind {A B} (m : M A) (k : A -> M B) p1 p2 :
  obeys h m p1 -> (forall x, obeys h (k x) p2) -> obeys h (bind m k) (p1 ++ p2).
Proof.
  intros Hm Hk w. unfold bind.
  destruct (Hm w) as (new1 & He1 & Hf1 & Hfol1).
  destruct (m w) as [[x|e] w1]; simpl in *.
  - subst new1. destruct (Hk x w1) as (new2 & He2 & Hf2 & Hfol2).
    exists (p1 ++ new2). rewrite He2, He1, Hf2, Hf1, replay_app, app_assoc.
    split; [done|]. split; [done|]. by apply follows_app_r.
  - exists new1. split; [done|]. split; [done|].
    by apply (follows_app_l (A:=A) (B:=B)).
Qed.

Lemma obeys_ret {A} (x : A) : obeys h (ret x) [].
Proof. intros w. exists []. simpl. by rewrite app_nil_r. Qed.

(** A step that throws a file-system error or a [TypeError] without having
    done anything fits every plan. *)
Lemma obeys_throw {A} (e : error) p : plain e -> obeys h (@throw A e) p.
Proof.
  intros He w. exists []. simpl. rewrite app_nil_r.
  split; [done|]. split; [done|].
  destruct e; try done; by exists p.
Qed.

Lemma obeys_ret_bind {A B} (x : A) (k : A -> M B) p :
  obeys h (k x) p -> obeys h (bind (ret x) k) p.
Proof. intros H w. apply H. Qed.

Lemma obeys_throw_bind {A B} (e : error) (k : A -> M B) p :
  plain e -> obeys h (bind (throw e) k) p.
Proof. intros He w. apply (obeys_throw (A:=B) e p He w). Qed.

Lemma obeys_when b (m : M unit) p :
  obeys h m p -> obeys h (when b m) (on b p).
Proof. destruct b; simpl; [done|]. intros _. apply obeys_ret. Qed.

Lemma obeys_emit ev :
  match ev with ELog _ => True | _ => False end -> obeys h (emit ev) [ev].
Proof. destruct ev; try done. intros _ w. by exists [ELog line]. Qed.

Lemma obeys_console_log line : obeys h (console_log line) [ELog line].
Proof. by apply obeys_emit. Qed.

Lemma obeys_mkdirSync p : obeys h (mkdirSync h p) [EMkdir p].
Proof.
  intros w. unfold mkdirSync.
  destruct (walk (files w) [] p) as [code|].
  { exists []. simpl. rewrite app_nil_r. by eauto. }
  destruct (files w !! p) as [n|].
  { exists []. simpl. rewrite app_nil_r. by eauto. }
  destruct (refuses h Mkdir p (files w)) as [code|].
  { exists []. simpl. rewrite app_nil_r. by eauto. }
  by exists [EMkdir p].
Qed.

Lemma obeys_writeFileSync p content :
  obeys h (writeFileSync h p content) [EWrite p content].
Proof.
  intros w. unfold writeFileSync.
  destruct (walk (files w) [] p) as [code|].
  { exists []. simpl. rewrite app_nil_r. by eauto. }
  destruct (files w !! p) as [[|old]|].
  { exists []. simpl. rewrite app_nil_r. by eauto. }
  all: destruct (refuses h WriteFile p (files w)) as [code|];
    [exists []; simpl; rewrite app_nil_r; by eauto | by exists [EWrite p content]].
Qed.

Lemma obeys_execSync command dir :
  obeys h (execSync h command dir) [EExec command dir 0].
Proof.
  intros w. unfold execSync.
  destruct (spawn h command dir (files w)) as [d status] eqn:E.
  exists [EExec command dir status].
  destruct (Z.eqb_spec status 0) as [->|Hne]; simpl; rewrite E; simpl.
  - done.
  - split; [done|]. split; [done|]. split; [done|]. by exists [], dir, [].
Qed.

Lemma obeys_forEach {A} (l : list A) (f : A -> M unit) (ev : A -> event) :
  (forall x, obeys h (f x) [ev x]) -> obeys h (forEach l f) (List.map ev l).
Proof.
  intros Hf. induction l as [|x l IH]; simpl.
  - apply obeys_ret.
  - apply (obeys_bind _ _ [ev x]); [apply Hf | done].
Qed.

Lemma obeys_scaffold a : obeys h (scaffold h a) (scaffold_plan h a).
Proof.
  unfold scaffold, scaffold_plan.
  apply obeys_bind; [apply obeys_mkdirSync | intros _].
  apply obeys_bind; [|intros _].
  { apply (obeys_forEach folders _ (fun folder => EMkdir _)).
    intros folder. apply obeys_mkdirSync. }
  apply obeys_bind; [apply obeys_when, obeys_mkdirSync | intros _].
  apply obeys_writeFileSync.
Qed.

Lemma obeys_write_env a : obeys h (write_env h a) (write_env_plan h a).
Proof.
  unfold write_env, write_env_plan. apply obeys_when.
  destruct (envVars a) as [s|].
  - apply obeys_ret_bind.
    apply (obeys_bind _ _ [_] [_]); [apply obeys_writeFileSync | intros _].
    apply obeys_console_log.
  - apply obeys_throw_bind. done.
Qed.

Lemma obeys_write_templates a :
  obeys h (write_templates h a) (write_templates_plan h a).
Proof.
  unfold write_templates, write_templates_plan.
  apply obeys_bind; [apply obeys_when, obeys_writeFileSync | intros _].
  apply obeys_writeFileSync.
Qed.

Lemma obeys_install a : obeys h (install h a) (install_plan h a).
Proof.
  unfold install, install_plan.
  apply obeys_bind; [apply obeys_execSync | intros _].
  apply obeys_bind; [apply obeys_when, obeys_execSync | intros _].
  apply obeys_when, obeys_execSync.
Qed.

Lemma obeys_write_tsconfig a :
  obeys h (write_tsconfig h a) (write_tsconfig_plan h a).
Proof. apply obeys_when, obeys_writeFileSync. Qed.

Lemma obeys_setup_lint a : obeys h (setup_lint h a) (setup_lint_plan h a).
Proof.
  unfold setup_lint, setup_lint_plan. apply obeys_when.
  apply (obeys_bind _ _ [_]); [apply obeys_execSync | intros _].
  apply (obeys_bind _ _ [_]); [apply obeys_writeFileSync | intros _].
  apply obeys_writeFileSync.
Qed.

Lemma obeys_init_git a : obeys h (init_git h a) (init_git_plan h a).
Proof.
  unfold init_git, init_git_plan.
  apply obeys_bind; [|intros _; apply obeys_console_log].
  apply obeys_when.
  apply (obeys_bind _ _ [_]); [apply obeys_execSync | intros _].
  apply (obeys_bind _ _ [_]); [apply obeys_execSync | intros _].
  apply (obeys_bind _ _ [_]); [apply obeys_execSync | intros _].
  apply obeys_console_log.
Qed.

Lemma obeys_print_hints a : obeys h (print_hints a) (print_hints_plan a).
Proof.
  unfold print_hints, print_hints_plan.
  apply obeys_bind; [apply obeys_console_log | intros _].
  apply (obeys_forEach _ _ ELog). intros line. apply obeys_console_log.
Qed.

Lemma set_start_script_throws a v e :
  set_start_script a v = Thrown e -> e = TypeError.
Proof. destruct v; simpl; congruence. Qed.

Lemma obeys_add_start_script a :
  obeys_reading h (add_start_script h a) (add_start_script_plan h a)
                (fun text => is_Some (patched h a text)).
Proof.
  intros w. unfold add_start_script, add_start_script_plan, bind, readFileSync.
  destruct (walk (files w) [] (packageJsonPath h a)) as [code|].
  { exists [], []. simpl. rewrite app_nil_r.
    split; [done|]. split; [done|]. split; [by eexists | done]. }
  destruct (files w !! packageJsonPath h a) as [[|text]|].
  1, 3: exists [], []; simpl; rewrite app_nil_r;
    (split; [done|]); (split; [done|]); (split; [by eexists | done]).
  destruct (refuses h ReadFile (packageJsonPath h a) (files w)) as [code|].
  { exists [], []. simpl. rewrite app_nil_r.
    split; [done|]. split; [done|]. split; [by eexists | done]. }
  exists text. unfold patched, try. simpl.
  destruct (parse h text) as [v|e] eqn:Ep.
  2: { exists [ERead (packageJsonPath h a) text]. simpl.
       unfold parse in Ep. destruct (JSON_parse h text); [done|].
       injection Ep as <-. split; [done|]. split; [done|].
       split; [by exists [], (packageJsonPath h a), [] | done]. }
  destruct (set_start_script a v) as [v'|e] eqn:Es.
  2: { exists [ERead (packageJsonPath h a) text]. simpl.
       apply set_start_script_throws in Es as ->.
       split; [done|]. split; [done|]. split; [by exists [] | done]. }
  destruct (obeys_writeFileSync (packageJsonPath h a) (JSON_stringify h v')
              (World (files w) (events w ++ [ERead (packageJsonPath h a) text])))
    as (new & He & Hf & Hfol).
  exists (ERead (packageJsonPath h a) text :: new).
  destruct (writeFileSync _ _ _ _) as [o w']. simpl in *.
  rewrite He, Hf. rewrite <- app_assoc. split; [done|]. split; [done|].
  split; [apply (follows_app_r o [_] [_]); done | by eauto].
Qed.

Lemma after_env_obeys a :
  obeys_reading h
    (write_templates h a ;; install h a ;; write_tsconfig h a ;; setup_lint h a ;;
     init_git h a ;; add_start_script h a ;; print_hints a)
    (fun text =>
       write_templates_plan h a ++ install_plan h a ++ write_tsconfig_plan h a
       ++ setup_lint_plan h a ++ init_git_plan h a
       ++ add_start_script_plan h a text ++ print_hints_plan a)
    (fun text => is_Some (patched h a text)).
Proof.
  apply obeys_reading_bind_l; [apply obeys_write_templates | intros _].
  apply obeys_reading_bind_l; [apply obeys_install | intros _].
  apply obeys_reading_bind_l; [apply obeys_write_tsconfig | intros _].
  apply obeys_reading_bind_l; [apply obeys_setup_lint | intros _].
  apply obeys_reading_bind_l; [apply obeys_init_git | intros _].
  apply obeys_reading_bind_r; [apply obeys_add_start_script | intros _].
  apply obeys_print_hints.
Qed.

Lemma after_scaffold_obeys a :
  obeys_reading h
    (write_env h a ;; write_templates h a ;; install h a ;; write_tsconfig h a ;;
     setup_lint h a ;; init_git h a ;; add_start_script h a ;; print_hints a)
    (fun text =>
       write_env_plan h a ++ write_templates_plan h a ++ install_plan h a
       ++ write_tsconfig_plan h a ++ setup_lint_plan h a ++ init_git_plan h a
       ++ add_start_script_plan h a text ++ print_hints_plan a)
    (fun text => is_Some (patched h a text)).
Proof.
  apply obeys_reading_bind_l; [apply obeys_write_env | intros _].
  apply after_env_obeys.
Qed.

(** Every run follows the plan of its answers, for the manifest text it
    reads back. *)
Lemma run_obeys a :
  obeys_reading h (run h a) (plan h a) (fun text => is_Some (patched h a text)).
Proof.
  apply (obeys_reading_ext _
           (fun text =>
              scaffold_plan h a ++ write_env_plan h a ++ write_templates_plan h a
              ++ install_plan h a ++ write_tsconfig_plan h a ++ setup_lint_plan h a
              ++ init_git_plan h a ++ add_start_script_plan h a text
              ++ print_hints_plan a)).
  { intros text. unfold plan, plan_before. by rewrite <- !app_assoc. }
  unfold run.
  apply obeys_reading_bind_l; [apply obeys_scaffold | intros _].
  apply after_scaffold_obeys.
Qed.

End Plan.

(** ** Runs and plans *)

Section Runs.
Context (h : host) (a : answers).

Lemma run_events w : events (snd (run h a w)) = events w ++ performed h a w.
Proof.
  destruct (run_obeys h a w) as (text & new & He & _).
  unfold performed. by rewrite He, drop_app_length.
Qed.

Lemma run_follows w :
  exists text,
    follows (plan h a text) (fst (run h a w)) (performed h a w) /\
    files (snd (run h a w)) = replay h (performed h a w) (files w) /\
    (forall x, fst (run h a w) = Returned x -> is_Some (patched h a text)).
Proof.
  destruct (run_obeys h a w) as (text & new & He & Hf & Hfol & Hok).
  exists text. unfold performed. by rewrite He, drop_app_length.
Qed.

(** In every plan the commands have status 0. *)
Lemma plan_quiet text : Forall quiet (plan h a text).
Proof.
  unfold plan, plan_before, scaffold_plan, write_env_plan, write_templates_plan,
    install_plan, write_tsconfig_plan, setup_lint_plan, init_git_plan,
    add_start_script_plan, print_hints_plan, on.
  repeat (apply Forall_app; split);
    repeat case_match; repeat constructor;
    apply List.Forall_forall; intros ev [x [<- _]]%List.in_map_iff; exact I.
Qed.

(** The commands of a plan are commands of the script, started in the
    project directory. *)
Lemma plan_commands text :
  Forall (fun ev =>
            match ev with
            | EExec command dir _ => command ∈ commands a /\ dir = projectPath h a
            | _ => True
            end) (plan h a text).
Proof.
  unfold plan, plan_before, scaffold_plan, write_env_plan, write_templates_plan,
    install_plan, write_tsconfig_plan, setup_lint_plan, init_git_plan,
    add_start_script_plan, print_hints_plan, on, commands.
  repeat (apply Forall_app; split);
    repeat case_match;
    repeat first
      [ apply Forall_nil_2
      | apply Forall_cons_2;
        [first [exact I | split; [by repeat constructor | reflexivity]]|] ].
  all: apply List.Forall_forall; intros ev [x [<- _]]%List.in_map_iff; exact I.
Qed.

(** The events of a run are a prefix of its plan, followed by the failed
    command when a command ended the run. *)
Lemma performed_shape w :
  exists text done rest tail,
    plan h a text = done ++ rest /\
    performed h a w = done ++ tail /\
    (tail = [] \/
     exists command dir status rest',
       status <> 0%Z /\ tail = [EExec command dir status] /\
       rest = EExec command dir 0 :: rest' /\
       fst (run h a w) = Thrown (ExecError command status)) /\
    (forall x, fst (run h a w) = Returned x -> rest = [] /\ tail = []).
Proof.
  destruct (run_follows w) as (text & Hfol & _ & _).
  exists text. destruct (fst (run h a w)) as [x|e]; simpl in Hfol.
  - exists (performed h a w), [], []. rewrite Hfol, !app_nil_r.
    split; [done|]. split; [done|]. split; [by left | done].
  - destruct e as [code q|command status|t|].
    + destruct Hfol as [post Hp]. exists (performed h a w), post, [].
      rewrite app_nil_r. split; [done|]. split; [done|]. split; [by left | done].
    + destruct Hfol as [Hs (pre & dir & post & Hp & Hn)].
      exists pre, (EExec command dir 0 :: post), [EExec command dir status].
      split; [done|]. split; [done|]. split; [|done].
      right. by exists command, dir, status, post.
    + destruct Hfol as (pre & q & post & Hn & Hp).
      exists (performed h a w), post, []. rewrite app_nil_r.
      split; [done|]. split; [done|]. split; [by left | done].
    + destruct Hfol as [post Hp]. exists (performed h a w), post, [].
      rewrite app_nil_r. split; [done|]. split; [done|]. split; [by left | done].
Qed.

End Runs.

(** ** Lists of events *)

Lemma last_occurrence {A} (l1 l2 l3 : list A) (x y : A) :
  l1 ++ x :: l2 = l3 ++ [y] -> x ∉ l3 -> l1 = l3 /\ x = y /\ l2 = [].
Proof.
  intros H Hx. destruct l2 as [|z l2 _] using rev_ind.
  - apply app_inj_tail in H as [-> ->]. done.
  - rewrite app_comm_cons, app_assoc in H.
    apply app_inj_tail in H as [<- _]. exfalso. apply Hx.
    apply elem_of_app. right. apply elem_of_cons. by left.
Qed.

(** An element with a property that occurs once in a list sits at one
    place. *)
Lemma unique_split {A} (P : A -> Prop) (l1 l2 l1' l2' : list A) (x x' : A) :
  l1 ++ x :: l2 = l1' ++ x' :: l2' ->
  P x -> Forall (fun y => ~ P y) l1' -> Forall (fun y => ~ P y) l2' ->
  l1 = l1' /\ x = x' /\ l2 = l2'.
Proof.
  revert l1'. induction l1 as [|y l1 IH]; intros l1' H Hx H1 H2.
  - destruct l1' as [|y' l1']; simpl in H.
    + by injection H as -> ->.
    + injection H as -> H. by inversion H1.
  - destruct l1' as [|y' l1']; simpl in H.
    + injection H as -> H.
      assert (x ∈ l2') as Hin.
      { rewrite <- H. apply elem_of_app. right. apply elem_of_cons. by left. }
      by apply (proj1 (Forall_forall _ _) H2) in Hin.
    + injection H as -> H. inversion H1; subst.
      destruct (IH l1' H Hx) as (-> & -> & ->); done.
Qed.

(** ** Failing commands *)

Lemma replay_snoc h evs ev d :
  replay h (evs ++ [ev]) d = apply_event h (replay h evs d) ev.
Proof. by rewrite replay_app. Qed.

(** C9.  A command that exits with another status than 0 (it is one of
    [npm init], the [npm install]s, [git init], [git add] and [git commit],
    started in the project directory) is the last thing the run does: no
    event follows it, so the rest of the plan (every later file write and
    command) is skipped; the run ends with the exception that names the
    command and its status, and the process with a status other than 0.
    Nothing is undone: the disk is the disk the events before the command
    produced, as the failed command left it. *)
Theorem failed_command_aborts h a w pre command dir status post :
  performed h a w = pre ++ EExec command dir status :: post ->
  status <> 0%Z ->
  post = [] /\
  fst (run h a w) = Thrown (ExecError command status) /\
  exit_status (fst (run h a w)) <> 0%Z /\
  (command ∈ commands a /\ dir = projectPath h a) /\
  (exists text rest, plan h a text = pre ++ EExec command dir 0 :: rest) /\
  events (snd (run h a w)) = events w ++ pre ++ [EExec command dir status] /\
  files (snd (run h a w)) = fst (spawn h command dir (replay h pre (files w))).
Proof.
  intros Hperf Hstatus.
  destruct (performed_shape h a w) as (text & done & rest & tail & Hplan & Hdone & Htail & _).
  assert (Forall quiet done) as Hquiet.
  { pose proof (plan_quiet h a text) as Hq. rewrite Hplan in Hq.
    by apply Forall_app in Hq as [Hq _]. }
  assert (EExec command dir status ∉ done) as Hnot.
  { intros Hin. by apply (proj1 (Forall_forall _ _) Hquiet) in Hin. }
  destruct Htail as [->|(c & d & st & rest' & Hst & -> & -> & Hout)].
  { exfalso. apply Hnot. rewrite app_nil_r in Hdone. rewrite <- Hdone, Hperf.
    apply elem_of_app. right. apply elem_of_cons. by left. }
  rewrite Hperf in Hdone.
  apply last_occurrence in Hdone as (-> & [= -> -> ->] & ->); [|done].
  split; [done|]. split; [done|]. split; [by rewrite Hout|].
  split.
  { pose proof (plan_commands h a text) as Hc. rewrite Hplan in Hc.
    apply Forall_app in Hc as [_ Hc]. by inversion Hc. }
  split; [by exists text, rest'|].
  split; [by rewrite run_events, Hperf|].
  destruct (run_follows h a w) as (_ & _ & Hfiles & _).
  by rewrite Hfiles, Hperf, replay_snoc.
Qed.

Lemma failed_command_aborts_witness :
  (performed Demo.offline_machine Demo.demo Demo.fresh
   = take 8 (performed Demo.offline_machine Demo.demo Demo.fresh)
     ++ EExec (npm_install (deps Demo.demo))
              (projectPath Demo.offline_machine Demo.demo) 1 :: [] /\ 1 <> 0)%Z /\
  fst (run Demo.offline_machine Demo.demo Demo.fresh)
  = Thrown (ExecError (npm_install (deps Demo.demo)) 1).
Proof.
  assert (performed Demo.offline_machine Demo.demo Demo.fresh
          = take 8 (performed Demo.offline_machine Demo.demo Demo.fresh)
            ++ EExec (npm_install (deps Demo.demo))
                     (projectPath Demo.offline_machine Demo.demo) 1 :: [])
    as H by (vm_compute; reflexivity).
  assert (1 <> 0)%Z as H1 by lia.
  split; [by split|].
  exact (proj1 (proj2 (failed_command_aborts _ _ _ _ _ _ _ _ H H1))).
Defined.

(** ** Paths inside the project *)

Lemma path_join_name base seg :
  simple_segment seg = true -> path_join base seg = base ++ [seg].
Proof.
  unfold simple_segment. rewrite !andb_true_iff, !negb_true_iff.
  intros [[[Hslash Hempty] Hdot] Hdots].
  apply bool_decide_eq_false in Hslash.
  unfold path_join, enter. rewrite (split_piece _ _ Hslash). simpl.
  by rewrite Hempty, Hdot, Hdots.
Qed.

Lemma path_join_nested base s1 s2 :
  SLASH ∉ s1 ->
  path_join base (s1 ++ SLASH :: s2) = path_join (path_join base s1) s2.
Proof.
  intros H. unfold path_join. by rewrite split_app, (split_piece _ _ H).
Qed.

Lemma inProject_name h a name :
  simple_segment (js name) = true ->
  inProject h a name = projectPath h a ++ [js name].
Proof. apply path_join_name. Qed.

Lemma entry_path h a :
  path_join (projectPath h a) (serverPath a)
  = projectPath h a ++ (if isTS a then [js "src"; js "index.ts"] else [js "server.js"]).
Proof.
  unfold serverPath. destruct (isTS a).
  - change (js "src/index.ts") with (js "src" ++ SLASH :: js "index.ts").
    rewrite path_join_nested.
    + rewrite (path_join_name _ (js "src")) by reflexivity.
      rewrite (path_join_name _ (js "index.ts")) by reflexivity.
      by rewrite <- app_assoc.
    + by apply (bool_decide_eq_false_1 (SLASH ∈ js "src")).
  - by apply path_join_name.
Qed.

(** Two places below the same directory differ when their relative
    segments differ. *)
Ltac apart :=
  let H := fresh in
  intros H; apply app_inv_head in H; vm_compute in H; discriminate H.

(** The paths the script writes to, relative to the project. *)
Ltac project_paths :=
  unfold packageJsonPath in *;
  rewrite ?entry_path, ?(inProject_name _ _ "package.json"),
    ?(inProject_name _ _ ".env"), ?(inProject_name _ _ "Dockerfile"),
    ?(inProject_name _ _ ".gitignore"), ?(inProject_name _ _ "tsconfig.json"),
    ?(inProject_name _ _ ".eslintrc.json"), ?(inProject_name _ _ ".prettierrc"),
    ?(inProject_name _ _ "src") in * by reflexivity.

Section PlanFacts.
Context (h : host) (a : answers).

Lemma plan_before_spares_manifest :
  Forall (fun ev => ~ is_write_to (packageJsonPath h a) ev) (plan_before h a).
Proof.
  unfold plan_before, scaffold_plan, write_env_plan, write_templates_plan,
    install_plan, write_tsconfig_plan, setup_lint_plan, init_git_plan, on.
  project_paths.
  repeat (apply Forall_app; split);
    repeat case_match; repeat constructor; simpl; try tauto; apart.
Qed.

Lemma plan_before_reads_nothing :
  Forall (fun ev => ~ is_read ev) (plan_before h a).
Proof.
  unfold plan_before, scaffold_plan, write_env_plan, write_templates_plan,
    install_plan, write_tsconfig_plan, setup_lint_plan, init_git_plan, on.
  repeat (apply Forall_app; split);
    repeat case_match; repeat constructor; simpl; tauto.
Qed.

Lemma hints_only_log (P : event -> Prop) :
  (forall line, ~ P (ELog line)) -> Forall (fun ev => ~ P ev) (print_hints_plan a).
Proof.
  intros HP. unfold print_hints_plan. apply Forall_app. split.
  - repeat constructor. apply HP.
  - apply List.Forall_forall. intros ev [x [<- _]]%List.in_map_iff. apply HP.
Qed.

Lemma plan_unfold text :
  plan h a text
  = plan_before h a ++ ERead (packageJsonPath h a) text
      :: match patched h a text with
         | Some text' => EWrite (packageJsonPath h a) text' :: print_hints_plan a
         | None => print_hints_plan a
         end.
Proof.
  unfold plan, add_start_script_plan. by destruct (patched h a text).
Qed.

End PlanFacts.

(** ** The order of the initial commit and the start script *)

Lemma before_tail {A} (pre post done tail : list A) (x : A) :
  pre ++ x :: post = done ++ tail ->
  (tail = [] \/ exists y, tail = [y] /\ y <> x) ->
  exists post1, done = pre ++ x :: post1 /\ post = post1 ++ tail.
Proof.
  intros H [->|(y & -> & Hy)].
  - exists post. by rewrite !app_nil_r in *.
  - destruct post as [|z post _] using rev_ind.
    + apply app_inj_tail in H as [_ ->]. done.
    + rewrite app_comm_cons, app_assoc in H.
      apply app_inj_tail in H as [<- ->]. by exists post.
Qed.

Section Manifest.
Context (h : host) (a : answers) (w : world).

(** Where the manifest is written, the run has done all of the plan before
    the manifest is read, then read it, and writes the patched text. *)
Lemma manifest_write_place pre text' post :
  performed h a w = pre ++ EWrite (packageJsonPath h a) text' :: post ->
  exists text,
    pre = plan_before h a ++ [ERead (packageJsonPath h a) text] /\
    patched h a text = Some text'.
Proof.
  intros Hperf.
  destruct (performed_shape h a w)
    as (text & done & rest & tail & Hplan & Hdone & Htail & _).
  rewrite Hperf in Hdone.
  apply before_tail in Hdone as (post1 & -> & _).
  2: { destruct Htail as [->|(c & d & st & r & _ & -> & _)]; [by left|].
       right. by eexists. }
  exists text. rewrite plan_unfold in Hplan.
  destruct (patched h a text) as [t|].
  - assert (pre ++ EWrite (packageJsonPath h a) text' :: post1 ++ rest
            = (plan_before h a ++ [ERead (packageJsonPath h a) text])
              ++ EWrite (packageJsonPath h a) t :: print_hints_plan a) as Heq.
    { rewrite <- (app_assoc (plan_before h a)).
      etrans; [|exact (eq_sym Hplan)]. by rewrite <- app_assoc. }
    apply (unique_split (is_write_to (packageJsonPath h a))) in Heq
      as (-> & [= ->] & _); [done|done| |].
    + apply Forall_app. split; [apply plan_before_spares_manifest|].
      repeat constructor. unfold is_write_to. tauto.
    + apply hints_only_log. unfold is_write_to. tauto.
  - exfalso.
    assert (Forall (fun ev => ~ is_write_to (packageJsonPath h a) ev)
                   (plan_before h a ++ ERead (packageJsonPath h a) text
                      :: print_hints_plan a)) as Hno.
    { apply Forall_app. split; [apply plan_before_spares_manifest|].
      constructor; [unfold is_write_to; tauto|].
      apply hints_only_log. unfold is_write_to. tauto. }
    rewrite Hplan, <- app_assoc in Hno.
    apply Forall_app in Hno as [_ Hno]. inversion Hno as [|? ? Hw _]; subst.
    by apply Hw.
Qed.

(** A run that returns has written the manifest. *)
Lemma returned_run_performed x :
  fst (run h a w) = Returned x ->
  exists text text',
    patched h a text = Some text' /\
    performed h a w
    = plan_before h a ++ ERead (packageJsonPath h a) text
        :: EWrite (packageJsonPath h a) text' :: print_hints_plan a.
Proof.
  intros Hret. destruct (run_follows h a w) as (text & Hfol & _ & Hok).
  destruct (Hok x Hret) as [text' Hp].
  exists text, text'. split; [done|].
  rewrite Hret in Hfol. simpl in Hfol. by rewrite Hfol, plan_unfold, Hp.
Qed.

(** A run that ends on a manifest text that does not parse has done all of
    the plan before the manifest is read, and has read that text. *)
Lemma syntax_error_performed text :
  fst (run h a w) = Thrown (SyntaxError text) ->
  performed h a w = plan_before h a ++ [ERead (packageJsonPath h a) text].
Proof.
  intros Hout. destruct (run_follows h a w) as (text0 & Hfol & _).
  rewrite Hout in Hfol. destruct Hfol as (pre & p & post & Hperf & Hplan).
  rewrite Hperf. rewrite Hperf, plan_unfold in Hplan.
  assert (pre ++ ERead p text :: post
          = plan_before h a ++ ERead (packageJsonPath h a) text0
              :: match patched h a text0 with
                 | Some text' => EWrite (packageJsonPath h a) text' :: print_hints_plan a
                 | None => print_hints_plan a
                 end) as Heq.
  { etrans; [|exact (eq_sym Hplan)]. by rewrite <- app_assoc. }
  apply (unique_split is_read) in Heq as (-> & [= -> ->] & _); [done|done| |].
  - apply plan_before_reads_nothing.
  - destruct (patched h a text0).
    + constructor; [unfold is_read; tauto|]. apply hints_only_log. unfold is_read. tauto.
    + apply hints_only_log. unfold is_read. tauto.
Qed.

End Manifest.


(** ** The start script in the manifest *)

Lemma get_set_prop k v props : get_prop k (set_prop k v props) = Some v.
Proof.
  induction props as [|[k' v'] rest IH]; simpl.
  - by rewrite bool_decide_eq_true_2.
  - case_bool_decide; simpl.
    + by rewrite bool_decide_eq_true_2.
    + by rewrite bool_decide_eq_false_2.
Qed.





(** C10, as the script has it.  With [initGit] confirmed: wherever
    [package.json] is written, the three git commands have run before, none
    of the events before them is a write to [package.json], the message that
    reports the project as created was printed before the manifest was read,
    and the text written is the printed patch of the text read, with the
    start script of the language in it when the manifest is an object; a run
    in which no step fails does write the manifest; a run that ends on a
    manifest that does not parse has run the git commands and printed the
    message.  So the commit holds the manifest as the commands left it,
    without the patch of the script; whether that manifest has a start
    script already is up to [npm init -y]. *)
Theorem commit_precedes_start_script h a w :
  initGit a = true ->
  (forall pre text' post,
     performed h a w = pre ++ EWrite (packageJsonPath h a) text' :: post ->
     exists before text,
       pre = before
             ++ [EExec git_init (projectPath h a) 0;
                 EExec git_add (projectPath h a) 0;
                 EExec git_commit (projectPath h a) 0;
                 ELog git_message;
                 ELog (created_message a);
                 ERead (packageJsonPath h a) text] /\
       Forall (fun ev => ~ is_write_to (packageJsonPath h a) ev) before /\
       patched h a text = Some text' /\
       exists v v',
         JSON_parse h text = Some v /\
         set_start_script a v = Returned v' /\
         text' = JSON_stringify h v' /\
         (forall props,
            v = JObj props ->
            exists props' scripts',
              v' = JObj props' /\
              get_prop (js "scripts") props' = Some (JObj scripts') /\
              get_prop (js "start") scripts' = Some (JStr (startScript a)))) /\
  (fst (run h a w) = Returned tt ->
   exists pre text' post,
     performed h a w = pre ++ EWrite (packageJsonPath h a) text' :: post) /\
  (forall text,
     fst (run h a w) = Thrown (SyntaxError text) ->
     exists before,
       performed h a w
       = before
         ++ [EExec git_init (projectPath h a) 0;
             EExec git_add (projectPath h a) 0;
             EExec git_commit (projectPath h a) 0;
             ELog git_message;
             ELog (created_message a);
             ERead (packageJsonPath h a) text]) /\
  (git_init = js "git init" /\ git_add = js "git add ." /\
   git_commit = js "git commit -m " ++ [DQUOTE] ++ js "Initial commit" ++ [DQUOTE]).
Proof.
  intros Hgit.
  set (before := scaffold_plan h a ++ write_env_plan h a
                 ++ write_templates_plan h a ++ install_plan h a
                 ++ write_tsconfig_plan h a ++ setup_lint_plan h a).
  assert (forall text,
            plan_before h a ++ [ERead (packageJsonPath h a) text]
            = before
              ++ [EExec git_init (projectPath h a) 0;
                  EExec git_add (projectPath h a) 0;
                  EExec git_commit (projectPath h a) 0;
                  ELog git_message;
                  ELog (created_message a);
                  ERead (packageJsonPath h a) text]) as Hbefore.
  { intros text. unfold before, plan_before, init_git_plan, on.
    rewrite Hgit, <- !app_assoc. reflexivity. }
  assert (Forall (fun ev => ~ is_write_to (packageJsonPath h a) ev) before) as Hspare.
  { pose proof (plan_before_spares_manifest h a) as H.
    unfold plan_before in H. rewrite !app_assoc in H.
    apply Forall_app in H as [H _]. unfold before. by rewrite !app_assoc. }
  split; [|split; [|split]].
  - intros pre text' post Hperf.
    destruct (manifest_write_place h a w _ _ _ Hperf) as (text & -> & Hp).
    exists before, text. rewrite Hbefore.
    split; [done|]. split; [done|]. split; [done|].
    unfold patched, parse in Hp.
    destruct (JSON_parse h text) as [v|] eqn:Ep; [|done].
    destruct (set_start_script a v) as [v'|] eqn:Ev; [|done].
    injection Hp as <-. exists v, v'.
    split; [done|]. split; [done|]. split; [done|].
    intros props ->. simpl in Ev. injection Ev as <-.
    eexists _, _. split; [reflexivity|]. split; apply get_set_prop.
  - intros Hret.
    destruct (returned_run_performed h a w tt Hret) as (text & text' & _ & Hperf).
    exists (plan_before h a ++ [ERead (packageJsonPath h a) text]), text',
      (print_hints_plan a).
    by rewrite Hperf, <- app_assoc.
  - intros text Hout. exists before.
    by rewrite (syntax_error_performed h a w text Hout), Hbefore.
  - done.
Qed.

Lemma commit_precedes_start_script_witness :
  initGit Demo.full = true /\
  exists pre text' post,
    performed Demo.machine Demo.full Demo.fresh
    = pre ++ EWrite (packageJsonPath Demo.machine Demo.full) text' :: post.
Proof.
  assert (initGit Demo.full = true) as H by reflexivity.
  split; [exact H|].
  apply (proj1 (proj2 (commit_precedes_start_script
                         Demo.machine Demo.full Demo.fresh H))).
  vm_compute. reflexivity.
Defined.

(** C10 as stated fails on the manifest the commit holds: [npm init -y]
    itself gives the manifest the start script [node server.js] when the
    directory holds a [server.js], as it does for JavaScript, so the manifest
    on the disk when [git add .] and [git commit] start has a start script,
    before the script has patched anything. *)
Lemma committed_manifest_has_start :
  initGit Demo.with_git = true /\
  fst (run Demo.machine Demo.with_git Demo.fresh) = Returned tt /\
  performed Demo.machine Demo.with_git Demo.fresh
  = take 10 (performed Demo.machine Demo.with_git Demo.fresh)
    ++ EExec git_add (projectPath Demo.machine Demo.with_git) 0
    :: EExec git_commit (projectPath Demo.machine Demo.with_git) 0
    :: drop 12 (performed Demo.machine Demo.with_git Demo.fresh) /\
  (packageJsonPath Demo.machine Demo.with_git
     ∉ created (take 12 (performed Demo.machine Demo.with_git Demo.fresh))) /\
  Demo.start_script_of
    (replay Demo.machine (take 10 (performed Demo.machine Demo.with_git Demo.fresh))
            (files Demo.fresh))
    (packageJsonPath Demo.machine Demo.with_git)
  = Some (JStr (js "node server.js")) /\
  Demo.start_script_of
    (replay Demo.machine (take 11 (performed Demo.machine Demo.with_git Demo.fresh))
            (files Demo.fresh))
    (packageJsonPath Demo.machine Demo.with_git)
  = Some (JStr (js "node server.js")).
Proof.
  split; [reflexivity|]. split; [by vm_compute|]. split; [by vm_compute|].
  split; [|split; by vm_compute].
  apply (bool_decide_unpack _). vm_compute. exact I.
Qed.

(** ** The disk *)

Lemma sound_parent d (p : path) seg :
  sound_disk d -> is_Some (d !! (p ++ [seg])) -> d !! p = Some DirNode.
Proof.
  intros [_ H] [n Hn]. apply H in Hn. simpl in Hn.
  by rewrite removelast_last in Hn.
Qed.

Lemma sound_prefix d (q r : path) :
  sound_disk d -> is_Some (d !! (q ++ r)) -> r <> [] -> d !! q = Some DirNode.
Proof.
  intros Hd. induction r as [|seg r IH] using rev_ind; [done|].
  intros Hn _. rewrite app_assoc in Hn. apply sound_parent in Hn; [|done].
  destruct r as [|x r]; [by rewrite app_nil_r in Hn|].
  apply IH; [by rewrite Hn | done].
Qed.

Lemma sound_reachable d (p : path) :
  sound_disk d -> is_Some (d !! p) -> reachable d p.
Proof. intros Hd Hp q r -> _ Hr. by apply (sound_prefix d q r). Qed.

Lemma sound_reachable_parent d (p : path) :
  sound_disk d -> d !! removelast p = Some DirNode -> reachable d p.
Proof.
  intros Hd Hp q r -> Hq Hr.
  destruct r as [|seg r _] using rev_ind; [done|].
  rewrite app_assoc, removelast_last in Hp.
  destruct r as [|x r]; [by rewrite app_nil_r in Hp|].
  apply (sound_prefix d q (x :: r)); [done | by rewrite Hp | done].
Qed.

Lemma walk_reachable_from d (pre rest : path) :
  (forall q r : path, rest = q ++ r -> q <> [] -> r <> [] ->
     d !! (pre ++ q) = Some DirNode) ->
  walk d pre rest = None.
Proof.
  revert pre. induction rest as [|seg rest IH]; intros pre H; simpl; [done|].
  destruct rest as [|seg' rest]; [done|].
  rewrite (H [seg] (seg' :: rest)); [|done..].
  apply IH. intros q r Hqr Hq Hr. rewrite <- app_assoc. simpl.
  apply (H (seg :: q) r); [by rewrite Hqr | done | done].
Qed.

Lemma walk_reachable d (p : path) : reachable d p -> walk d [] p = None.
Proof. intros H. apply walk_reachable_from. intros q r. simpl. apply H. Qed.

Lemma reachable_child d (p : path) seg :
  reachable d p -> d !! p = Some DirNode -> reachable d (p ++ [seg]).
Proof.
  intros Hp Hd q r Hqr Hq Hr.
  destruct r as [|x r _] using rev_ind; [done|].
  rewrite app_assoc in Hqr. apply app_inj_tail in Hqr as [-> _].
  destruct r as [|y r]; [by rewrite app_nil_r in Hd|].
  by apply (Hp q (y :: r)).
Qed.

Lemma reachable_insert_dir d (p q : path) :
  reachable d p -> reachable (<[q := DirNode]> d) p.
Proof.
  intros Hp q' r Hqr Hq Hr.
  destruct (decide (q = q')) as [->|Hne]; [apply lookup_insert_eq|].
  rewrite lookup_insert_ne by done. by apply (Hp q' r).
Qed.

Lemma reachable_insert_file d (p q : path) content :
  reachable d p -> d !! q <> Some DirNode ->
  reachable (<[q := FileNode content]> d) p.
Proof.
  intros Hp Hd q' r Hqr Hq Hr.
  destruct (decide (q = q')) as [->|Hne].
  - exfalso. apply Hd. by apply (Hp q' r).
  - rewrite lookup_insert_ne by done. by apply (Hp q' r).
Qed.

Lemma mkdirSync_ok h (p : path) w :
  reachable (files w) p -> files w !! p = None ->
  refuses h Mkdir p (files w) = None ->
  mkdirSync h p w
  = (Returned tt, World (<[p := DirNode]> (files w)) (events w ++ [EMkdir p])).
Proof.
  intros Hr Hp Hh. unfold mkdirSync. by rewrite (walk_reachable _ _ Hr), Hp, Hh.
Qed.

Lemma writeFileSync_ok h (p : path) content w :
  reachable (files w) p -> files w !! p <> Some DirNode ->
  refuses h WriteFile p (files w) = None ->
  writeFileSync h p content w
  = (Returned tt,
     World (<[p := FileNode content]> (files w)) (events w ++ [EWrite p content])).
Proof.
  intros Hr Hp Hh. unfold writeFileSync. rewrite (walk_reachable _ _ Hr), Hh.
  by destruct (files w !! p) as [[|old]|].
Qed.

Lemma bind_returned {A B} (m : M A) (k : A -> M B) w x w' :
  m w = (Returned x, w') -> bind m k w = k x w'.
Proof. intros H. unfold bind. by rewrite H. Qed.

(** C7.  When the project path exists already, the first [mkdirSync] throws
    [EEXIST] and the run ends there: the world it leaves is the world it
    found, with the same disk and no event added. *)
Theorem existing_target_aborts h a w n :
  sound_disk (files w) ->
  files w !! projectPath h a = Some n ->
  run h a w = (Thrown (FsError EEXIST (projectPath h a)), w) /\
  performed h a w = [].
Proof.
  intros Hd Hp.
  assert (run h a w = (Thrown (FsError EEXIST (projectPath h a)), w)) as Hrun.
  { unfold run, scaffold, bind, mkdirSync.
    rewrite (walk_reachable (files w) (projectPath h a)).
    - by rewrite Hp.
    - apply sound_reachable; [done | by rewrite Hp]. }
  split; [done|]. unfold performed. rewrite Hrun. simpl. apply drop_all.
Qed.

Lemma existing_target_aborts_witness :
  (sound_disk (files Demo.taken) /\
   files Demo.taken !! projectPath Demo.machine Demo.demo = Some DirNode) /\
  run Demo.machine Demo.demo Demo.taken
  = (Thrown (FsError EEXIST (projectPath Demo.machine Demo.demo)), Demo.taken).
Proof.
  assert (sound_disk (files Demo.taken)) as H1
    by (apply (bool_decide_unpack (sound_disk _)); vm_compute; exact I).
  assert (files Demo.taken !! projectPath Demo.machine Demo.demo = Some DirNode)
    as H2 by (vm_compute; reflexivity).
  split; [by split|].
  exact (proj1 (existing_target_aborts Demo.machine Demo.demo Demo.taken DirNode H1 H2)).
Defined.

(** ** A fresh project directory *)

Lemma bind_assoc {A B C} (m : M A) (k1 : A -> M B) (k2 : B -> M C) w :
  bind (bind m k1) k2 w = bind m (fun x => bind (k1 x) k2) w.
Proof. unfold bind. by destruct (m w) as [[x|e] w']. Qed.

Lemma longer_path_differs (p r : path) : r <> [] -> p ++ r <> p.
Proof.
  intros Hr H. apply (f_equal length) in H. rewrite length_app in H.
  destruct r; [done | simpl in H; lia].
Qed.

Lemma obeys_returned h {A} (m : M A) expected w x :
  obeys h m expected -> fst (m w) = Returned x ->
  files (snd (m w)) = replay h expected (files w) /\
  events (snd (m w)) = events w ++ expected.
Proof.
  intros Hm Hret. destruct (Hm w) as (new & He & Hf & Hfol).
  rewrite Hret in Hfol. simpl in Hfol. by subst new.
Qed.

(** Lookups below a directory [p] in a disk built by insertions below [p]. *)
Ltac below :=
  first
    [ apply longer_path_differs; discriminate
    | apply not_eq_sym, longer_path_differs; discriminate
    | apart ].

Ltac look :=
  repeat first
    [ rewrite lookup_insert_eq
    | rewrite lookup_insert_ne by below ].

Ltac reach :=
  repeat first
    [ assumption
    | apply reachable_child
    | apply reachable_insert_dir ].

Lemma obliging_project h a call d :
  obliging h a -> refuses h call (projectPath h a) d = None.
Proof.
  intros H. rewrite <- (app_nil_r (projectPath h a)). apply H.
  apply list_elem_of_here.
Qed.

(** The file system of the examples is obliging when the names of the
    project path are short enough. *)
Lemma limits_obliging a :
  forallb (fun r => forallb (fun seg => N.leb (Demo.utf8_length seg) 255)
                            (projectPath Demo.machine a ++ r))
          project_places = true ->
  obliging Demo.machine a.
Proof.
  intros H call r d Hin. rewrite forallb_forall in H.
  apply list_elem_of_In, H in Hin.
  change (refuses Demo.machine call (projectPath Demo.machine a ++ r) d)
    with (Demo.limits call (projectPath Demo.machine a ++ r) d).
  unfold Demo.limits. by rewrite Hin.
Qed.

(** The file system has no objection to a call on a place of the project. *)
Ltac oblige H :=
  first
    [ by apply obliging_project
    | apply H; apply (bool_decide_unpack _); vm_compute; exact I ].

Section Fresh.
Context (h : host) (a : answers) (w : world).
Hypothesis Hsound : sound_disk (files w).
Hypothesis Hfree : files w !! projectPath h a = None.
Hypothesis Hparent : files w !! removelast (projectPath h a) = Some DirNode.
Hypothesis Hobliging : obliging h a.

Lemma project_reachable : reachable (files w) (projectPath h a).
Proof. by apply sound_reachable_parent. Qed.

Lemma below_fresh (r : path) : r <> [] -> files w !! (projectPath h a ++ r) = None.
Proof.
  intros Hr. destruct (files w !! (projectPath h a ++ r)) as [n|] eqn:E; [|done].
  assert (files w !! projectPath h a = Some DirNode) as H.
  { apply (sound_prefix _ _ r); [done | by rewrite E | done]. }
  by rewrite Hfree in H.
Qed.

Lemma scaffold_returned : fst (scaffold h a w) = Returned tt.
Proof.
  pose proof project_reachable as Hreach.
  unfold scaffold, folders. simpl forEach.
  rewrite !(path_join_name _ (js _)) by reflexivity.
  rewrite entry_path, (inProject_name _ _ "src") by reflexivity.
  erewrite bind_returned;
    [|apply mkdirSync_ok; [done | done | by apply obliging_project]].
  do 4 (rewrite ?bind_assoc; erewrite bind_returned;
        [|apply mkdirSync_ok; simpl;
          [reach; look; done | look; by apply below_fresh
          | oblige Hobliging]]).
  rewrite ?bind_assoc. rewrite (bind_returned (ret tt) _ _ tt _ eq_refl).
  destruct (isTS a); simpl.
  - erewrite bind_returned;
      [|apply mkdirSync_ok; simpl;
        [reach; look; done | look; by apply below_fresh | oblige Hobliging]].
    rewrite writeFileSync_ok; [done | | |]; simpl.
    + change (projectPath h a ++ [js "src"; js "index.ts"])
        with (projectPath h a ++ [js "src"] ++ [js "index.ts"]).
      rewrite app_assoc. reach; look; done.
    + look. by rewrite below_fresh.
    + oblige Hobliging.
  - rewrite (bind_returned (ret tt) _ _ tt _ eq_refl).
    rewrite writeFileSync_ok; [done | | |]; simpl.
    + reach; look; done.
    + look. by rewrite below_fresh.
    + oblige Hobliging.
Qed.


(** The world the scaffold leaves. *)
Lemma scaffold_world :
  exists w1,
    scaffold h a w = (Returned tt, w1) /\
    files w1 = replay h (scaffold_plan h a) (files w) /\
    events w1 = events w ++ scaffold_plan h a.
Proof.
  pose proof scaffold_returned as Hret.
  destruct (obeys_returned h _ _ w tt (obeys_scaffold h a) Hret) as [Hf He].
  destruct (scaffold h a w) as [o w1]. simpl in *. subst o. by exists w1.
Qed.

(** On a sound disk where the project path is free and its parent is a
    directory, the run does the whole scaffold, whatever happens later. *)
Lemma scaffold_performed :
  exists rest, performed h a w = scaffold_plan h a ++ rest.
Proof.
  destruct scaffold_world as (w1 & Hs & _ & He).
  destruct (after_scaffold_obeys h a w1) as (text & new & Hnew & _).
  exists new. unfold performed, run.
  rewrite (bind_returned _ _ _ _ _ Hs), Hnew, He, <- app_assoc.
  by rewrite drop_app_length.
Qed.

Lemma scaffold_disk :
  let d := replay h (scaffold_plan h a) (files w) in
  reachable d (projectPath h a) /\
  d !! projectPath h a = Some DirNode /\
  d !! (projectPath h a ++ [js ".env"]) = None.
Proof.
  pose proof project_reachable as Hreach.
  unfold scaffold_plan, folders, on, replay. simpl.
  rewrite !(path_join_name _ (js _)) by reflexivity.
  rewrite entry_path, (inProject_name _ _ "src") by reflexivity.
  destruct (isTS a); simpl.
  - split; [|split].
    + apply reachable_insert_file; [reach | look; by rewrite below_fresh].
    + by look.
    + look. by apply below_fresh.
  - split; [|split].
    + apply reachable_insert_file; [reach | look; by rewrite below_fresh].
    + by look.
    + look. by apply below_fresh.
Qed.

(** With [addEnv] confirmed and names given, the run goes on to write the
    [.env] file and to print its line. *)
Lemma env_performed s :
  addEnv a = true -> envVars a = Some s ->
  exists rest,
    performed h a w
    = scaffold_plan h a
      ++ [EWrite (projectPath h a ++ [js ".env"]) (envContent s);
          ELog (env_message s)]
      ++ rest.
Proof.
  intros Hadd Henv.
  destruct scaffold_world as (w1 & Hs & Hf & He).
  destruct scaffold_disk as (Hreach & Hdir & Hnone). rewrite <- Hf in *.
  assert (fst (write_env h a w1) = Returned tt) as Hret.
  { unfold write_env. rewrite Hadd, Henv. simpl.
    rewrite (bind_returned (ret s) _ _ s _ eq_refl).
    rewrite (inProject_name _ _ ".env") by reflexivity.
    erewrite bind_returned; [done|].
    apply writeFileSync_ok;
      [by apply reachable_child | by rewrite Hnone | oblige Hobliging]. }
  destruct (obeys_returned h _ _ w1 tt (obeys_write_env h a) Hret) as [_ He2].
  destruct (write_env h a w1) as [o w2] eqn:Hw. simpl in Hret, He2. subst o.
  destruct (after_env_obeys h a w2) as (text & new & Hnew & _).
  exists new. unfold performed, run.
  rewrite (bind_returned _ _ _ _ _ Hs), (bind_returned _ _ _ _ _ Hw).
  rewrite Hnew, He2, He. unfold write_env_plan. rewrite Hadd, Henv. unfold on.
  rewrite (inProject_name _ _ ".env") by reflexivity.
  rewrite <- !app_assoc. rewrite drop_app_length. reflexivity.
Qed.

End Fresh.

(** ** The entry point *)

Lemma performed_in_plan h a w ev :
  ev ∈ performed h a w ->
  (exists text, ev ∈ plan h a text) \/
  (exists command dir status, ev = EExec command dir status /\ status <> 0%Z).
Proof.
  intros Hin.
  destruct (performed_shape h a w)
    as (text & done & rest & tail & Hplan & Hdone & Htail & _).
  rewrite Hdone in Hin. apply elem_of_app in Hin as [Hin|Hin].
  - left. exists text. rewrite Hplan. apply elem_of_app. by left.
  - destruct Htail as [->|(c & d & st & r & Hst & -> & _)].
    + by apply elem_of_nil in Hin.
    + apply list_elem_of_singleton in Hin as ->. right. by exists c, d, st.
Qed.

(** What a plan writes where the entry point goes is the entry point, and
    it writes to one of the two entry-point paths only. *)
Lemma plan_entry h a text :
  Forall (fun ev =>
            match ev with
            | EWrite q content =>
                (q = projectPath h a ++ [js "server.js"] \/
                 q = projectPath h a ++ [js "src"; js "index.ts"]) ->
                q = path_join (projectPath h a) (serverPath a) /\
                content = serverContent a
            | _ => True
            end) (plan h a text).
Proof.
  unfold plan, plan_before, scaffold_plan, write_env_plan, write_templates_plan,
    install_plan, write_tsconfig_plan, setup_lint_plan, init_git_plan,
    add_start_script_plan, print_hints_plan, on.
  project_paths.
  repeat apply Forall_app_2; repeat case_match;
    repeat first
      [ apply Forall_nil_2
      | apply Forall_cons_2;
        [simpl; try tauto;
         let Hq := fresh "Hq" in
         intros Hq; destruct Hq as [Hq|Hq];
         first [ exfalso; revert Hq; apart | by split ]|] ].
  all: apply List.Forall_forall; intros ev [x [<- _]]%List.in_map_iff; exact I.
Qed.

Lemma entry_write_content h a w q content :
  EWrite q content ∈ performed h a w ->
  q = projectPath h a ++ [js "server.js"] \/
  q = projectPath h a ++ [js "src"; js "index.ts"] ->
  q = path_join (projectPath h a) (serverPath a) /\ content = serverContent a.
Proof.
  intros Hin Hq. apply performed_in_plan in Hin as [[text Hin]|(c & d & st & H & _)];
    [|done].
  apply (proj1 (Forall_forall _ _) (plan_entry h a text)) in Hin. by apply Hin.
Qed.

Lemma scaffold_plan_shape h a :
  exists before,
    scaffold_plan h a
    = before ++ [EWrite (path_join (projectPath h a) (serverPath a)) (serverContent a)]
    /\ Forall is_mkdir before.
Proof.
  exists ([EMkdir (projectPath h a)]
          ++ List.map (fun folder => EMkdir (path_join (projectPath h a) folder)) folders
          ++ on (isTS a) [EMkdir (inProject h a "src")]).
  split; [unfold scaffold_plan; by rewrite <- !app_assoc|].
  unfold on. destruct (isTS a); repeat constructor.
Qed.

(** C3.  The entry point goes to [src/index.ts] for TypeScript and to
    [server.js] otherwise, and its text is the three-line Express server of
    the language, which listens on port 3000 and logs a line when it is up.
    On a sound disk where the project path is free and lies in a directory,
    and on a file system that refuses none of the calls of the script (no
    name too long for it, no permission missing, room left), the run writes
    that file right after the directories, whatever happens later; and in
    any run a write to either of the two paths is this write. *)
Theorem entry_point_written h a w :
  sound_disk (files w) ->
  files w !! projectPath h a = None ->
  files w !! removelast (projectPath h a) = Some DirNode ->
  obliging h a ->
  path_join (projectPath h a) (serverPath a)
  = projectPath h a
    ++ match language a with
       | TypeScript => [js "src"; js "index.ts"]
       | JavaScript => [js "server.js"]
       end /\
  serverContent a
  = match language a with
    | TypeScript => js "import express from 'express';"
    | JavaScript => js "const express = require('express');"
    end
    ++ NL ++ js "const app = express();"
    ++ NL ++ js "app.listen(3000, () => console.log('Server running'));" ++ NL /\
  (exists before rest,
     performed h a w
     = before
       ++ EWrite (path_join (projectPath h a) (serverPath a)) (serverContent a)
       :: rest /\
     Forall is_mkdir before) /\
  (forall q content,
     EWrite q content ∈ performed h a w ->
     q = projectPath h a ++ [js "server.js"] \/
     q = projectPath h a ++ [js "src"; js "index.ts"] ->
     q = path_join (projectPath h a) (serverPath a) /\ content = serverContent a).
Proof.
  intros Hsound Hfree Hparent Hobliging.
  split. { rewrite entry_path. unfold isTS. by destruct (language a). }
  split. { unfold serverContent, isTS. by destruct (language a). }
  split; [|intros q content; apply entry_write_content].
  destruct (scaffold_performed h a w Hsound Hfree Hparent Hobliging)
    as [rest Hperf].
  destruct (scaffold_plan_shape h a) as (before & Hshape & Hbefore).
  exists before, rest. split; [|done].
  by rewrite Hperf, Hshape, <- app_assoc.
Qed.

Lemma entry_point_written_witness :
  (sound_disk (files Demo.fresh) /\
   files Demo.fresh !! projectPath Demo.machine Demo.full = None /\
   files Demo.fresh !! removelast (projectPath Demo.machine Demo.full)
   = Some DirNode /\
   obliging Demo.machine Demo.full) /\
  path_join (projectPath Demo.machine Demo.full) (serverPath Demo.full)
  = projectPath Demo.machine Demo.full ++ [js "src"; js "index.ts"].
Proof.
  assert (sound_disk (files Demo.fresh)) as H1
    by (apply (bool_decide_unpack (sound_disk _)); vm_compute; exact I).
  assert (files Demo.fresh !! projectPath Demo.machine Demo.full = None) as H2
    by (vm_compute; reflexivity).
  assert (files Demo.fresh !! removelast (projectPath Demo.machine Demo.full)
          = Some DirNode) as H3 by (vm_compute; reflexivity).
  assert (obliging Demo.machine Demo.full) as H4
    by (apply limits_obliging; vm_compute; reflexivity).
  split; [exact (conj H1 (conj H2 (conj H3 H4)))|].
  exact (proj1 (entry_point_written Demo.machine Demo.full Demo.fresh
                  H1 H2 H3 H4)).
Defined.

(** C4.  The text of the entry point depends on the language and on nothing
    else: two runs whose answers name the same language, on any hosts and
    disks, write the same text to their entry points. *)
Theorem entry_content_by_language h1 h2 a1 a2 w1 w2 content1 content2 :
  language a1 = language a2 ->
  EWrite (path_join (projectPath h1 a1) (serverPath a1)) content1
    ∈ performed h1 a1 w1 ->
  EWrite (path_join (projectPath h2 a2) (serverPath a2)) content2
    ∈ performed h2 a2 w2 ->
  content1 = content2 /\ serverContent a1 = serverContent a2.
Proof.
  intros Hlang H1 H2.
  assert (serverContent a1 = serverContent a2) as Hsame.
  { unfold serverContent, isTS. by rewrite Hlang. }
  split; [|done].
  apply entry_write_content in H1 as [_ ->].
  2: { rewrite entry_path. destruct (isTS a1); [by right | by left]. }
  apply entry_write_content in H2 as [_ ->].
  2: { rewrite entry_path. destruct (isTS a2); [by right | by left]. }
  done.
Qed.

Lemma entry_content_by_language_witness :
  (language Demo.demo = language Demo.by_hand /\
   EWrite (path_join (projectPath Demo.machine Demo.demo) (serverPath Demo.demo))
          (serverContent Demo.demo)
     ∈ performed Demo.machine Demo.demo Demo.fresh /\
   EWrite (path_join (projectPath Demo.offline_machine Demo.by_hand)
                     (serverPath Demo.by_hand))
          (serverContent Demo.by_hand)
     ∈ performed Demo.offline_machine Demo.by_hand Demo.fresh) /\
  serverContent Demo.demo = serverContent Demo.by_hand.
Proof.
  assert (language Demo.demo = language Demo.by_hand) as H1 by reflexivity.
  assert (EWrite (path_join (projectPath Demo.machine Demo.demo)
                            (serverPath Demo.demo))
                 (serverContent Demo.demo)
            ∈ performed Demo.machine Demo.demo Demo.fresh) as H2
    by (apply (bool_decide_unpack _); vm_compute; exact I).
  assert (EWrite (path_join (projectPath Demo.offline_machine Demo.by_hand)
                            (serverPath Demo.by_hand))
                 (serverContent Demo.by_hand)
            ∈ performed Demo.offline_machine Demo.by_hand Demo.fresh) as H3
    by (apply (bool_decide_unpack _); vm_compute; exact I).
  split; [exact (conj H1 (conj H2 H3))|].
  exact (proj2 (entry_content_by_language _ _ _ _ _ _ _ _ H1 H2 H3)).
Defined.

(** ** The [.env] file *)

Lemma before_app c (v rest : jsstring) : c ∉ v -> before c (v ++ c :: rest) = v.
Proof.
  induction v as [|x v IH]; intros Hv; simpl.
  - by rewrite N.eqb_refl.
  - apply not_elem_of_cons in Hv as [Hx Hv].
    destruct (N.eqb_spec x c) as [->|_]; [done|]. by rewrite IH.
Qed.

Lemma filter_all {A} (f : A -> bool) (l : list A) :
  Forall (fun x => f x = true) l -> List.filter f l = l.
Proof.
  induction 1 as [|x l Hx _ IH]; simpl; [done|]. by rewrite Hx, IH.
Qed.

Lemma env_lines s :
  tokens s <> [] -> Forall (fun v => LF ∉ v) (tokens s) ->
  split LF (envContent s) = List.map (fun v => v ++ js "=") (tokens s).
Proof.
  intros Hne Hlf. unfold envContent, vars. apply (split_join LF).
  - by destruct (tokens s).
  - apply Forall_map. eapply Forall_impl; [exact Hlf|].
    intros v Hv Hin. apply elem_of_app in Hin as [Hin|Hin]; [done|].
    apply list_elem_of_singleton in Hin. discriminate Hin.
Qed.

Lemma env_round_trip s :
  Forall (fun v => (LF ∉ v) /\ (EQUALS ∉ v)) (tokens s) ->
  env_names (envContent s) = tokens s.
Proof.
  intros Hall. unfold env_names.
  destruct (tokens s) as [|v rest] eqn:E.
  { unfold envContent, vars. by rewrite E. }
  rewrite env_lines.
  2: { by rewrite E. }
  2: { rewrite E. eapply Forall_impl; [exact Hall|]. by intros x [Hx _]. }
  rewrite E, filter_all.
  2: { apply Forall_map. apply Forall_true. intros x. simpl. by destruct x. }
  rewrite List.map_map. rewrite <- (List.map_id (v :: rest)) at 2.
  apply List.map_ext_in. intros x Hx%list_elem_of_In.
  apply (proj1 (Forall_forall _ _) Hall) in Hx as [_ Hx].
  by apply (before_app EQUALS x []).
Qed.

Lemma plan_env h a text :
  Forall (fun ev =>
            match ev with
            | EWrite q content =>
                q = projectPath h a ++ [js ".env"] ->
                addEnv a = true /\
                exists s, envVars a = Some s /\ content = envContent s
            | _ => True
            end) (plan h a text).
Proof.
  unfold plan, plan_before, scaffold_plan, write_env_plan, write_templates_plan,
    install_plan, write_tsconfig_plan, setup_lint_plan, init_git_plan,
    add_start_script_plan, print_hints_plan, on.
  project_paths.
  repeat apply Forall_app_2.
  all: repeat case_match;
    repeat first
      [ apply Forall_nil_2
      | apply Forall_cons_2;
        [simpl; try tauto;
         let Hq := fresh "Hq" in
         intros Hq; first [ exfalso; revert Hq; apart | by eauto ]|] ].
  all: apply List.Forall_forall; intros ev [x [<- _]]%List.in_map_iff; exact I.
Qed.

(** C5, as the script has it.  The script writes [.env] only when [addEnv]
    was confirmed, and then with the text built from the names; with
    [addEnv] confirmed it does write the file, on a sound disk where the
    project path is free and lies in a directory and on a file system that
    refuses none of the calls of the script.  The text is the lines
    [NAME=] of the tokens of the answer, joined by line feeds: as many lines
    as tokens, in their order, when no token holds a line feed.  Reading the
    names back gives the tokens when no token holds a line feed or an equals
    sign. *)
Theorem env_file_written h a w :
  (forall content,
     EWrite (projectPath h a ++ [js ".env"]) content ∈ performed h a w ->
     addEnv a = true /\ exists s, envVars a = Some s /\ content = envContent s) /\
  (forall s,
     addEnv a = true -> envVars a = Some s ->
     sound_disk (files w) ->
     files w !! projectPath h a = None ->
     files w !! removelast (projectPath h a) = Some DirNode ->
     obliging h a ->
     exists before rest,
       performed h a w
       = before ++ EWrite (projectPath h a ++ [js ".env"]) (envContent s) :: rest) /\
  (forall s,
     envContent s = join NL (List.map (fun v => v ++ js "=") (tokens s))) /\
  (forall s,
     tokens s <> [] -> Forall (fun v => LF ∉ v) (tokens s) ->
     split LF (envContent s) = List.map (fun v => v ++ js "=") (tokens s)) /\
  (forall s,
     Forall (fun v => (LF ∉ v) /\ (EQUALS ∉ v)) (tokens s) ->
     env_names (envContent s) = tokens s).
Proof.
  split; [|split; [|split; [|split]]].
  - intros content Hin.
    apply performed_in_plan in Hin as [[text Hin]|(c & d & st & H & _)]; [|done].
    apply (proj1 (Forall_forall _ _) (plan_env h a text)) in Hin. by apply Hin.
  - intros s Hadd Henv Hsound Hfree Hparent Hobliging.
    destruct (env_performed h a w Hsound Hfree Hparent Hobliging s Hadd Henv)
      as [rest Hperf].
    exists (scaffold_plan h a), (ELog (env_message s) :: rest). by rewrite Hperf.
  - done.
  - apply env_lines.
  - apply env_round_trip.
Qed.

(** C5 as stated fails on a name with a value typed after it: the file
    holds the line [PORT=3000=], whose name is [PORT], and the token was
    [PORT=3000]. *)
Lemma env_round_trip_fails :
  tokens (js "PORT=3000") = [js "PORT=3000"] /\
  EWrite (projectPath Demo.machine Demo.with_value ++ [js ".env"]) (js "PORT=3000=")
    ∈ performed Demo.machine Demo.with_value Demo.fresh /\
  env_names (js "PORT=3000=") = [js "PORT"] /\
  env_names (js "PORT=3000=") <> tokens (js "PORT=3000").
Proof.
  split; [by vm_compute|]. split.
  { apply (bool_decide_unpack _). vm_compute. exact I. }
  split; [by vm_compute|]. vm_compute. discriminate.
Qed.

(** C6, as the script has it: with [addEnv] confirmed and an answer without
    a single name, the script still writes [.env], as an empty file, on a
    sound disk where the project path is free and lies in a directory and
    on a file system that refuses none of the calls of the script. *)
Theorem empty_env_file_written h a w s :
  addEnv a = true -> envVars a = Some s -> tokens s = [] ->
  sound_disk (files w) ->
  files w !! projectPath h a = None ->
  files w !! removelast (projectPath h a) = Some DirNode ->
  obliging h a ->
  envContent s = [] /\
  exists before rest,
    performed h a w = before ++ EWrite (projectPath h a ++ [js ".env"]) [] :: rest.
Proof.
  intros Hadd Henv Hnone Hsound Hfree Hparent Hobliging.
  assert (envContent s = []) as Hempty.
  { unfold envContent, vars. by rewrite Hnone. }
  split; [done|].
  destruct (env_performed h a w Hsound Hfree Hparent Hobliging s Hadd Henv)
    as [rest Hperf].
  exists (scaffold_plan h a), (ELog (env_message s) :: rest).
  by rewrite Hperf, Hempty.
Qed.

Lemma empty_env_file_written_witness :
  (addEnv Demo.blank_env = true /\
   envVars Demo.blank_env = Some (js " , ") /\
   tokens (js " , ") = [] /\
   sound_disk (files Demo.fresh) /\
   files Demo.fresh !! projectPath Demo.machine Demo.blank_env = None /\
   files Demo.fresh !! removelast (projectPath Demo.machine Demo.blank_env)
   = Some DirNode /\
   obliging Demo.machine Demo.blank_env) /\
  envContent (js " , ") = [].
Proof.
  assert (addEnv Demo.blank_env = true) as H1 by reflexivity.
  assert (envVars Demo.blank_env = Some (js " , ")) as H2 by reflexivity.
  assert (tokens (js " , ") = []) as H3 by (vm_compute; reflexivity).
  assert (sound_disk (files Demo.fresh)) as H4
    by (apply (bool_decide_unpack (sound_disk _)); vm_compute; exact I).
  assert (files Demo.fresh !! projectPath Demo.machine Demo.blank_env = None)
    as H5 by (vm_compute; reflexivity).
  assert (files Demo.fresh !! removelast (projectPath Demo.machine Demo.blank_env)
          = Some DirNode) as H6 by (vm_compute; reflexivity).
  assert (obliging Demo.machine Demo.blank_env) as H7
    by (apply limits_obliging; vm_compute; reflexivity).
  split; [exact (conj H1 (conj H2 (conj H3 (conj H4 (conj H5 (conj H6 H7))))))|].
  exact (proj1 (empty_env_file_written Demo.machine Demo.blank_env Demo.fresh
                  (js " , ") H1 H2 H3 H4 H5 H6 H7)).
Defined.

(** C6 as stated fails: the file is written, and it is on the disk, empty,
    when the run is over. *)
Lemma empty_env_file_not_skipped :
  addEnv Demo.blank_env = true /\
  option_map tokens (envVars Demo.blank_env) = Some [] /\
  EWrite (projectPath Demo.machine Demo.blank_env ++ [js ".env"]) []
    ∈ performed Demo.machine Demo.blank_env Demo.fresh /\
  fst (run Demo.machine Demo.blank_env Demo.fresh) = Returned tt /\
  files (snd (run Demo.machine Demo.blank_env Demo.fresh))
    !! (projectPath Demo.machine Demo.blank_env ++ [js ".env"])
  = Some (FileNode []).
Proof.
  split; [reflexivity|]. split; [by vm_compute|]. split.
  { apply (bool_decide_unpack _). vm_compute. exact I. }
  split; by vm_compute.
Qed.

(** ** The dependency list *)

(** C1, as the script has it.  The dependency list is [express], then
    [mongoose] exactly when [useMongo] was confirmed, then the tokens of the
    other dependencies: the pieces between the commas of the answer,
    trimmed, the empty ones dropped, in their order and with repetitions.
    So [mongoose] is in the list when [useMongo] was confirmed or when it is
    one of the tokens. *)
Theorem deps_assembly a :
  exists pieces,
    dependencies a = join [COMMA] pieces /\
    Forall (fun piece => COMMA ∉ piece) pieces /\
    deps a
    = js "express" :: (if useMongo a then [js "mongoose"] else [])
      ++ List.filter Boolean (List.map trim pieces) /\
    Forall (fun token => token <> [] /\ trimmed token)
           (List.filter Boolean (List.map trim pieces)) /\
    (forall piece, exists l r,
        piece = l ++ trim piece ++ r /\
        forallb is_ws l = true /\ forallb is_ws r = true) /\
    (js "mongoose" ∈ deps a <->
     useMongo a = true \/ js "mongoose" ∈ tokens (dependencies a)).
Proof.
  exists (split COMMA (dependencies a)).
  split; [by rewrite join_split|]. split; [apply split_no_sep|].
  split; [reflexivity|]. split; [apply tokens_spec|]. split; [apply trim_parts|].
  unfold deps. rewrite !elem_of_app, list_elem_of_singleton.
  destruct (useMongo a).
  - rewrite list_elem_of_singleton. split; [by auto|]. by intros _; right; left.
  - split.
    + intros [H|[H|H]]; [discriminate H | by apply elem_of_nil in H | by right].
    + intros [H|H]; [discriminate H | by right; right].
Qed.

(** C1 as stated fails when MongoDB was declined and [mongoose] typed among
    the other dependencies: the list holds [mongoose]. *)
Lemma mongoose_without_useMongo :
  useMongo Demo.by_hand = false /\
  deps Demo.by_hand = [js "express"; js "mongoose"] /\
  js "mongoose" ∈ deps Demo.by_hand.
Proof.
  split; [reflexivity|]. split; [by vm_compute|].
  apply (bool_decide_unpack _). vm_compute. exact I.
Qed.

(** ** The subfolders of the project *)

Section Directories.
Context (h : host).

Hypothesis Hkeeps : spawn_keeps_directories h.

Lemma replay_dir_origin evs d (q : path) :
  replay h evs d !! q = Some DirNode ->
  d !! q = Some DirNode \/ EMkdir q ∈ evs.
Proof.
  revert d. induction evs as [|ev evs IH]; intros d H; [by left|].
  apply IH in H as [H|H]; [|right; by apply elem_of_cons; right].
  destruct ev as [p|p content|p content|command dir status|line]; simpl in H.
  - destruct (decide (p = q)) as [->|Hne].
    + right. apply elem_of_cons. by left.
    + left. by rewrite lookup_insert_ne in H.
  - destruct (decide (p = q)) as [->|Hne].
    + by rewrite lookup_insert_eq in H.
    + left. by rewrite lookup_insert_ne in H.
  - by left.
  - left. by apply Hkeeps in H.
  - by left.
Qed.

Lemma replay_dir_kept evs d (q : path) :
  d !! q = Some DirNode ->
  Forall (fun ev => ~ is_write_to q ev) evs ->
  replay h evs d !! q = Some DirNode.
Proof.
  revert d. induction evs as [|ev evs IH]; intros d Hd Hall; [done|].
  inversion Hall as [|? ? Hev Hrest]; subst. apply IH; [|done].
  destruct ev as [p|p content|p content|command dir status|line]; simpl in *.
  - destruct (decide (p = q)) as [->|Hne];
      [apply lookup_insert_eq | by rewrite lookup_insert_ne].
  - by rewrite lookup_insert_ne.
  - done.
  - by apply Hkeeps.
  - done.
Qed.

Lemma replay_dir_made evs d (q : path) :
  EMkdir q ∈ evs ->
  Forall (fun ev => ~ is_write_to q ev) evs ->
  replay h evs d !! q = Some DirNode.
Proof.
  revert d. induction evs as [|ev evs IH]; intros d Hin Hall.
  { by apply elem_of_nil in Hin. }
  inversion Hall as [|? ? Hev Hrest]; subst.
  apply elem_of_cons in Hin as [<-|Hin]; [|by apply IH].
  change (replay h (EMkdir q :: evs) d) with (replay h evs (<[q := DirNode]> d)).
  apply replay_dir_kept; [apply lookup_insert_eq | done].
Qed.

End Directories.

Lemma elem_of_mkdirs evs (q : path) : q ∈ mkdirs evs <-> EMkdir q ∈ evs.
Proof.
  unfold mkdirs. rewrite list_elem_of_omap. split.
  - intros (ev & Hin & Hev). destruct ev; try done. by injection Hev as ->.
  - intros Hin. by exists (EMkdir q).
Qed.

Lemma mkdirs_logs lines : mkdirs (List.map ELog lines) = [].
Proof. induction lines as [|l lines IH]; [done | exact IH]. Qed.

Lemma mkdirs_app evs1 evs2 : mkdirs (evs1 ++ evs2) = mkdirs evs1 ++ mkdirs evs2.
Proof. apply omap_app. Qed.

Lemma project_folders_language a :
  project_folders a
  = folders ++ match language a with TypeScript => [js "src"] | JavaScript => [] end.
Proof. unfold project_folders, isTS. by destruct (language a). Qed.

(** The directories a complete plan creates. *)
Lemma plan_mkdirs h a text text' :
  mkdirs (plan_before h a ++ ERead (packageJsonPath h a) text
            :: EWrite (packageJsonPath h a) text' :: print_hints_plan a)
  = projectPath h a
    :: List.map (fun folder => projectPath h a ++ [folder]) (project_folders a).
Proof.
  assert (mkdirs (ERead (packageJsonPath h a) text
                    :: EWrite (packageJsonPath h a) text' :: print_hints_plan a)
          = []) as Hrest.
  { unfold print_hints_plan. simpl. apply mkdirs_logs. }
  rewrite mkdirs_app, Hrest, app_nil_r.
  unfold plan_before, scaffold_plan, write_env_plan, write_templates_plan,
    install_plan, write_tsconfig_plan, setup_lint_plan, init_git_plan,
    project_folders, folders, on.
  rewrite !mkdirs_app. simpl List.map.
  rewrite !(path_join_name _ (js _)) by reflexivity.
  rewrite (inProject_name _ _ "src") by reflexivity.
  simpl. repeat case_match; reflexivity.
Qed.

Lemma plan_spares_folder h a text name :
  name ∈ folders ++ [js "src"] ->
  Forall (fun ev => ~ is_write_to (projectPath h a ++ [name]) ev) (plan h a text).
Proof.
  intros Hname.
  unfold plan, plan_before, scaffold_plan, write_env_plan, write_templates_plan,
    install_plan, write_tsconfig_plan, setup_lint_plan, init_git_plan,
    add_start_script_plan, print_hints_plan, on.
  project_paths.
  unfold folders in Hname. simpl in Hname. rewrite !elem_of_cons in Hname.
  destruct Hname as [->|[->|[->|[->|[->|Hname]]]]];
    [..|by apply elem_of_nil in Hname].
  all: repeat apply Forall_app_2; repeat case_match;
    repeat first
      [ apply Forall_nil_2
      | apply Forall_cons_2; [simpl; try tauto; apart|] ].
  all: apply List.Forall_forall; intros ev [x [<- _]]%List.in_map_iff; simpl; tauto.
Qed.

Lemma run_returned_free h a w x :
  fst (run h a w) = Returned x -> files w !! projectPath h a = None.
Proof.
  unfold run, scaffold, bind, mkdirSync.
  destruct (walk (files w) [] (projectPath h a)); [done|].
  by destruct (files w !! projectPath h a).
Qed.

(** C2, as the script has it.  In a run that returns, on a sound disk, the
    directories the script itself creates are the project directory and in
    it [routes], [controllers], [models] and [config], and [src] exactly for
    TypeScript.  They are all the subfolders of the project when the commands
    the script starts create and remove no directory; [npm install] and
    [git init] do create some. *)
Theorem generated_subfolders h a w :
  fst (run h a w) = Returned tt ->
  sound_disk (files w) ->
  mkdirs (performed h a w)
  = projectPath h a
    :: List.map (fun folder => projectPath h a ++ [folder]) (project_folders a) /\
  project_folders a
  = folders ++ match language a with TypeScript => [js "src"] | JavaScript => [] end /\
  (spawn_keeps_directories h ->
   forall name,
     is_subfolder (files (snd (run h a w))) (projectPath h a) name
     <-> name ∈ project_folders a).
Proof.
  intros Hret Hsound.
  destruct (returned_run_performed h a w tt Hret) as (text & text' & Hp & Hperf).
  assert (mkdirs (performed h a w)
          = projectPath h a
            :: List.map (fun folder => projectPath h a ++ [folder])
                        (project_folders a)) as Hmk.
  { rewrite Hperf. apply plan_mkdirs. }
  split; [done|]. split; [apply project_folders_language|].
  intros Hkeeps name. unfold is_subfolder.
  destruct (run_follows h a w) as (text0 & _ & Hfiles & _). rewrite Hfiles.
  pose proof (run_returned_free h a w tt Hret) as Hfree.
  split.
  - intros Hdir. apply (replay_dir_origin h Hkeeps) in Hdir as [Hdir|Hdir].
    + rewrite (below_fresh h a w Hsound Hfree [name]) in Hdir; done.
    + apply elem_of_mkdirs in Hdir. rewrite Hmk in Hdir.
      apply elem_of_cons in Hdir as [Hdir|Hdir].
      * by apply longer_path_differs in Hdir.
      * apply list_elem_of_In, List.in_map_iff in Hdir as (folder & Heq & Hin).
        apply app_inv_head in Heq. injection Heq as ->.
        by apply list_elem_of_In.
  - intros Hname. apply (replay_dir_made h Hkeeps).
    + apply elem_of_mkdirs. rewrite Hmk. apply elem_of_cons. right.
      apply list_elem_of_In, List.in_map_iff. exists name.
      split; [done | by apply list_elem_of_In].
    + rewrite Hperf.
      pose proof (plan_spares_folder h a text name) as Hspare.
      rewrite plan_unfold, Hp in Hspare. apply Hspare.
      unfold project_folders in Hname. apply elem_of_app in Hname as [Hname|Hname].
      * apply elem_of_app. by left.
      * apply elem_of_app. right. by destruct (isTS a); [|apply elem_of_nil in Hname].
Qed.

Lemma generated_subfolders_witness :
  (fst (run Demo.machine Demo.full Demo.fresh) = Returned tt /\
   sound_disk (files Demo.fresh)) /\
  mkdirs (performed Demo.machine Demo.full Demo.fresh)
  = projectPath Demo.machine Demo.full
    :: List.map (fun folder => projectPath Demo.machine Demo.full ++ [folder])
                (project_folders Demo.full).
Proof.
  assert (fst (run Demo.machine Demo.full Demo.fresh) = Returned tt) as H1
    by (vm_compute; reflexivity).
  assert (sound_disk (files Demo.fresh)) as H2
    by (apply (bool_decide_unpack (sound_disk _)); vm_compute; exact I).
  split; [exact (conj H1 H2)|].
  exact (proj1 (generated_subfolders Demo.machine Demo.full Demo.fresh H1 H2)).
Defined.

(** C2 as stated fails: after a run that returns, the project has a
    subfolder [node_modules], which [npm install] created. *)
Lemma node_modules_subfolder :
  fst (run Demo.machine Demo.demo Demo.fresh) = Returned tt /\
  is_subfolder (files (snd (run Demo.machine Demo.demo Demo.fresh)))
               (projectPath Demo.machine Demo.demo) (js "node_modules") /\
  js "node_modules" ∉ project_folders Demo.demo.
Proof.
  split; [by vm_compute|]. split; [by vm_compute|].
  apply (bool_decide_unpack _). vm_compute. exact I.
Qed.

(** ** The scenarios of the specification, on the example host *)

(** JavaScript with MongoDB and two more dependencies: the dependency list,
    [server.js] and [.gitignore] on the disk, no [.env], no [Dockerfile],
    and the start script in the manifest. *)
Example scenario_javascript :
  let w := snd (run Demo.machine Demo.demo Demo.fresh) in
  let project := projectPath Demo.machine Demo.demo in
  deps Demo.demo = [js "express"; js "mongoose"; js "cors"; js "dotenv"] /\
  files w !! (project ++ [js "server.js"]) = Some (FileNode (serverContent Demo.demo)) /\
  files w !! (project ++ [js ".gitignore"]) = Some (FileNode gitignore) /\
  files w !! (project ++ [js ".env"]) = None /\
  files w !! (project ++ [js "Dockerfile"]) = None /\
  Demo.start_script_of (files w) (project ++ [js "package.json"])
  = Some (JStr (js "node server.js")).
Proof. vm_compute. by repeat split. Qed.

(** TypeScript with every option: the entry point in [src], the compiler
    configuration, the [Dockerfile], the [.env] lines, and the start script
    in the manifest. *)
Example scenario_typescript :
  let w := snd (run Demo.machine Demo.full Demo.fresh) in
  let project := projectPath Demo.machine Demo.full in
  deps Demo.full = [js "express"; js "mongoose"; js "cors"; js "dotenv"; js "cors"] /\
  files w !! (project ++ [js "src"; js "index.ts"])
  = Some (FileNode (serverContent Demo.full)) /\
  files w !! (project ++ [js "tsconfig.json"])
  = Some (FileNode (Demo.stringify tsconfig)) /\
  files w !! (project ++ [js "Dockerfile"]) = Some (FileNode dockerfile) /\
  files w !! (project ++ [js ".env"])
  = Some (FileNode (js "PORT=" ++ NL ++ js "DB_URL=")) /\
  env_names (js "PORT=" ++ NL ++ js "DB_URL=") = [js "PORT"; js "DB_URL"] /\
  Demo.start_script_of (files w) (project ++ [js "package.json"])
  = Some (JStr (js "ts-node-dev src/index.ts")).
Proof. vm_compute. by repeat split. Qed.

(** A project name of 256 letters is too long for the file system of the
    examples: the first [mkdirSync] throws and nothing is done. *)
Example long_project_name :
  run Demo.machine Demo.long_named Demo.fresh
  = (Thrown (FsError ENAMETOOLONG (projectPath Demo.machine Demo.long_named)),
     Demo.fresh) /\
  ~ obliging Demo.machine Demo.long_named.
Proof.
  split; [by vm_compute|]. intros H.
  pose proof (obliging_project _ _ Mkdir ∅ H) as Hno.
  vm_compute in Hno. discriminate Hno.
Qed.

(** * Further properties of the script *)

(** ** The comma-separated answers *)

Lemma trimStart_ws s : forallb is_ws s = true -> trimStart s = [].
Proof.
  induction s as [|c s IH]; simpl; [done|].
  intros [Hc Hs]%andb_true_iff. rewrite Hc. by apply IH.
Qed.

Lemma trimStart_skip pad s :
  forallb is_ws pad = true -> trimStart (pad ++ s) = trimStart s.
Proof.
  induction pad as [|c pad IH]; simpl; [done|].
  intros [Hc Hs]%andb_true_iff. rewrite Hc. by apply IH.
Qed.

Lemma trim_ws s : forallb is_ws s = true -> trim s = [].
Proof. intros H. unfold trim. by rewrite (trimStart_ws s H). Qed.

Lemma trimStart_of_trimmed s : trimmed s -> trimStart s = s.
Proof.
  intros [Hhead _]. destruct s as [|c s]; [done|].
  simpl. by rewrite (Hhead c s eq_refl).
Qed.

Lemma trimEnd_of_trimmed s : trimmed s -> trimEnd s = s.
Proof.
  intros [_ Hlast]. unfold trimEnd.
  destruct s as [|c s _] using rev_ind; [done|].
  rewrite rev_app_distr. simpl. rewrite (Hlast c s eq_refl).
  simpl. by rewrite rev_involutive.
Qed.

(** Trimming a trimmed string changes nothing. *)
Lemma trim_of_trimmed s : trimmed s -> trim s = s.
Proof.
  intros H. unfold trim. rewrite (trimStart_of_trimmed s H).
  by apply trimEnd_of_trimmed.
Qed.

Lemma trim_padded pad s :
  forallb is_ws pad = true -> trimmed s -> trim (pad ++ s) = s.
Proof.
  intros Hpad Hs. unfold trim.
  rewrite (trimStart_skip pad s Hpad), (trimStart_of_trimmed s Hs).
  by apply trimEnd_of_trimmed.
Qed.

Lemma trim_within s c : c ∈ trim s -> c ∈ s.
Proof.
  intros H. destruct (trim_parts s) as (l & r & Hs & _). rewrite Hs.
  apply elem_of_app. right. apply elem_of_app. by left.
Qed.

Lemma trim_empty_ws s : trim s = [] -> forallb is_ws s = true.
Proof.
  intros H. destruct (trim_parts s) as (l & r & Hs & Hl & Hr).
  rewrite Hs, H. simpl. by rewrite forallb_app, Hl, Hr.
Qed.

Lemma tokens_no_comma input : Forall (fun token => COMMA ∉ token) (tokens input).
Proof.
  unfold tokens. apply List.Forall_forall. intros t Ht.
  apply List.filter_In in Ht as [Ht _].
  apply List.in_map_iff in Ht as [p [<- Hp]].
  intros Hin%trim_within.
  apply list_elem_of_In in Hp.
  by apply (proj1 (Forall_forall _ _) (split_no_sep COMMA input)) in Hp.
Qed.

Lemma split_within sep s piece c : piece ∈ split sep s -> c ∈ piece -> c ∈ s.
Proof.
  revert piece. induction s as [|x s IH]; intros piece Hp Hc; simpl in Hp.
  - apply list_elem_of_singleton in Hp as ->. by apply elem_of_nil in Hc.
  - destruct (N.eqb_spec x sep) as [->|Hne].
    + apply elem_of_cons in Hp as [->|Hp]; [by apply elem_of_nil in Hc|].
      apply elem_of_cons. right. by apply (IH piece).
    + pose proof (split_nonempty sep s) as Hs.
      destruct (split sep s) as [|q rest]; [done|].
      apply elem_of_cons in Hp as [->|Hp].
      * apply elem_of_cons in Hc as [->|Hc]; [by apply elem_of_cons; left|].
        apply elem_of_cons. right. apply (IH q); [by apply elem_of_cons; left | done].
      * apply elem_of_cons. right. apply (IH piece); [|done].
        apply elem_of_cons. by right.
Qed.

Lemma join_within (sep : N) pieces c :
  c ∈ join [sep] pieces -> c = sep \/ exists piece, piece ∈ pieces /\ c ∈ piece.
Proof.
  induction pieces as [|p rest IH]; intros Hc; [by apply elem_of_nil in Hc|].
  destruct rest as [|q rest].
  - right. exists p. split; [by apply elem_of_cons; left | done].
  - rewrite join_cons in Hc. apply elem_of_app in Hc as [Hc|Hc].
    + right. exists p. split; [by apply elem_of_cons; left | done].
    + apply elem_of_cons in Hc as [->|Hc]; [by left|].
      destruct (IH Hc) as [->|(piece & Hp & Hcp)]; [by left|].
      right. exists piece. split; [by apply elem_of_cons; right | done].
Qed.

Lemma filter_none {A} (f : A -> bool) (l : list A) :
  List.filter f l = [] <-> Forall (fun x => f x = false) l.
Proof.
  induction l as [|x l IH]; simpl; [by split|].
  destruct (f x) eqn:E.
  - split; [done|]. intros H. inversion H; congruence.
  - rewrite IH. split; [by constructor | by inversion 1].
Qed.

(** X1.  An answer parses to no token exactly when it consists of commas
    and white space only (the empty answer included). *)
Theorem tokens_empty_iff input :
  tokens input = [] <-> Forall (fun c => is_ws c = true \/ c = COMMA) input.
Proof.
  unfold tokens. rewrite filter_none. split.
  - intros Hall. apply Forall_forall. intros c Hc.
    rewrite <- (join_split COMMA input) in Hc.
    apply join_within in Hc as [->|(piece & Hp & Hcp)]; [by right|].
    left. assert (trim piece = []) as Ht.
    { assert (Boolean (trim piece) = false) as Hb.
      { apply (proj1 (Forall_forall _ _) Hall).
        apply list_elem_of_In, List.in_map. by apply list_elem_of_In. }
      by destruct (trim piece). }
    apply trim_empty_ws in Ht.
    apply (proj1 (List.forallb_forall _ _) Ht). by apply list_elem_of_In.
  - intros Hall. apply Forall_forall. intros t Ht.
    apply list_elem_of_In, List.in_map_iff in Ht as (piece & <- & Hp).
    apply list_elem_of_In in Hp. rewrite trim_ws; [done|].
    apply List.forallb_forall. intros c Hc. apply list_elem_of_In in Hc.
    pose proof (split_within _ _ _ _ Hp Hc) as Hin.
    apply (proj1 (Forall_forall _ _) Hall) in Hin as [Hws| ->]; [done|].
    by apply (proj1 (Forall_forall _ _) (split_no_sep COMMA input)) in Hp.
Qed.

Lemma join_prepend sep pad q rest :
  pad ++ join sep (q :: rest) = join sep ((pad ++ q) :: rest).
Proof. destruct rest as [|q' rest]; [done|]. by rewrite !join_cons, app_assoc. Qed.

Lemma split_join_padded pad first rest :
  Forall (fun p => COMMA ∉ p) (first :: rest) -> COMMA ∉ pad ->
  split COMMA (join (COMMA :: pad) (first :: rest))
  = first :: List.map (fun p => pad ++ p) rest.
Proof.
  revert first. induction rest as [|q rest IH]; intros first Hall Hpad.
  - simpl. apply split_piece. by inversion Hall.
  - inversion Hall as [|? ? Hf Hrest]; subst.
    inversion Hrest as [|? ? Hq Hrest']; subst.
    rewrite join_cons, <- app_comm_cons, split_app by done.
    f_equal. rewrite join_prepend, IH; [done | | done].
    constructor; [|done]. intros [H|H]%elem_of_app; done.
Qed.

(** X2.  Parsing is stable: joining the tokens of an answer with a comma,
    or with a comma and white space as the console line of the [.env] file
    prints them, and parsing again gives the same tokens. *)
Theorem tokens_stable input pad :
  forallb is_ws pad = true ->
  tokens (join (COMMA :: pad) (tokens input)) = tokens input.
Proof.
  intros Hpad.
  pose proof (tokens_spec input) as Hspec.
  pose proof (tokens_no_comma input) as Hcomma.
  destruct (tokens input) as [|first rest] eqn:E; [done|].
  assert (COMMA ∉ pad) as Hp.
  { intros Hin%list_elem_of_In.
    by apply (proj1 (List.forallb_forall _ _) Hpad) in Hin. }
  unfold tokens. rewrite split_join_padded by done.
  simpl List.map. rewrite List.map_map.
  inversion Hspec as [|? ? [Hne Ht] Hrest]; subst.
  rewrite (trim_of_trimmed first Ht).
  assert (List.map (fun p => trim (pad ++ p)) rest = rest) as Hmap.
  { rewrite <- (List.map_id rest) at 2. apply List.map_ext_in.
    intros t Hin%list_elem_of_In.
    apply (proj1 (Forall_forall _ _) Hrest) in Hin as [_ Htr].
    by apply trim_padded. }
  rewrite Hmap. apply filter_all. constructor; [by apply Boolean_true|].
  eapply Forall_impl; [exact Hrest|]. intros t [Hn _]. by apply Boolean_true.
Qed.

Lemma tokens_stable_witness :
  forallb is_ws (js " ") = true /\
  tokens (join (COMMA :: js " ") (tokens (js " cors ,, dotenv,cors")))
  = tokens (js " cors ,, dotenv,cors").
Proof.
  assert (forallb is_ws (js " ") = true) as H by reflexivity.
  split; [exact H|].
  exact (tokens_stable (js " cors ,, dotenv,cors") (js " ") H).
Defined.

(** ** The project name *)



(** X3.  With no project name, or with the name [.], the project path is the
    working directory itself, so the first [mkdirSync] finds it there: the
    run ends with [EEXIST] and has done nothing. *)
Theorem blank_project_name_aborts h a w :
  projectName a = [] \/ projectName a = js "." ->
  sound_disk (files w) ->
  is_Some (files w !! cwd h) ->
  projectPath h a = cwd h /\
  run h a w = (Thrown (FsError EEXIST (cwd h)), w).
Proof.
  intros Hname Hsound [n Hn].
  assert (projectPath h a = cwd h) as Hpath.
  { unfold projectPath, path_join. by destruct Hname as [-> | ->]. }
  split; [done|].
  unfold run, scaffold, bind, mkdirSync. rewrite Hpath.
  rewrite (walk_reachable (files w) (cwd h)).
  - by rewrite Hn.
  - apply sound_reachable; [done | by rewrite Hn].
Qed.

Lemma blank_project_name_aborts_witness :
  ((projectName Demo.nameless = [] \/ projectName Demo.nameless = js ".") /\
   sound_disk (files Demo.fresh) /\
   is_Some (files Demo.fresh !! cwd Demo.machine)) /\
  run Demo.machine Demo.nameless Demo.fresh
  = (Thrown (FsError EEXIST (cwd Demo.machine)), Demo.fresh).
Proof.
  assert (projectName Demo.nameless = [] \/ projectName Demo.nameless = js ".")
    as H1 by (left; reflexivity).
  assert (sound_disk (files Demo.fresh)) as H2
    by (apply (bool_decide_unpack (sound_disk _)); vm_compute; exact I).
  assert (is_Some (files Demo.fresh !! cwd Demo.machine)) as H3
    by (exists DirNode; vm_compute; reflexivity).
  split; [exact (conj H1 (conj H2 H3))|].
  exact (proj2 (blank_project_name_aborts Demo.machine Demo.nameless Demo.fresh
                  H1 H2 H3)).
Defined.



(** ** What a run does, and in which order *)

(** Splitting a plan into its events, for a property of single events. *)
Ltac plan_blocks :=
  unfold plan, plan_before, scaffold_plan, write_env_plan, write_templates_plan,
    install_plan, write_tsconfig_plan, setup_lint_plan, init_git_plan,
    add_start_script_plan, print_hints_plan, on, folders;
  simpl List.map;
  rewrite ?(path_join_name _ (js _)) by reflexivity;
  project_paths.

Ltac each_event tac :=
  repeat apply Forall_app_2; repeat case_match;
  repeat first
    [ apply Forall_nil_2
    | apply Forall_cons_2; [tac|]
    | apply List.Forall_forall;
      let ev := fresh "ev" in let x := fresh "x" in
      intros ev [x [<- _]]%List.in_map_iff; tac ].

Section Order.
Context (h : host) (a : answers) (w : world).

(** An event of a run that is not a failed command sits in the plan, after
    the same events. *)
Lemma performed_prefix_plan pre ev post :
  performed h a w = pre ++ ev :: post -> quiet ev ->
  exists text post1, plan h a text = pre ++ ev :: post1.
Proof.
  intros Hperf Hquiet.
  destruct (performed_shape h a w)
    as (text & did & rest & tail & Hplan & Hdone & Htail & _).
  rewrite Hperf in Hdone.
  apply before_tail in Hdone as (post1 & -> & _).
  - exists text, (post1 ++ rest). by rewrite Hplan, <- app_assoc.
  - destruct Htail as [->|(c & d & st & r & Hst & -> & _)]; [by left|].
    right. eexists. split; [done|]. intros <-. by apply Hst.
Qed.

(** Every event of a run is an event of the plan, but for the status of a
    failed command. *)
Lemma performed_like_plan ev :
  ev ∈ performed h a w ->
  exists text ev', ev' ∈ plan h a text /\ place ev = place ev'.
Proof.
  intros Hin.
  destruct (performed_shape h a w)
    as (text & did & rest & tail & Hplan & Hdone & Htail & _).
  exists text. rewrite Hdone in Hin. apply elem_of_app in Hin as [Hin|Hin].
  - exists ev. split; [|done]. rewrite Hplan. apply elem_of_app. by left.
  - destruct Htail as [->|(c & d & st & r & Hst & -> & -> & _)].
    + by apply elem_of_nil in Hin.
    + apply list_elem_of_singleton in Hin as ->. exists (EExec c d 0).
      split; [|done]. rewrite Hplan. apply elem_of_app. right.
      apply elem_of_cons. by left.
Qed.

Lemma execs_app evs1 evs2 : execs (evs1 ++ evs2) = execs evs1 ++ execs evs2.
Proof. apply omap_app. Qed.

Lemma logs_app evs1 evs2 : logs (evs1 ++ evs2) = logs evs1 ++ logs evs2.
Proof. apply omap_app. Qed.

Lemma execs_logs lines : execs (List.map ELog lines) = [].
Proof. induction lines as [|l lines IH]; [done | exact IH]. Qed.

Lemma logs_logs lines : logs (List.map ELog lines) = lines.
Proof. induction lines as [|l lines IH]; [done|]. simpl. f_equal. exact IH. Qed.

Lemma plan_execs text : execs (plan h a text) = command_list a.
Proof.
  unfold plan, plan_before, scaffold_plan, write_env_plan, write_templates_plan,
    install_plan, write_tsconfig_plan, setup_lint_plan, init_git_plan,
    add_start_script_plan, print_hints_plan, on, command_list, devDeps.
  rewrite !execs_app, !execs_logs.
  destruct (isTS a), (addEnv a), (envVars a), (useDocker a), (useESLint a),
    (initGit a), (patched h a text); reflexivity.
Qed.

Lemma plan_logs text : logs (plan h a text) = console_lines a.
Proof.
  unfold plan, plan_before, scaffold_plan, write_env_plan, write_templates_plan,
    install_plan, write_tsconfig_plan, setup_lint_plan, init_git_plan,
    add_start_script_plan, print_hints_plan, on, console_lines, devDeps.
  rewrite !logs_app, !logs_logs.
  assert (logs (List.map (fun folder => EMkdir (path_join (projectPath h a) folder))
                         folders) = []) as -> by reflexivity.
  destruct (isTS a), (addEnv a), (envVars a), (useDocker a), (useESLint a),
    (initGit a), (patched h a text); reflexivity.
Qed.

End Order.

(** X5.  The commands a run starts are an initial part of the list
    [npm init -y], [npm install] of the dependencies (never skipped: the
    list always holds [express]), [npm install -D] of the TypeScript tools
    for TypeScript only, [npm install -D] of the lint tools when asked for,
    and [git init], [git add .], [git commit] when asked for; a run that
    returns has started the whole list, in this order. *)
Theorem commands_in_order h a w :
  execs (performed h a w) `prefix_of` command_list a /\
  (forall x, fst (run h a w) = Returned x ->
     execs (performed h a w) = command_list a) /\
  command_list a
  = [npm_init; npm_install (deps a)]
    ++ match language a with
       | TypeScript =>
           [js "npm install -D typescript @types/node @types/express ts-node-dev"]
       | JavaScript => []
       end
    ++ (if useESLint a then [npm_install_dev (lintDeps a)] else [])
    ++ (if initGit a then [git_init; git_add; git_commit] else []).
Proof.
  destruct (performed_shape h a w)
    as (text & did & rest & tail & Hplan & Hdone & Htail & Hret).
  pose proof (plan_execs h a text) as Hex. rewrite Hplan, execs_app in Hex.
  split; [|split].
  - rewrite Hdone, execs_app, <- Hex.
    destruct Htail as [->|(c & d & st & r & _ & -> & -> & _)].
    + simpl. rewrite app_nil_r. exists (execs rest). reflexivity.
    + simpl. apply prefix_app, prefix_cons, prefix_nil.
  - intros x Hx. destruct (Hret x Hx) as [-> ->].
    rewrite Hdone, execs_app, <- Hex. done.
  - unfold command_list, devDeps, isTS. by destruct (language a).
Qed.

(** X6.  The console lines of a run are an initial part of: the line of the
    [.env] file when one was asked for, the line of the git repository when
    one was asked for, the line that reports the project as created, the
    [npm start] hint and the hints of the language; a run that returns has
    printed them all. *)
Theorem console_lines_in_order h a w :
  logs (performed h a w) `prefix_of` console_lines a /\
  (forall x, fst (run h a w) = Returned x ->
     logs (performed h a w) = console_lines a).
Proof.
  destruct (performed_shape h a w)
    as (text & did & rest & tail & Hplan & Hdone & Htail & Hret).
  pose proof (plan_logs h a text) as Hex. rewrite Hplan, logs_app in Hex.
  split.
  - rewrite Hdone, logs_app, <- Hex.
    destruct Htail as [->|(c & d & st & r & _ & -> & -> & _)];
      simpl; rewrite app_nil_r; by apply prefix_app_r.
  - intros x Hx. destruct (Hret x Hx) as [-> ->].
    rewrite Hdone, logs_app, <- Hex. done.
Qed.

Lemma plan_confined h a text :
  Forall (fun ev => forall p, place ev = Some p -> projectPath h a `prefix_of` p)
         (plan h a text).
Proof.
  plan_blocks.
  each_event ltac:(simpl; intros p [= <-];
                   first [ reflexivity | by apply prefix_app_r ]).
  all: simpl; intros p [=].
Qed.

(** X7.  A run stays in its project: every directory it creates, every file
    it writes or reads and the directory of every command it starts is the
    project path or lies below it. *)
Theorem run_confined_to_project h a w :
  Forall (fun ev => forall p, place ev = Some p -> projectPath h a `prefix_of` p)
         (performed h a w).
Proof.
  apply Forall_forall. intros ev Hin p Hp.
  apply performed_like_plan in Hin as (text & ev' & Hin & Hplace).
  rewrite Hplace in Hp.
  by apply (proj1 (Forall_forall _ _) (plan_confined h a text) ev' Hin).
Qed.

(** ** The configuration files *)

Ltac no_write := simpl; try tauto; apart.

Lemma write_in_plan h a w q pre content post :
  performed h a w = pre ++ EWrite q content :: post ->
  exists text post1, plan h a text = pre ++ EWrite q content :: post1.
Proof. intros H. by apply (performed_prefix_plan h a w pre _ post). Qed.

Lemma placed {A} (P : A -> Prop) (l1 l2 before after : list A) (x x' : A) :
  before ++ [x'] ++ after = l1 ++ x :: l2 ->
  P x -> Forall (fun y => ~ P y) before -> Forall (fun y => ~ P y) after ->
  l1 = before /\ x = x'.
Proof.
  intros H Hx Hb Ha. symmetry in H.
  by destruct (unique_split P l1 l2 before after x x' H Hx Hb Ha) as (-> & -> & _).
Qed.

Lemma absent {A} (P : A -> Prop) (l1 l2 before after : list A) (x : A) :
  before ++ [] ++ after = l1 ++ x :: l2 ->
  P x -> Forall (fun y => ~ P y) before -> Forall (fun y => ~ P y) after -> False.
Proof.
  intros H Hx Hb Ha.
  pose proof (Forall_app_2 _ _ _ Hb Ha) as Hno. simpl in H. rewrite H in Hno.
  apply Forall_app in Hno as [_ Hno]. inversion Hno as [|? ? Hw _]; subst.
  by apply Hw.
Qed.

Section Tsconfig.
Context (h : host) (a : answers).

Lemma before_tsconfig :
  Forall (fun ev => ~ is_write_to (projectPath h a ++ [js "tsconfig.json"]) ev)
         (scaffold_plan h a ++ write_env_plan h a ++ write_templates_plan h a
          ++ install_plan h a).
Proof. plan_blocks. each_event no_write. Qed.

Lemma after_tsconfig text :
  Forall (fun ev => ~ is_write_to (projectPath h a ++ [js "tsconfig.json"]) ev)
         (setup_lint_plan h a ++ init_git_plan h a
          ++ add_start_script_plan h a text ++ print_hints_plan a).
Proof. plan_blocks. each_event no_write. Qed.

Lemma plan_around_tsconfig text :
  plan h a text
  = (scaffold_plan h a ++ write_env_plan h a ++ write_templates_plan h a
     ++ install_plan h a)
    ++ write_tsconfig_plan h a
    ++ (setup_lint_plan h a ++ init_git_plan h a
        ++ add_start_script_plan h a text ++ print_hints_plan a).
Proof. unfold plan, plan_before. by rewrite <- !app_assoc. Qed.

End Tsconfig.

(** X8.  [tsconfig.json] is written for TypeScript only, with the printed
    compiler options, and only after [npm init], the install of the
    dependencies and the install of the TypeScript tools have all exited
    with status 0: what the run did before is the scaffold, the [.env] and
    template files, and these three commands. *)
Theorem tsconfig_after_installs h a w pre content post :
  performed h a w
  = pre ++ EWrite (projectPath h a ++ [js "tsconfig.json"]) content :: post ->
  language a = TypeScript /\
  content = JSON_stringify h tsconfig /\
  pre = scaffold_plan h a ++ write_env_plan h a ++ write_templates_plan h a
        ++ [EExec npm_init (projectPath h a) 0;
            EExec (npm_install (deps a)) (projectPath h a) 0;
            EExec (js "npm install -D typescript @types/node @types/express ts-node-dev")
                  (projectPath h a) 0].
Proof.
  intros Hperf. apply write_in_plan in Hperf as (text & post1 & Hplan).
  rewrite plan_around_tsconfig in Hplan. unfold write_tsconfig_plan, on in Hplan.
  rewrite (inProject_name _ _ "tsconfig.json") in Hplan by reflexivity.
  destruct (isTS a) eqn:Hts.
  - apply (placed (is_write_to (projectPath h a ++ [js "tsconfig.json"])))
      in Hplan as [-> [= ->]];
      [|done|apply before_tsconfig|apply after_tsconfig].
    split; [unfold isTS in Hts; by destruct (language a)|]. split; [done|].
    unfold install_plan, devDeps, on. rewrite Hts. reflexivity.
  - exfalso.
    by apply (absent (is_write_to (projectPath h a ++ [js "tsconfig.json"])))
      in Hplan; [|done|apply before_tsconfig|apply after_tsconfig].
Qed.

Lemma tsconfig_after_installs_witness :
  performed Demo.machine Demo.full Demo.fresh
  = take 14 (performed Demo.machine Demo.full Demo.fresh)
    ++ EWrite (projectPath Demo.machine Demo.full ++ [js "tsconfig.json"])
              (Demo.stringify tsconfig)
    :: drop 15 (performed Demo.machine Demo.full Demo.fresh) /\
  language Demo.full = TypeScript.
Proof.
  assert (performed Demo.machine Demo.full Demo.fresh
          = take 14 (performed Demo.machine Demo.full Demo.fresh)
            ++ EWrite (projectPath Demo.machine Demo.full ++ [js "tsconfig.json"])
                      (Demo.stringify tsconfig)
            :: drop 15 (performed Demo.machine Demo.full Demo.fresh)) as H
    by (vm_compute; reflexivity).
  split; [exact H|].
  exact (proj1 (tsconfig_after_installs _ _ _ _ _ _ H)).
Defined.

Section Lint.
Context (h : host) (a : answers).

Lemma before_lint name :
  name = js ".eslintrc.json" \/ name = js ".prettierrc" ->
  Forall (fun ev => ~ is_write_to (projectPath h a ++ [name]) ev)
         (scaffold_plan h a ++ write_env_plan h a ++ write_templates_plan h a
          ++ install_plan h a ++ write_tsconfig_plan h a).
Proof. intros [-> | ->]; plan_blocks; each_event no_write. Qed.

Lemma after_lint name text :
  name = js ".eslintrc.json" \/ name = js ".prettierrc" ->
  Forall (fun ev => ~ is_write_to (projectPath h a ++ [name]) ev)
         (init_git_plan h a ++ add_start_script_plan h a text
          ++ print_hints_plan a).
Proof. intros [-> | ->]; plan_blocks; each_event no_write. Qed.

Lemma plan_around_lint text :
  plan h a text
  = (scaffold_plan h a ++ write_env_plan h a ++ write_templates_plan h a
     ++ install_plan h a ++ write_tsconfig_plan h a)
    ++ setup_lint_plan h a
    ++ (init_git_plan h a ++ add_start_script_plan h a text
        ++ print_hints_plan a).
Proof. unfold plan, plan_before. by rewrite <- !app_assoc. Qed.

End Lint.

(** X9.  [.eslintrc.json] is written only when linting was asked for, with
    the printed configuration of the language, and right after the install
    of the lint tools has exited with status 0; [.prettierrc] is written
    right after it, as an empty object.  The parser the configuration names
    is one of the packages that install names. *)
Theorem lint_config_after_install h a w pre content post :
  performed h a w
  = pre ++ EWrite (projectPath h a ++ [js ".eslintrc.json"]) content :: post ->
  useESLint a = true /\
  content = JSON_stringify h (eslintConfig a) /\
  (exists before,
     pre = before ++ [EExec (npm_install_dev (lintDeps a)) (projectPath h a) 0]) /\
  (forall pre' content' post',
     performed h a w
     = pre' ++ EWrite (projectPath h a ++ [js ".prettierrc"]) content' :: post' ->
     content' = js "{}" /\
     pre' = pre ++ [EWrite (projectPath h a ++ [js ".eslintrc.json"]) content]) /\
  (forall props name,
     eslintConfig a = JObj props ->
     get_prop (js "parser") props = Some (JStr name) ->
     name ∈ lintDeps a).
Proof.
  intros Hperf.
  set (A := scaffold_plan h a ++ write_env_plan h a ++ write_templates_plan h a
            ++ install_plan h a ++ write_tsconfig_plan h a).
  set (install := EExec (npm_install_dev (lintDeps a)) (projectPath h a) 0).
  set (W := EWrite (projectPath h a ++ [js ".eslintrc.json"])
                   (JSON_stringify h (eslintConfig a))).
  set (Wp := EWrite (projectPath h a ++ [js ".prettierrc"]) (js "{}")).
  assert (forall text,
            plan h a text
            = A ++ (if useESLint a then [install; W; Wp] else [])
              ++ (init_git_plan h a ++ add_start_script_plan h a text
                  ++ print_hints_plan a)) as Hshape.
  { intros text. rewrite plan_around_lint. unfold setup_lint_plan, on.
    by rewrite (inProject_name _ _ ".eslintrc.json"),
      (inProject_name _ _ ".prettierrc") by reflexivity. }
  assert (pre = A ++ [install] /\ content = JSON_stringify h (eslintConfig a)
          /\ useESLint a = true) as (Hpre & Hcontent & Hlint).
  { apply write_in_plan in Hperf as (text & post1 & Hplan).
    rewrite Hshape in Hplan. destruct (useESLint a).
    - assert ((A ++ [install]) ++ [W]
              ++ ([Wp] ++ init_git_plan h a ++ add_start_script_plan h a text
                  ++ print_hints_plan a)
              = pre ++ EWrite (projectPath h a ++ [js ".eslintrc.json"]) content
                :: post1) as Heq.
      { rewrite <- Hplan, <- !app_assoc. reflexivity. }
      apply (placed (is_write_to (projectPath h a ++ [js ".eslintrc.json"])))
        in Heq as [-> [= ->]]; [done|done| |].
      + apply Forall_app_2; [apply before_lint; by left|].
        repeat constructor. simpl. tauto.
      + apply Forall_app_2; [|apply after_lint; by left].
        repeat constructor. unfold Wp. no_write.
    - exfalso.
      by apply (absent (is_write_to (projectPath h a ++ [js ".eslintrc.json"])))
        in Hplan; [|done|apply before_lint; by left|apply after_lint; by left]. }
  split; [done|]. split; [done|]. split; [by exists A|]. split.
  - intros pre' content' post' Hperf'.
    apply write_in_plan in Hperf' as (text & post1 & Hplan).
    rewrite Hshape, Hlint in Hplan.
    assert ((A ++ [install; W]) ++ [Wp]
            ++ (init_git_plan h a ++ add_start_script_plan h a text
                ++ print_hints_plan a)
            = pre' ++ EWrite (projectPath h a ++ [js ".prettierrc"]) content'
              :: post1) as Heq.
    { rewrite <- Hplan, <- !app_assoc. reflexivity. }
    apply (placed (is_write_to (projectPath h a ++ [js ".prettierrc"])))
      in Heq as [-> [= ->]]; [|done| |apply after_lint; by right].
    + split; [done|]. rewrite Hpre, Hcontent, <- !app_assoc. reflexivity.
    + apply Forall_app_2; [apply before_lint; by right|].
      repeat constructor; [simpl; tauto | unfold W; no_write].
  - intros props name Hcfg Hparser. unfold eslintConfig, lintDeps in *.
    destruct (isTS a); injection Hcfg as <-; vm_compute in Hparser; [|done].
    injection Hparser as <-. apply (bool_decide_unpack _). vm_compute. exact I.
Qed.

Lemma lint_config_after_install_witness :
  performed Demo.machine Demo.full Demo.fresh
  = take 16 (performed Demo.machine Demo.full Demo.fresh)
    ++ EWrite (projectPath Demo.machine Demo.full ++ [js ".eslintrc.json"])
              (Demo.stringify (eslintConfig Demo.full))
    :: drop 17 (performed Demo.machine Demo.full Demo.fresh) /\
  useESLint Demo.full = true.
Proof.
  assert (performed Demo.machine Demo.full Demo.fresh
          = take 16 (performed Demo.machine Demo.full Demo.fresh)
            ++ EWrite (projectPath Demo.machine Demo.full ++ [js ".eslintrc.json"])
                      (Demo.stringify (eslintConfig Demo.full))
            :: drop 17 (performed Demo.machine Demo.full Demo.fresh)) as H
    by (vm_compute; reflexivity).
  split; [exact H|].
  exact (proj1 (lint_config_after_install _ _ _ _ _ _ H)).
Defined.

(** ** A run in which nothing fails *)

Lemma prefix_shorter (q p : path) x : q `prefix_of` p -> p ++ [x] <> q.
Proof.
  intros [k ->] H. apply (f_equal length) in H.
  rewrite !length_app in H. simpl in H. lia.
Qed.

Lemma replay_logs (h : host) (lines : list jsstring) (d : disk) : replay h (List.map ELog lines) d = d.
Proof. induction lines as [|l lines IH]; [done | exact IH]. Qed.

Section Success.
Context (h : host) (a : answers).

Lemma succeeds_bind {A B} (m : M A) (k : A -> M B) (I Q R : disk -> Prop) :
  succeeds I m Q -> (forall x, succeeds Q (k x) R) -> succeeds I (bind m k) R.
Proof.
  intros Hm Hk w HI. destruct (Hm w HI) as (x & w1 & Hx & HQ).
  destruct (Hk x w1 HQ) as (y & w2 & Hy & HR).
  exists y, w2. by rewrite (bind_returned _ _ _ _ _ Hx).
Qed.

Lemma succeeds_ret {A} (x : A) (I : disk -> Prop) : succeeds I (ret x) I.
Proof. intros w HI. by exists x, w. Qed.

Lemma succeeds_when (b : bool) (m : M unit) (I : disk -> Prop) :
  (b = true -> succeeds I m I) -> succeeds I (when b m) I.
Proof.
  destruct b; simpl; [intros H; by apply H | intros _; apply succeeds_ret].
Qed.

Lemma succeeds_log (line : jsstring) (I : disk -> Prop) : succeeds I (console_log line) I.
Proof.
  intros w HI. by exists tt, (World (files w) (events w ++ [ELog line])).
Qed.

Lemma succeeds_logs (lines : list jsstring) (I : disk -> Prop) :
  succeeds I (forEach lines console_log) I.
Proof.
  induction lines as [|l lines IH]; simpl; [apply succeeds_ret|].
  eapply succeeds_bind; [apply succeeds_log | by intros _].
Qed.

Lemma workable_reachable (d : disk) (name : jsstring) :
  workable h a d -> reachable d (projectPath h a ++ [name]).
Proof.
  intros [Hdirs _] q r Hqr Hq Hr.
  destruct r as [|x r _] using rev_ind; [done|].
  rewrite app_assoc in Hqr. apply app_inj_tail in Hqr as [Hqr _].
  apply Hdirs; [by exists r | done].
Qed.

Lemma workable_insert_file (d : disk) (name content : jsstring) :
  workable h a d ->
  workable h a (<[projectPath h a ++ [name] := FileNode content]> d).
Proof.
  intros [Hdirs Hnames]. split.
  - intros q Hq Hne. rewrite lookup_insert_ne by by apply prefix_shorter.
    by apply Hdirs.
  - intros name' Hin. destruct (decide (name = name')) as [->|Hne].
    + by rewrite lookup_insert_eq.
    + rewrite lookup_insert_ne; [by apply Hnames|].
      intros H. apply app_inv_head in H. by injection H.
Qed.

Lemma workable_insert_dir (d : disk) (name : jsstring) :
  name ∉ file_names -> workable h a d ->
  workable h a (<[projectPath h a ++ [name] := DirNode]> d).
Proof.
  intros Hname [Hdirs Hnames]. split.
  - intros q Hq Hne. rewrite lookup_insert_ne by by apply prefix_shorter.
    by apply Hdirs.
  - intros name' Hin. rewrite lookup_insert_ne; [by apply Hnames|].
    intros H. apply app_inv_head in H. injection H as ->. by apply Hname.
Qed.

Hypothesis Hobliging : obliging h a.

Lemma manifest_ready_insert (d : disk) (name : jsstring) (n : node) :
  name <> js "package.json" -> manifest_ready h a d ->
  manifest_ready h a (<[projectPath h a ++ [name] := n]> d).
Proof.
  intros Hname (text & Hl & Hp). exists text. split; [|done].
  project_paths. rewrite lookup_insert_ne; [done|].
  intros H. apply app_inv_head in H. by injection H.
Qed.

Lemma succeeds_write (name content : jsstring) (ready : bool) :
  name ∈ file_names -> name <> js "package.json" ->
  succeeds (midway h a ready)
           (writeFileSync h (projectPath h a ++ [name]) content)
           (midway h a ready).
Proof.
  intros Hin Hne w [Hw Hm]. eexists tt, _. split.
  - apply writeFileSync_ok;
      [by apply workable_reachable | by apply (proj2 Hw)|].
    apply Hobliging. unfold file_names in Hin. unfold project_places.
    rewrite !elem_of_cons in Hin. rewrite !elem_of_cons.
    destruct Hin as [->|[->|[->|[->|[->|[->|[->|Hin]]]]]]];
      [tauto..|by apply elem_of_nil in Hin].
  - simpl. split; [by apply workable_insert_file|].
    intros Hr. by apply manifest_ready_insert, Hm.
Qed.

Lemma command_listed (command : jsstring) :
  command = npm_init \/ command = npm_install (deps a) \/
  (isTS a = true /\ command = npm_install_dev (devDeps a)) \/
  (useESLint a = true /\ command = npm_install_dev (lintDeps a)) \/
  (initGit a = true /\
   (command = git_init \/ command = git_add \/ command = git_commit)) ->
  command ∈ command_list a.
Proof.
  unfold command_list. rewrite !elem_of_app.
  intros [->|[->|[[Hts ->]|[[Hl ->]|[Hg Hc]]]]].
  - left. apply list_elem_of_here.
  - left. apply list_elem_of_further, list_elem_of_here.
  - right. left. rewrite Hts. apply list_elem_of_here.
  - right. right. left. rewrite Hl. apply list_elem_of_here.
  - right. right. right. rewrite Hg. destruct Hc as [->|[->| ->]].
    + apply list_elem_of_here.
    + apply list_elem_of_further, list_elem_of_here.
    + apply list_elem_of_further, list_elem_of_further, list_elem_of_here.
Qed.

Lemma succeeds_print_hints :
  succeeds (fun _ => True) (print_hints a) (fun _ => True).
Proof.
  unfold print_hints.
  eapply succeeds_bind; [apply succeeds_log | intros _; apply succeeds_logs].
Qed.

Lemma succeeds_write_env :
  well_prompted a ->
  succeeds (midway h a false) (write_env h a) (midway h a false).
Proof.
  intros Hp. unfold write_env. apply succeeds_when. intros Hadd.
  destruct (proj2 Hp Hadd) as [s Hs]. rewrite Hs.
  eapply succeeds_bind; [apply (succeeds_ret s) | intros s'].
  rewrite (inProject_name _ _ ".env") by reflexivity.
  eapply succeeds_bind; [|intros _; apply succeeds_log].
  apply succeeds_write; [|done]. apply (bool_decide_unpack _). by vm_compute.
Qed.

Lemma succeeds_write_templates :
  succeeds (midway h a false) (write_templates h a) (midway h a false).
Proof.
  unfold write_templates. project_paths.
  eapply succeeds_bind; [apply succeeds_when; intros _ | intros _].
  all: apply succeeds_write; [|done]; apply (bool_decide_unpack _); by vm_compute.
Qed.

Lemma succeeds_write_tsconfig (ready : bool) :
  succeeds (midway h a ready) (write_tsconfig h a) (midway h a ready).
Proof.
  unfold write_tsconfig. project_paths. apply succeeds_when. intros _.
  apply succeeds_write; [|done]. apply (bool_decide_unpack _). by vm_compute.
Qed.

Hypothesis Hcoop : cooperative h a.

Lemma succeeds_exec (command : jsstring) (ready : bool) :
  command ∈ command_list a ->
  succeeds (midway h a ready) (execSync h command (projectPath h a))
           (midway h a ready).
Proof.
  intros Hin w [Hw Hm]. unfold execSync.
  pose proof (commands_succeed _ _ Hcoop command (files w) Hin Hw) as Hz.
  pose proof (project_stays _ _ Hcoop command (files w) Hin Hw) as Hw'.
  pose proof (manifest_stays _ _ Hcoop command (files w) Hin Hw) as Hm'.
  destruct (spawn h command (projectPath h a) (files w)) as [d status].
  simpl in *. subst status. eexists tt, _. split; [reflexivity|]. simpl.
  split; [done|]. intros Hr. by apply Hm', Hm.
Qed.

Lemma succeeds_init :
  succeeds (midway h a false) (execSync h npm_init (projectPath h a))
           (midway h a true).
Proof.
  assert (npm_init ∈ command_list a) as Hin by (apply command_listed; by left).
  intros w [Hw _]. unfold execSync.
  pose proof (commands_succeed _ _ Hcoop npm_init (files w) Hin Hw) as Hz.
  pose proof (project_stays _ _ Hcoop npm_init (files w) Hin Hw) as Hw'.
  pose proof (init_writes_manifest _ _ Hcoop (files w) Hw) as Hm'.
  destruct (spawn h npm_init (projectPath h a) (files w)) as [d status].
  simpl in *. subst status. eexists tt, _. split; [reflexivity|]. by simpl.
Qed.

Lemma succeeds_install :
  succeeds (midway h a false) (install h a) (midway h a true).
Proof.
  unfold install.
  eapply succeeds_bind; [apply succeeds_init | intros _].
  eapply succeeds_bind; [apply succeeds_when; intros _ | intros _].
  - apply succeeds_exec, command_listed. right. by left.
  - apply succeeds_when. intros Hdev.
    apply succeeds_exec, command_listed. right. right. left. split; [|done].
    unfold devDeps in Hdev. by destruct (isTS a).
Qed.

Lemma succeeds_setup_lint :
  succeeds (midway h a true) (setup_lint h a) (midway h a true).
Proof.
  unfold setup_lint. project_paths. apply succeeds_when. intros Hl.
  eapply succeeds_bind; [|intros _].
  { apply succeeds_exec, command_listed. right. right. right. left. by split. }
  eapply succeeds_bind; [|intros _].
  all: apply succeeds_write; [|done]; apply (bool_decide_unpack _); by vm_compute.
Qed.

Lemma succeeds_init_git :
  succeeds (midway h a true) (init_git h a) (midway h a true).
Proof.
  unfold init_git.
  eapply succeeds_bind; [|intros _; apply succeeds_log].
  apply succeeds_when. intros Hg.
  eapply succeeds_bind; [|intros _].
  { apply succeeds_exec, command_listed. do 4 right. split; [done|]. by left. }
  eapply succeeds_bind; [|intros _].
  { apply succeeds_exec, command_listed. do 4 right. split; [done|].
    right. by left. }
  eapply succeeds_bind; [|intros _; apply succeeds_log].
  apply succeeds_exec, command_listed. do 4 right. split; [done|].
  right. by right.
Qed.

Lemma succeeds_add_start_script :
  succeeds (midway h a true) (add_start_script h a) (fun _ => True).
Proof.
  intros w [Hw Hm]. destruct (Hm eq_refl) as (text & Hl & [text' Hp]).
  assert (reachable (files w) (packageJsonPath h a)) as Hreach.
  { project_paths. by apply workable_reachable. }
  assert (readFileSync h (packageJsonPath h a) w
          = (Returned text,
             World (files w) (events w ++ [ERead (packageJsonPath h a) text])))
    as Hr.
  { unfold readFileSync. rewrite (walk_reachable _ _ Hreach), Hl.
    unfold packageJsonPath.
    rewrite (inProject_name _ _ "package.json") by reflexivity.
    by rewrite Hobliging by (apply (bool_decide_unpack _); vm_compute; exact I). }
  unfold patched in Hp. destruct (parse h text) as [v|e] eqn:Ev; [|done].
  destruct (set_start_script a v) as [v'|e] eqn:Ev'; [|done].
  eexists tt, _. split; [|done].
  unfold add_start_script. rewrite (bind_returned _ _ _ _ _ Hr). cbv beta.
  rewrite Ev, (bind_returned (try (Returned v)) _ _ v _ eq_refl). cbv beta.
  rewrite Ev', (bind_returned (try (Returned v')) _ _ v' _ eq_refl). cbv beta.
  apply writeFileSync_ok; simpl; [done | by rewrite Hl |].
  unfold packageJsonPath.
  rewrite (inProject_name _ _ "package.json") by reflexivity.
  oblige Hobliging.
Qed.

Lemma succeeds_after_scaffold :
  well_prompted a ->
  succeeds (midway h a false)
    (write_env h a ;; write_templates h a ;; install h a ;; write_tsconfig h a ;;
     setup_lint h a ;; init_git h a ;; add_start_script h a ;; print_hints a)
    (fun _ => True).
Proof.
  intros Hp.
  eapply succeeds_bind; [by apply succeeds_write_env | intros _].
  eapply succeeds_bind; [apply succeeds_write_templates | intros _].
  eapply succeeds_bind; [apply succeeds_install | intros _].
  eapply succeeds_bind; [apply succeeds_write_tsconfig | intros _].
  eapply succeeds_bind; [apply succeeds_setup_lint | intros _].
  eapply succeeds_bind; [apply succeeds_init_git | intros _].
  eapply succeeds_bind; [apply succeeds_add_start_script | intros _].
  apply succeeds_print_hints.
Qed.

End Success.

Lemma scaffold_midway h a w :
  sound_disk (files w) ->
  files w !! projectPath h a = None ->
  files w !! removelast (projectPath h a) = Some DirNode ->
  midway h a false (replay h (scaffold_plan h a) (files w)).
Proof.
  intros Hs Hfree Hparent.
  destruct (scaffold_disk h a w Hs Hfree Hparent) as (Hreach & Hdir & _).
  split; [|done]. split.
  - intros q [r Hq] Hne. destruct r as [|x r].
    + rewrite app_nil_r in Hq. by rewrite <- Hq.
    + by apply (Hreach q (x :: r)).
  - intros name Hin.
    assert (replay h (scaffold_plan h a) (files w) !! (projectPath h a ++ [name])
            = None) as Hnone; [|by rewrite Hnone].
    pose proof (below_fresh h a w Hs Hfree) as Hbelow.
    unfold file_names in Hin. rewrite !elem_of_cons in Hin.
    unfold scaffold_plan, folders, on, replay. simpl.
    rewrite !(path_join_name _ (js _)) by reflexivity.
    rewrite entry_path, (inProject_name _ _ "src") by reflexivity.
    destruct Hin as [->|[->|[->|[->|[->|[->|[->|Hin]]]]]]];
      [..|by apply elem_of_nil in Hin].
    all: destruct (isTS a); simpl; look; by apply Hbelow.
Qed.

(** X10.  On a sound disk where the project path is free and its parent is
    a directory, with the answers of the prompt, on a file system that
    refuses none of the calls of the script and on a cooperative host (on
    every disk where the project directory is workable, each command of the
    run exits with status 0 and leaves the directory workable,
    [npm init -y] leaves a manifest the start script can be put into, and
    the later commands keep such a manifest), the run meets no failure: it
    returns, the process ends with status 0, the events are the whole plan
    for the manifest [npm init -y] left, and the manifest on the disk is
    that text with the start script put in. *)
Theorem run_succeeds h a w :
  cooperative h a -> obliging h a -> well_prompted a ->
  sound_disk (files w) ->
  files w !! projectPath h a = None ->
  files w !! removelast (projectPath h a) = Some DirNode ->
  exists text text',
    patched h a text = Some text' /\
    fst (run h a w) = Returned tt /\
    exit_status (fst (run h a w)) = 0%Z /\
    performed h a w = plan h a text /\
    files (snd (run h a w)) !! packageJsonPath h a = Some (FileNode text').
Proof.
  intros Hcoop Hobliging Hp Hs Hfree Hparent.
  assert (fst (run h a w) = Returned tt) as Hret.
  { destruct (scaffold_world h a w Hs Hfree Hparent Hobliging)
      as (w1 & Hsc & Hf & _).
    unfold run. rewrite (bind_returned _ _ _ _ _ Hsc).
    destruct (succeeds_after_scaffold h a Hobliging Hcoop Hp w1)
      as ([] & w' & -> & _);
      [|done].
    rewrite Hf. by apply scaffold_midway. }
  destruct (run_follows h a w) as (text & Hfol & Hfiles & Hok).
  destruct (Hok tt Hret) as [text' Hpatch].
  exists text, text'. rewrite Hret in Hfol |- *. simpl in Hfol.
  split; [done|]. split; [done|]. split; [done|]. split; [done|].
  rewrite Hfiles, Hfol, plan_unfold, Hpatch, replay_app.
  change (replay h (ERead (packageJsonPath h a) text
                      :: EWrite (packageJsonPath h a) text'
                      :: print_hints_plan a)
                 (replay h (plan_before h a) (files w)))
    with (replay h (List.map ELog (npm_start_message :: hints a))
                 (<[packageJsonPath h a := FileNode text']>
                    (replay h (plan_before h a) (files w)))).
  rewrite replay_logs. apply lookup_insert_eq.
Qed.

(** The example host cooperates with the run of the example answers. *)
Lemma machine_cooperative : cooperative Demo.machine Demo.full.
Proof.
  split.
  - intros command d _ _. change (spawn Demo.machine) with (Demo.programs false).
    unfold Demo.programs.
    destruct (bool_decide (command = npm_init)); [done|].
    destruct (Demo.starts_with (js "npm install ") command); [done|].
    by destruct (bool_decide (command = git_init)).
  - intros command d _ Hw. change (spawn Demo.machine) with (Demo.programs false).
    unfold Demo.programs.
    destruct (bool_decide (command = npm_init));
      [by apply workable_insert_file|].
    destruct (Demo.starts_with (js "npm install ") command).
    { apply workable_insert_file, workable_insert_dir; [|done].
      apply (bool_decide_unpack _). by vm_compute. }
    destruct (bool_decide (command = git_init)); [|done].
    apply workable_insert_dir; [|done].
    apply (bool_decide_unpack _). by vm_compute.
  - intros d _. change (spawn Demo.machine) with (Demo.programs false).
    unfold Demo.programs. rewrite bool_decide_eq_true_2 by done.
    destruct (Demo.is_file d _); (eexists; split;
      [ unfold packageJsonPath;
        rewrite (inProject_name _ _ "package.json") by reflexivity;
        apply lookup_insert_eq
      | destruct (patched _ _ _) as [text'|] eqn:E; [by eexists|];
        vm_compute in E; discriminate E ]).
  - intros command d _ _ Hm.
    change (spawn Demo.machine) with (Demo.programs false).
    unfold Demo.programs.
    destruct (bool_decide (command = npm_init)).
    { destruct (Demo.is_file d _); (eexists; split;
        [ unfold packageJsonPath;
          rewrite (inProject_name _ _ "package.json") by reflexivity;
          apply lookup_insert_eq
        | destruct (patched _ _ _) as [text'|] eqn:E; [by eexists|];
          vm_compute in E; discriminate E ]). }
    destruct (Demo.starts_with (js "npm install ") command).
    { by do 2 (apply manifest_ready_insert; [done|]). }
    destruct (bool_decide (command = git_init)); [|done].
    by apply manifest_ready_insert.
Qed.

Lemma run_succeeds_witness :
  (cooperative Demo.machine Demo.full /\ obliging Demo.machine Demo.full /\
   well_prompted Demo.full /\
   sound_disk (files Demo.fresh) /\
   files Demo.fresh !! projectPath Demo.machine Demo.full = None /\
   files Demo.fresh !! removelast (projectPath Demo.machine Demo.full)
   = Some DirNode) /\
  fst (run Demo.machine Demo.full Demo.fresh) = Returned tt.
Proof.
  pose proof machine_cooperative as H1.
  assert (obliging Demo.machine Demo.full) as H0
    by (apply limits_obliging; vm_compute; reflexivity).
  assert (well_prompted Demo.full) as H2 by (split; [done | by eexists]).
  assert (sound_disk (files Demo.fresh)) as H3
    by (apply (bool_decide_unpack (sound_disk _)); vm_compute; exact I).
  assert (files Demo.fresh !! projectPath Demo.machine Demo.full = None) as H4
    by (vm_compute; reflexivity).
  assert (files Demo.fresh !! removelast (projectPath Demo.machine Demo.full)
          = Some DirNode) as H5 by (vm_compute; reflexivity).
  split; [done|].
  destruct (run_succeeds _ _ _ H1 H0 H2 H3 H4 H5)
    as (text & text' & _ & Hret & _).
  exact Hret.
Defined.

(** ** The disk outside the project *)

Lemma plan_inside h a text : Forall (inside h a) (plan h a text).
Proof.
  plan_blocks.
  each_event ltac:(simpl; first [ reflexivity | by apply prefix_app_r | exact I ]).
Qed.

Lemma performed_inside h a w : Forall (inside h a) (performed h a w).
Proof.
  destruct (performed_shape h a w)
    as (text & did & rest & tail & Hplan & Hdone & Htail & _).
  pose proof (plan_inside h a text) as Hin. rewrite Hplan in Hin.
  apply Forall_app in Hin as [Hdid Hrest]. rewrite Hdone.
  apply Forall_app_2; [done|].
  destruct Htail as [->|(c & d & st & r & _ & -> & -> & _)]; [done|].
  inversion Hrest as [|? ? Hev _]; subst. by apply Forall_cons_2.
Qed.

Lemma replay_outside (h : host) (a : answers) (evs : list event) (d : disk) (q : path) :
  ~ projectPath h a `prefix_of` q ->
  (forall command d', fst (spawn h command (projectPath h a) d') !! q = d' !! q) ->
  Forall (inside h a) evs ->
  replay h evs d !! q = d !! q.
Proof.
  intros Hq Hspawn. revert d.
  induction evs as [|ev evs IH]; intros d Hall; [done|].
  inversion Hall as [|? ? Hev Hrest]; subst.
  change (replay h (ev :: evs) d) with (replay h evs (apply_event h d ev)).
  rewrite IH by done.
  destruct ev as [p|p content|p content|command dir status|line]; simpl in *.
  - apply lookup_insert_ne. by intros ->.
  - apply lookup_insert_ne. by intros ->.
  - done.
  - subst dir. apply Hspawn.
  - done.
Qed.

(** X11.  What lies outside the project directory is left as it was,
    whether the run returns or fails: a path that is neither the project
    path nor below it holds after the run what it held before, provided the
    commands started in the project directory leave that path alone. *)
Theorem outside_untouched h a w (q : path) :
  ~ projectPath h a `prefix_of` q ->
  (forall command d, fst (spawn h command (projectPath h a) d) !! q = d !! q) ->
  files (snd (run h a w)) !! q = files w !! q.
Proof.
  intros Hq Hspawn. destruct (run_follows h a w) as (text & _ & -> & _).
  apply (replay_outside h a); [done | done | apply performed_inside].
Qed.

Lemma outside_untouched_witness :
  (~ projectPath Demo.machine Demo.full `prefix_of` Demo.home /\
   forall command d,
     fst (spawn Demo.machine command (projectPath Demo.machine Demo.full) d)
       !! Demo.home = d !! Demo.home) /\
  files (snd (run Demo.machine Demo.full Demo.fresh)) !! Demo.home
  = Some DirNode.
Proof.
  assert (~ projectPath Demo.machine Demo.full `prefix_of` Demo.home) as H1.
  { intros [k H]. apply (f_equal length) in H. rewrite length_app in H.
    vm_compute in H. lia. }
  assert (forall command d,
            fst (spawn Demo.machine command (projectPath Demo.machine Demo.full) d)
              !! Demo.home = d !! Demo.home) as H2.
  { intros command d. change (spawn Demo.machine) with (Demo.programs false).
    unfold Demo.programs.
    destruct (bool_decide (command = npm_init));
      [by apply lookup_insert_ne|].
    destruct (Demo.starts_with (js "npm install ") command).
    { simpl. by rewrite !lookup_insert_ne. }
    destruct (bool_decide (command = git_init)); [|done].
    by apply lookup_insert_ne. }
  split; [by split|].
  rewrite (outside_untouched Demo.machine Demo.full Demo.fresh Demo.home H1 H2).
  reflexivity.
Defined.

(** ** Nothing is created twice *)

Lemma created_app evs1 evs2 : created (evs1 ++ evs2) = created evs1 ++ created evs2.
Proof. apply omap_app. Qed.

Lemma created_logs lines : created (List.map ELog lines) = [].
Proof. induction lines as [|l lines IH]; [done | exact IH]. Qed.

Lemma NoDup_below (p : path) (rels : list path) :
  NoDup ([] :: rels) -> NoDup (p :: (app p <$> rels)).
Proof.
  intros H. rewrite <- (app_nil_r p) at 1.
  by apply (NoDup_fmap_2 (app p) ([] :: rels)).
Qed.

(** The paths of a list of places below one directory, relative to it. *)
Ltac relative l :=
  lazymatch l with
  | [] => constr:(@nil path)
  | (_ ++ ?r) :: ?l' => let rs := relative l' in constr:(r :: rs)
  end.

Ltac distinct_places :=
  lazymatch goal with
  | |- NoDup (?p :: ?l) =>
      let rs := relative l in
      change (NoDup (p :: (app p <$> rs)));
      apply NoDup_below, (bool_decide_unpack _); vm_compute; exact I
  end.

Lemma plan_created h a text : NoDup (created (plan h a text)).
Proof.
  assert (created (install_plan h a) = []) as Hinstall.
  { unfold install_plan, on. by repeat case_match. }
  assert (created (init_git_plan h a) = []) as Hgit.
  { unfold init_git_plan, on. by repeat case_match. }
  unfold plan, plan_before, print_hints_plan.
  rewrite !created_app, Hinstall, Hgit, created_logs.
  unfold scaffold_plan, write_env_plan, write_templates_plan, write_tsconfig_plan,
    setup_lint_plan, add_start_script_plan, on, folders.
  simpl List.map. rewrite ?(path_join_name _ (js _)) by reflexivity.
  project_paths. generalize (projectPath h a). intros P.
  repeat case_match; simpl; distinct_places.
Qed.

(** X12.  The script creates no directory and writes no file twice in a
    run: the paths of its [mkdirSync] and [writeFileSync] calls are pairwise
    different, so nothing it has written is overwritten by a later
    statement. *)
Theorem nothing_created_twice h a w : NoDup (created (performed h a w)).
Proof.
  destruct (performed_shape h a w)
    as (text & did & rest & tail & Hplan & Hdone & Htail & _).
  pose proof (plan_created h a text) as Hno.
  rewrite Hplan, created_app in Hno. apply NoDup_app in Hno as (Hno & _ & _).
  rewrite Hdone, created_app.
  destruct Htail as [->|(c & d & st & r & _ & -> & _)];
    simpl; by rewrite app_nil_r.
Qed.

(** ** The ignore file and the first commit *)

(** A command of a run sits in the plan with status 0, after the same
    events. *)
Lemma exec_in_plan h a w pre command dir status post :
  performed h a w = pre ++ EExec command dir status :: post ->
  exists text post1, plan h a text = pre ++ EExec command dir 0 :: post1.
Proof.
  intros Hperf. destruct (decide (status = 0%Z)) as [->|Hst].
  { by apply (performed_prefix_plan h a w pre _ post). }
  destruct (performed_shape h a w)
    as (text & did & rest & tail & Hplan & Hdone & Htail & _).
  exists text. pose proof (plan_quiet h a text) as Hquiet.
  rewrite Hplan in Hquiet. apply Forall_app in Hquiet as [Hquiet _].
  assert (EExec command dir status ∉ did) as Hnot.
  { intros Hin. by apply (proj1 (Forall_forall _ _) Hquiet) in Hin. }
  rewrite Hperf in Hdone.
  destruct Htail as [->|(c & d & st & r & _ & -> & -> & _)].
  - exfalso. apply Hnot. rewrite app_nil_r in Hdone. rewrite <- Hdone.
    apply elem_of_app. right. apply elem_of_cons. by left.
  - apply last_occurrence in Hdone as (-> & [= -> -> ->] & ->); [|done].
    by exists r.
Qed.

Section Commit.
Context (h : host) (a : answers).

Lemma before_git_add :
  Forall (fun ev => ~ starts git_add ev)
         (scaffold_plan h a ++ write_env_plan h a ++ write_templates_plan h a
          ++ install_plan h a ++ write_tsconfig_plan h a ++ setup_lint_plan h a).
Proof.
  plan_blocks.
  each_event ltac:(simpl; try tauto;
                   let H := fresh in intros H; vm_compute in H; discriminate H).
Qed.

Lemma after_git_add text :
  Forall (fun ev => ~ starts git_add ev)
         (add_start_script_plan h a text ++ print_hints_plan a).
Proof. plan_blocks. each_event ltac:(simpl; tauto). Qed.

Lemma gitignore_in_plan :
  EWrite (projectPath h a ++ [js ".gitignore"]) gitignore
  ∈ scaffold_plan h a ++ write_env_plan h a ++ write_templates_plan h a
    ++ install_plan h a ++ write_tsconfig_plan h a ++ setup_lint_plan h a.
Proof.
  unfold write_templates_plan.
  rewrite (inProject_name _ _ ".gitignore") by reflexivity.
  rewrite !elem_of_app. right. right. left. right. apply list_elem_of_here.
Qed.

End Commit.

(** X13.  [git add .] is started only when a repository was asked for, in
    the project directory, right after [git init] has exited with status 0,
    and after the script has written [.gitignore]; that file lists
    [node_modules] and [.env], so the first commit leaves out the installed
    packages and the environment file. *)
Theorem gitignore_before_git_add h a w pre dir status post :
  performed h a w = pre ++ EExec git_add dir status :: post ->
  initGit a = true /\ dir = projectPath h a /\
  (exists before,
     pre = before ++ [EExec git_init (projectPath h a) 0] /\
     EWrite (projectPath h a ++ [js ".gitignore"]) gitignore ∈ before) /\
  js "node_modules" ∈ split LF gitignore /\ js ".env" ∈ split LF gitignore.
Proof.
  intros Hperf. apply exec_in_plan in Hperf as (text & post1 & Hplan).
  set (B := scaffold_plan h a ++ write_env_plan h a ++ write_templates_plan h a
            ++ install_plan h a ++ write_tsconfig_plan h a ++ setup_lint_plan h a).
  assert (plan h a text
          = B ++ (if initGit a
                  then [EExec git_init (projectPath h a) 0;
                        EExec git_add (projectPath h a) 0;
                        EExec git_commit (projectPath h a) 0;
                        ELog git_message]
                  else [])
              ++ [ELog (created_message a)]
              ++ add_start_script_plan h a text ++ print_hints_plan a) as Hshape.
  { unfold plan, plan_before, init_git_plan, on, B. by rewrite <- !app_assoc. }
  rewrite Hshape in Hplan. destruct (initGit a).
  - assert ((B ++ [EExec git_init (projectPath h a) 0])
            ++ [EExec git_add (projectPath h a) 0]
            ++ ([EExec git_commit (projectPath h a) 0; ELog git_message;
                 ELog (created_message a)]
                ++ add_start_script_plan h a text ++ print_hints_plan a)
            = pre ++ EExec git_add dir 0 :: post1) as Heq.
    { rewrite <- Hplan, <- !app_assoc. reflexivity. }
    apply (placed (starts git_add)) in Heq as [-> [= ->]]; [|done| |].
    + split; [done|]. split; [done|]. split.
      * exists B. split; [done|]. apply gitignore_in_plan.
      * split; apply (bool_decide_unpack _); by vm_compute.
    + apply Forall_app_2; [apply before_git_add|].
      apply Forall_cons_2; [|apply Forall_nil_2]. simpl. intros H.
      vm_compute in H. discriminate H.
    + apply Forall_app_2; [|apply after_git_add].
      repeat apply Forall_cons_2; try apply Forall_nil_2; simpl; try tauto.
      intros H. vm_compute in H. discriminate H.
  - exfalso.
    apply (absent (starts git_add)) in Hplan; [done|done|apply before_git_add|].
    apply Forall_cons_2; [simpl; tauto | apply after_git_add].
Qed.

Lemma gitignore_before_git_add_witness :
  performed Demo.machine Demo.full Demo.fresh
  = take 19 (performed Demo.machine Demo.full Demo.fresh)
    ++ EExec git_add (projectPath Demo.machine Demo.full) 0
    :: drop 20 (performed Demo.machine Demo.full Demo.fresh) /\
  initGit Demo.full = true.
Proof.
  assert (performed Demo.machine Demo.full Demo.fresh
          = take 19 (performed Demo.machine Demo.full Demo.fresh)
            ++ EExec git_add (projectPath Demo.machine Demo.full) 0
            :: drop 20 (performed Demo.machine Demo.full Demo.fresh)) as H
    by (vm_compute; reflexivity).
  split; [exact H|].
  exact (proj1 (gitignore_before_git_add _ _ _ _ _ _ _ H)).
Defined.

(** ** Patching a manifest again *)

Lemma set_prop_twice k v1 v2 props :
  set_prop k v2 (set_prop k v1 props) = set_prop k v2 props.
Proof.
  induction props as [|[k' v'] rest IH]; simpl.
  - by rewrite bool_decide_eq_true_2.
  - case_bool_decide as Hk; simpl.
    + by rewrite bool_decide_eq_true_2.
    + by rewrite bool_decide_eq_false_2, IH.
Qed.

(** X14.  Patching a patched manifest: the second patch decides, so the
    patch for other answers gives what it gives on the manifest as it was,
    and the patch for the same answers changes nothing. *)
Theorem start_script_patched_again a1 a2 v v1 :
  set_start_script a1 v = Returned v1 ->
  set_start_script a2 v1 = set_start_script a2 v /\
  set_start_script a1 v1 = Returned v1.
Proof.
  intros Hv.
  assert (forall a', set_start_script a' v1 = set_start_script a' v) as Hagain.
  { intros a'. destruct v as [|b|x|s|items|props]; simpl in Hv;
      try (by injection Hv as <-); [done|].
    injection Hv as <-. simpl. rewrite get_set_prop. simpl.
    by rewrite !set_prop_twice. }
  split; [apply Hagain|]. by rewrite Hagain.
Qed.

Lemma start_script_patched_again_witness :
  set_start_script Demo.demo (JObj [])
  = Returned (JObj [(js "scripts", JObj [(js "start", JStr (js "node server.js"))])]) /\
  set_start_script Demo.full
    (JObj [(js "scripts", JObj [(js "start", JStr (js "node server.js"))])])
  = set_start_script Demo.full (JObj []).
Proof.
  assert (set_start_script Demo.demo (JObj [])
          = Returned (JObj [(js "scripts",
                             JObj [(js "start", JStr (js "node server.js"))])]))
    as H by reflexivity.
  split; [exact H|].
  exact (proj1 (start_script_patched_again Demo.demo Demo.full _ _ H)).
Defined.

(** ** The words of the install commands *)

Lemma join_space (names : list jsstring) :
  names <> [] ->
  js "npm install " ++ join (js " ") names
  = join [SPACE] (js "npm" :: js "install" :: names).
Proof. by destruct names. Qed.

(** X15.  The command of line 100 names the packages one by one: cut at
    its spaces it is [npm], [install] and then the dependency list, as long
    as no name in the list has a space inside; [express] is always the
    first of them.  The lint tools are passed the same way after [-D]. *)
Theorem install_command_words a :
  Forall (fun name => SPACE ∉ name) (deps a) ->
  split SPACE (npm_install (deps a)) = js "npm" :: js "install" :: deps a /\
  head (deps a) = Some (js "express") /\
  split SPACE (npm_install_dev (lintDeps a))
  = js "npm" :: js "install" :: js "-D" :: lintDeps a.
Proof.
  intros Hdeps. split; [|split].
  - unfold npm_install. rewrite join_space by (unfold deps; done).
    apply split_join; [done|].
    apply Forall_cons_2; [|apply Forall_cons_2; [|done]];
      apply (bool_decide_unpack _); by vm_compute.
  - reflexivity.
  - unfold lintDeps. by destruct (isTS a); vm_compute.
Qed.

Lemma install_command_words_witness :
  Forall (fun name => SPACE ∉ name) (deps Demo.demo) /\
  split SPACE (npm_install (deps Demo.demo))
  = [js "npm"; js "install"; js "express"; js "mongoose"; js "cors"; js "dotenv"].
Proof.
  assert (Forall (fun name => SPACE ∉ name) (deps Demo.demo)) as H
    by (apply (bool_decide_unpack _); vm_compute; exact I).
  split; [exact H|].
  exact (proj1 (install_command_words Demo.demo H)).
Defined.

(** ** The Dockerfile *)

Section Docker.
Context (h : host) (a : answers).

Lemma before_templates (name : jsstring) :
  name = js "Dockerfile" \/ name = js ".gitignore" ->
  Forall (fun ev => ~ is_write_to (projectPath h a ++ [name]) ev)
         (scaffold_plan h a ++ write_env_plan h a).
Proof. intros [-> | ->]; plan_blocks; each_event no_write. Qed.

Lemma after_templates (name : jsstring) text :
  name = js "Dockerfile" \/ name = js ".gitignore" ->
  Forall (fun ev => ~ is_write_to (projectPath h a ++ [name]) ev)
         (install_plan h a ++ write_tsconfig_plan h a ++ setup_lint_plan h a
          ++ init_git_plan h a ++ add_start_script_plan h a text
          ++ print_hints_plan a).
Proof. intros [-> | ->]; plan_blocks; each_event no_write. Qed.

Lemma before_npm_init :
  Forall (fun ev => ~ starts npm_init ev)
         (scaffold_plan h a ++ write_env_plan h a ++ write_templates_plan h a).
Proof. plan_blocks. each_event ltac:(simpl; tauto). Qed.

Lemma after_npm_init text :
  Forall (fun ev => ~ starts npm_init ev)
         (on (Nat.ltb 0 (length (deps a)))
             [EExec (npm_install (deps a)) (projectPath h a) 0]
          ++ on (Nat.ltb 0 (length (devDeps a)))
                [EExec (npm_install_dev (devDeps a)) (projectPath h a) 0]
          ++ write_tsconfig_plan h a ++ setup_lint_plan h a
          ++ init_git_plan h a ++ add_start_script_plan h a text
          ++ print_hints_plan a).
Proof.
  plan_blocks.
  each_event ltac:(simpl; try tauto;
                   let H := fresh in intros H; vm_compute in H; discriminate H).
Qed.

Lemma plan_around_templates text :
  plan h a text
  = (scaffold_plan h a ++ write_env_plan h a)
    ++ (if useDocker a
        then [EWrite (projectPath h a ++ [js "Dockerfile"]) dockerfile]
        else [])
    ++ [EWrite (projectPath h a ++ [js ".gitignore"]) gitignore]
    ++ (install_plan h a ++ write_tsconfig_plan h a ++ setup_lint_plan h a
        ++ init_git_plan h a ++ add_start_script_plan h a text
        ++ print_hints_plan a).
Proof.
  unfold plan, plan_before, write_templates_plan, on.
  rewrite (inProject_name _ _ "Dockerfile"), (inProject_name _ _ ".gitignore")
    by reflexivity.
  by rewrite <- !app_assoc.
Qed.

Lemma plan_around_npm_init text :
  plan h a text
  = (scaffold_plan h a ++ write_env_plan h a ++ write_templates_plan h a)
    ++ [EExec npm_init (projectPath h a) 0]
    ++ (on (Nat.ltb 0 (length (deps a)))
           [EExec (npm_install (deps a)) (projectPath h a) 0]
        ++ on (Nat.ltb 0 (length (devDeps a)))
              [EExec (npm_install_dev (devDeps a)) (projectPath h a) 0]
        ++ write_tsconfig_plan h a ++ setup_lint_plan h a
        ++ init_git_plan h a ++ add_start_script_plan h a text
        ++ print_hints_plan a).
Proof. unfold plan, plan_before, install_plan. by rewrite <- !app_assoc. Qed.

End Docker.

(** X16.  A [Dockerfile] is written only when Docker support was asked for,
    with the fixed text, which starts at [FROM] without the blank line of
    the template and runs [npm start]; and when it was asked for, the file is
    written before the first command, [npm init -y], is started. *)
Theorem dockerfile_on_request h a w :
  (forall pre content post,
     performed h a w
     = pre ++ EWrite (projectPath h a ++ [js "Dockerfile"]) content :: post ->
     useDocker a = true /\ content = dockerfile /\
     pre = scaffold_plan h a ++ write_env_plan h a) /\
  (forall pre dir status post,
     performed h a w = pre ++ EExec npm_init dir status :: post ->
     dir = projectPath h a /\
     (EWrite (projectPath h a ++ [js "Dockerfile"]) dockerfile ∈ pre
      <-> useDocker a = true)) /\
  trimmed dockerfile /\
  head (split LF dockerfile) = Some (js "FROM node:18") /\
  js "CMD [" ++ [DQUOTE] ++ js "npm" ++ [DQUOTE] ++ js ", " ++ [DQUOTE]
    ++ js "start" ++ [DQUOTE] ++ js "]" ∈ split LF dockerfile.
Proof.
  split; [|split; [|split; [|split]]].
  - intros pre content post Hperf.
    apply write_in_plan in Hperf as (text & post1 & Hplan).
    rewrite plan_around_templates in Hplan. destruct (useDocker a).
    + apply (placed (is_write_to (projectPath h a ++ [js "Dockerfile"])))
        in Hplan as [-> [= ->]]; [done|done| |].
      * apply before_templates. by left.
      * apply Forall_cons_2; [no_write|]. apply after_templates. by left.
    + exfalso.
      apply (absent (is_write_to (projectPath h a ++ [js "Dockerfile"])))
        in Hplan; [done|done| |].
      * apply before_templates. by left.
      * apply Forall_cons_2; [no_write|]. apply after_templates. by left.
  - intros pre dir status post Hperf.
    apply exec_in_plan in Hperf as (text & post1 & Hplan).
    rewrite plan_around_npm_init in Hplan.
    apply (placed (starts npm_init)) in Hplan as [-> [= ->]];
      [|done|apply before_npm_init|apply after_npm_init].
    split; [done|]. unfold write_templates_plan, on.
    rewrite (inProject_name _ _ "Dockerfile"), (inProject_name _ _ ".gitignore")
      by reflexivity.
    split.
    + intros Hin. destruct (useDocker a); [done|]. exfalso.
      pose proof (proj1 (Forall_forall _ _)
                    (before_templates h a (js "Dockerfile") (or_introl eq_refl)))
        as Hno.
      rewrite !elem_of_app in Hin. destruct Hin as [Hin|[Hin|[Hin|Hin]]].
      * apply (Hno _ (proj2 (elem_of_app _ _ _) (or_introl Hin))). reflexivity.
      * apply (Hno _ (proj2 (elem_of_app _ _ _) (or_intror Hin))). reflexivity.
      * by apply elem_of_nil in Hin.
      * apply list_elem_of_singleton in Hin. injection Hin as Hp _.
        apply app_inv_head in Hp. vm_compute in Hp. discriminate Hp.
    + intros ->. rewrite !elem_of_app. right. right. left.
      apply list_elem_of_here.
  - apply trim_trimmed.
  - by vm_compute.
  - apply (bool_decide_unpack _). by vm_compute.
Qed.

(** ** The start script and the entry point *)

(** X17.  The start script runs the entry point the scaffold writes: it is
    a tool, a space and the relative path of the entry point; the tool is
    [node] for JavaScript and one of the development dependencies the run
    installs for TypeScript. *)
Theorem start_script_runs_entry_point a :
  exists tool,
    startScript a = tool ++ SPACE :: serverPath a /\
    match language a with
    | JavaScript => tool = js "node" /\ devDeps a = []
    | TypeScript => tool ∈ devDeps a
    end.
Proof.
  unfold startScript, serverPath, devDeps, isTS. destruct (language a).
  - exists (js "node"). by split.
  - exists (js "ts-node-dev"). split; [done|].
    apply (bool_decide_unpack _). by vm_compute.
Qed.
